(** * DV6 parser (dv6.js): a shallow embedding and its verified properties

    The development follows the JavaScript sources function by function:
    strings are sequences of UTF-16 code units, regular expressions are
    run by a backtracking matcher with the priorities of ECMAScript,
    exceptions are values of a result type and the parser object's two
    diagnostic arrays are threaded as explicit state. *)

From Stdlib Require Import Ascii String List NArith ZArith Bool Arith Lia.
Import ListNotations.

Set Implicit Arguments.

(* ================================================================= *)
(** ** JavaScript strings *)

Module Js.

(** A string is its sequence of UTF-16 code units. *)
#[warnings="-notation-for-abbreviation"]
Notation codeunit := N (only parsing).
#[warnings="-notation-for-abbreviation"]
Notation jsstring := (list N) (only parsing).

Local Open Scope N_scope.

(** Source literals are written as Rocq strings (UTF-8 bytes) and decoded
    to code units, so that a literal of the JavaScript file can be quoted
    as it stands. *)
Fixpoint utf16_of_utf8 (bs : list N) : jsstring :=
  match bs with
  | [] => []
  | b0 :: r0 =>
    if b0 <? 0x80 then b0 :: utf16_of_utf8 r0
    else
      match r0 with
      | [] => [0xFFFD]
      | b1 :: r1 =>
        if b0 <? 0xE0 then
          N.lor (N.shiftl (N.land b0 0x1F) 6) (N.land b1 0x3F)
            :: utf16_of_utf8 r1
        else
          match r1 with
          | [] => [0xFFFD]
          | b2 :: r2 =>
            if b0 <? 0xF0 then
              N.lor (N.shiftl (N.land b0 0x0F) 12)
                (N.lor (N.shiftl (N.land b1 0x3F) 6) (N.land b2 0x3F))
                :: utf16_of_utf8 r2
            else
              match r2 with
              | [] => [0xFFFD]
              | b3 :: r3 =>
                let cp :=
                  N.lor (N.shiftl (N.land b0 0x07) 18)
                    (N.lor (N.shiftl (N.land b1 0x3F) 12)
                       (N.lor (N.shiftl (N.land b2 0x3F) 6) (N.land b3 0x3F))) in
                let v := cp - 0x10000 in
                (0xD800 + N.shiftr v 10) :: (0xDC00 + N.land v 0x3FF)
                  :: utf16_of_utf8 r3
              end
          end
      end
  end.

Definition js (s : string) : jsstring :=
  utf16_of_utf8 (map N_of_ascii (list_ascii_of_string s)).

(** The escapes \n, \t and \r of a source literal. *)
Definition LF : string := String "010" EmptyString.
Definition TAB : string := String "009" EmptyString.
Definition CR : string := String "013" EmptyString.

(** [===] on strings. *)
Fixpoint jseqb (a b : jsstring) : bool :=
  match a, b with
  | [], [] => true
  | x :: a', y :: b' => (x =? y) && jseqb a' b'
  | _, _ => false
  end.

(** String.prototype.startsWith / endsWith, with a search string and no
    position argument. *)
Fixpoint startsWith (s search : jsstring) {struct search} : bool :=
  match search with
  | [] => true
  | y :: search' =>
    match s with
    | [] => false
    | x :: s' => (x =? y) && startsWith s' search'
    end
  end.

Definition endsWith (s search : jsstring) : bool :=
  (length search <=? length s)%nat
  && jseqb (skipn (length s - length search) s) search.

(** Array.prototype.includes on an array of strings. *)
Definition includes (l : list jsstring) (x : jsstring) : bool :=
  existsb (jseqb x) l.

(** Array.prototype.join. *)
Fixpoint join (l : list jsstring) (sep : jsstring) : jsstring :=
  match l with
  | [] => []
  | [x] => x
  | x :: l' => x ++ sep ++ join l' sep
  end.

(** Number-to-string conversion of a non-negative integer. *)
Fixpoint digits (u : Decimal.uint) : jsstring :=
  match u with
  | Decimal.Nil => []
  | Decimal.D0 u' => 48 :: digits u'
  | Decimal.D1 u' => 49 :: digits u'
  | Decimal.D2 u' => 50 :: digits u'
  | Decimal.D3 u' => 51 :: digits u'
  | Decimal.D4 u' => 52 :: digits u'
  | Decimal.D5 u' => 53 :: digits u'
  | Decimal.D6 u' => 54 :: digits u'
  | Decimal.D7 u' => 55 :: digits u'
  | Decimal.D8 u' => 56 :: digits u'
  | Decimal.D9 u' => 57 :: digits u'
  end.

Definition number_to_string (n : nat) : jsstring := digits (Nat.to_uint n).

(** Array.prototype.slice(start, end) and slice(start), on any integers. *)
Definition relative_index (len : nat) (i : Z) : nat :=
  if (i <? 0)%Z then Z.to_nat (Z.max (Z.of_nat len + i) 0)
  else Nat.min (Z.to_nat i) len.

Definition slice {A} (l : list A) (start finish : Z) : list A :=
  let k := relative_index (length l) start in
  let final := relative_index (length l) finish in
  firstn (final - k) (skipn k l).

Definition slice_from {A} (l : list A) (start : Z) : list A :=
  skipn (relative_index (length l) start) l.

(** Array.prototype.findIndex: the first index whose element satisfies
    the predicate, or -1. *)
Fixpoint findIndex_from {A} (p : A -> bool) (l : list A) (i : Z) : Z :=
  match l with
  | [] => (-1)%Z
  | x :: l' => if p x then i else findIndex_from p l' (i + 1)%Z
  end.

Definition findIndex {A} (p : A -> bool) (l : list A) : Z :=
  findIndex_from p l 0%Z.

End Js.

(* ================================================================= *)
(** ** Regular expressions *)

Module Regex.
Import Js.

(** The fragment of the pattern language the sources use.  Alternatives and
    quantifiers are tried in the order ECMAScript prescribes; the first
    overall success wins. *)
Inductive regex : Type :=
| Empty
| Char (p : codeunit -> bool)        (* a literal, an escape or a class *)
| Seq (r1 r2 : regex)
| Alt (r1 r2 : regex)                (* r1|r2, r1 first *)
| Star (greedy : bool) (r : regex)   (* r* and r*? *)
| Group (i : nat) (r : regex)        (* the i-th capturing parenthesis *)
| AssertStart                        (* ^ without the m flag *)
| AssertEnd.                         (* $ without the m flag *)

Definition captures := list (nat * jsstring).

Definition set_capture (i : nat) (s : jsstring) (c : captures) : captures :=
  (i, s) :: filter (fun e => negb (fst e =? i)%nat) c.

Fixpoint get_capture (i : nat) (c : captures) : option jsstring :=
  match c with
  | [] => None
  | (j, s) :: c' => if (j =? i)%nat then Some s else get_capture i c'
  end.

(** A matcher runs at offset [pos], where [rest] is the input from that
    offset on, and then runs its continuation. *)
Definition continuation (A : Type) : Type := nat -> list N -> captures -> option A.
Definition matcher (A : Type) : Type := continuation A -> continuation A.

(** RepeatMatcher with min 0 and no upper bound.  An iteration of the body
    that consumed nothing is rejected; the counter starts at the length of
    the remaining input, which the iterations, each consuming at least one
    code unit, cannot exceed ([star_loop_fuel], [m_star_unfold]). *)
Fixpoint star_loop {A : Type} (greedy : bool) (body : matcher A)
    (k : continuation A) (fuel : nat) (pos : nat) (rest : jsstring)
    (c : captures) {struct fuel} : option A :=
  let again (_ : unit) :=
    match fuel with
    | O => None
    | S fuel' =>
      body (fun pos' rest' c' =>
              if (length rest' <? length rest)%nat
              then star_loop greedy body k fuel' pos' rest' c' else None)
        pos rest c
    end in
  if greedy then
    match again tt with
    | Some a => Some a
    | None => k pos rest c
    end
  else
    match k pos rest c with
    | Some a => Some a
    | None => again tt
    end.

Fixpoint m {A : Type} (r : regex) (k : continuation A)
    (pos : nat) (rest : jsstring) (c : captures) {struct r} : option A :=
  match r with
  | Empty => k pos rest c
  | Char p =>
    match rest with
    | x :: rest' => if p x then k (S pos) rest' c else None
    | [] => None
    end
  | Seq r1 r2 => m r1 (m r2 k) pos rest c
  | Alt r1 r2 =>
    match m r1 k pos rest c with
    | Some a => Some a
    | None => m r2 k pos rest c
    end
  | Star greedy r' => star_loop greedy (m r') k (length rest) pos rest c
  | Group i r' =>
    m r' (fun pos' rest' c' =>
            k pos' rest'
              (set_capture i (firstn (length rest - length rest') rest) c'))
      pos rest c
  | AssertStart => if (pos =? 0)%nat then k pos rest c else None
  | AssertEnd =>
    match rest with
    | [] => k pos rest c
    | _ :: _ => None
    end
  end.

Definition Plus (greedy : bool) (r : regex) : regex := Seq r (Star greedy r).
(** [r?]: every optional body of the sources consumes input when it matches. *)
Definition Opt (r : regex) : regex := Alt r Empty.
Fixpoint Repeat (n : nat) (r : regex) : regex :=
  match n with
  | O => Empty
  | S n' => Seq r (Repeat n' r)
  end.
Fixpoint Lit (s : jsstring) : regex :=
  match s with
  | [] => Empty
  | x :: s' => Seq (Char (N.eqb x)) (Lit s')
  end.

(** The array a successful exec returns: index, [0] and the groups. *)
Record match_result : Type := MatchResult {
  index : nat;
  matched : jsstring;
  groups : captures
}.

Definition group (i : nat) (res : match_result) : option jsstring :=
  get_capture i (groups res).

(** [result[i]] for a parenthesis that lies under no quantifier and in no
    alternative: every successful match defines it ([sub_defined]), so the
    empty default is never returned. *)
Definition sub (res : match_result) (i : nat) : jsstring :=
  match group i res with
  | Some s => s
  | None => []
  end.

Definition match_here (r : regex) (pos : nat) (rest : jsstring)
  : option match_result :=
  m r (fun _ rest' c =>
         Some (MatchResult pos (firstn (length rest - length rest') rest) c))
    pos rest [].

(** RegExp.prototype.exec without the g and y flags: the first offset, from
    0 upwards, at which the pattern matches. *)
Fixpoint exec_from (r : regex) (pos : nat) (rest : jsstring)
  : option match_result :=
  match match_here r pos rest with
  | Some res => Some res
  | None =>
    match rest with
    | [] => None
    | _ :: rest' => exec_from r (S pos) rest'
    end
  end.

Definition exec (r : regex) (s : jsstring) : option match_result :=
  exec_from r 0 s.

(** String.prototype.match with a non-global pattern is exec. *)
Definition str_match (s : jsstring) (r : regex) : option match_result :=
  exec r s.

Definition test (r : regex) (s : jsstring) : bool :=
  match exec r s with
  | Some _ => true
  | None => false
  end.

(** String.prototype.split with a pattern separator without groups: the
    separator is tried at each offset q; a match ending at e <> p closes the
    piece S[p, q) and restarts at e.  The counter bounds the steps, of which
    a separator that consumes input needs at most one per code unit
    ([split_loop_fuel]). *)
Definition match_end_at (r : regex) (s : jsstring) (q : nat) : option nat :=
  m r (fun pos' _ _ => Some pos') q (skipn q s) [].

Fixpoint split_loop (r : regex) (s : jsstring) (fuel p q : nat)
  : list jsstring :=
  match fuel with
  | O => [skipn p s]
  | S fuel' =>
    if (length s <=? q)%nat then [skipn p s]
    else
      match match_end_at r s q with
      | None => split_loop r s fuel' p (S q)
      | Some e =>
        if (e =? p)%nat then split_loop r s fuel' p (S q)
        else firstn (q - p) (skipn p s) :: split_loop r s fuel' e e
      end
  end.

Definition split (s : jsstring) (r : regex) : list jsstring :=
  match s with
  | [] => match match_end_at r s 0 with Some _ => [] | None => [s] end
  | _ :: _ => split_loop r s (2 * length s + 1) 0 0
  end.

(** [defines i r]: the i-th parenthesis lies on the spine of [r], under no
    quantifier and in no alternative. *)
Fixpoint defines (i : nat) (r : regex) : bool :=
  match r with
  | Group j r' => (j =? i)%nat || defines i r'
  | Seq r1 r2 => defines i r1 || defines i r2
  | _ => false
  end.

Definition defined (i : nat) (c : captures) : Prop := get_capture i c <> None.

(** A matcher that looks at its continuation only on what is left of its
    input. *)
Definition local {A : Type} (body : matcher A) : Prop :=
  forall k1 k2 pos rest c,
    (forall pos' rest' c', length rest' <= length rest ->
                           k1 pos' rest' c' = k2 pos' rest' c') ->
    body k1 pos rest c = body k2 pos rest c.

(** A continuation all of whose successes, on captures satisfying [Q],
    satisfy [P]. *)
Definition post {A : Type} (P : A -> Prop) (Q : captures -> Prop)
    (k : continuation A) : Prop :=
  forall pos rest c a, Q c -> k pos rest c = Some a -> P a.

(** Character classes. *)
Local Open Scope N_scope.
Definition in_range (lo hi : N) (x : codeunit) : bool := (lo <=? x) && (x <=? hi).
Definition tab : codeunit := 9.
Definition lf : codeunit := 10.
Definition cr : codeunit := 13.
Definition backslash : codeunit := 92.
Definition alpha (x : codeunit) : bool := in_range 65 90 x || in_range 97 122 x.
Definition digit (x : codeunit) : bool := in_range 48 57 x.
Definition word_char (x : codeunit) : bool := alpha x || digit x || (x =? 95).
Definition line_terminator (x : codeunit) : bool :=
  (x =? 10) || (x =? 13) || (x =? 0x2028) || (x =? 0x2029).
Definition dot (x : codeunit) : bool := negb (line_terminator x).
Definition white_space (x : codeunit) : bool :=
  in_range 9 13 x || (x =? 32) || (x =? 0xA0) || (x =? 0x1680)
  || in_range 0x2000 0x200A x || (x =? 0x2028) || (x =? 0x2029)
  || (x =? 0x202F) || (x =? 0x205F) || (x =? 0x3000) || (x =? 0xFEFF).
Definition not_white_space (x : codeunit) : bool := negb (white_space x).

End Regex.

(* ================================================================= *)
(** ** Exceptions and the two effect layers *)

Module Effects.
Import Js.

(** What a throw statement or a failing primitive raises. *)
Inductive exception : Type :=
| ReferenceError (identifier : jsstring)  (* an identifier no scope binds *)
| TypeError (accessed : jsstring)         (* a property read on undefined or null *)
| ErrorObject (message : jsstring)        (* throw new Error(message) *)
| ThrownNumber (n : Z).                   (* throw of a bare number *)

Inductive result (A : Type) : Type :=
| Ok (a : A)
| Throw (e : exception).
Arguments Ok {A} a.
Arguments Throw {A} e.

Definition rbind {A B} (x : result A) (f : A -> result B) : result B :=
  match x with
  | Ok a => f a
  | Throw e => Throw e
  end.

(** Reading an identifier that neither the function, the class nor the
    module declares. *)
Definition unresolvable {A} (identifier : string) : result A :=
  Throw (ReferenceError (js identifier)).

(** A property access [o.p] or [o[i]] on a possibly undefined or null [o]. *)
Definition access {A} (o : option A) (what : string) : result A :=
  match o with
  | Some a => Ok a
  | None => Throw (TypeError (js what))
  end.

(** An Error object. *)
Record Error : Type := new_Error { message : jsstring }.

(** The fields of a DV6Parser instance that the methods mutate. *)
Record DV6Parser : Type := mkParser {
  errors : list Error;
  warnings : list Error
}.

(** A method body: it may push diagnostics and it may throw; what was
    pushed before a throw stays pushed. *)
Definition M (A : Type) : Type := DV6Parser -> result A * DV6Parser.

Definition ret {A} (a : A) : M A := fun this => (Ok a, this).

Definition bind {A B} (x : M A) (f : A -> M B) : M B :=
  fun this =>
    match x this with
    | (Ok a, this') => f a this'
    | (Throw e, this') => (Throw e, this')
    end.

Definition lift {A} (x : result A) : M A := fun this => (x, this).

Definition throw {A} (e : exception) : M A := fun this => (Throw e, this).

Definition push_error (e : Error) : M unit :=
  fun this => (Ok tt, mkParser (errors this ++ [e]) (warnings this)).

Definition push_warning (e : Error) : M unit :=
  fun this => (Ok tt, mkParser (errors this) (warnings this ++ [e])).

(** for (const x of xs) with a loop-carried local. *)
Fixpoint for_of {A S} (xs : list A) (body : A -> S -> M S) (s : S) : M S :=
  match xs with
  | [] => ret s
  | x :: xs' => bind (body x s) (for_of xs' body)
  end.

(** Array.prototype.map with a callback that runs in the monad. *)
Fixpoint map_m {A B} (f : A -> M B) (xs : list A) : M (list B) :=
  match xs with
  | [] => ret []
  | x :: xs' => bind (f x) (fun y => bind (map_m f xs') (fun ys => ret (y :: ys)))
  end.

End Effects.

Declare Scope js_scope.
Delimit Scope js_scope with js.
Notation "x <- e ;; k" := (Effects.bind e (fun x => k))
  (at level 61, e at next level, right associativity) : js_scope.
Notation "e ;; k" := (Effects.bind e (fun _ => k))
  (at level 61, right associativity) : js_scope.
Notation "'try' x <- e ;; k" := (Effects.rbind e (fun x => k))
  (at level 61, x name, e at next level, right associativity) : js_scope.
Notation "a >> b" := (Regex.Seq a b) (at level 41, right associativity) : js_scope.
Open Scope js_scope.

(* ================================================================= *)
(** ** The patterns of the sources *)

Module Patterns.
Import Js Regex.

Definition lit (a : ascii) : regex := Char (N.eqb (N_of_ascii a)).
Definition alnum (x : codeunit) : bool := alpha x || digit x.
Definition not_backslash (x : codeunit) : bool := negb (N.eqb backslash x).

(** The patterns are quoted with a blank after each star that precedes a
    closing parenthesis; the blank is not part of the pattern. *)

(** /^(\t* )((?:\\\\|\\\r?\n?|[^\\])* )(\\)?$/ *)
Definition line_body : regex :=
  Alt (lit "\" >> lit "\")
    (Alt (lit "\" >> Opt (Char (N.eqb cr)) >> Opt (Char (N.eqb lf)))
       (Char not_backslash)).

Definition line_re : regex :=
  AssertStart
  >> Group 1 (Star true (Char (N.eqb tab)))
  >> Group 2 (Star true line_body)
  >> Opt (Group 3 (lit "\"))
  >> AssertEnd.

(** /\r?\n/, /,/ and /;/, the separators given to split. *)
Definition newline_re : regex := Opt (Char (N.eqb cr)) >> Char (N.eqb lf).
Definition comma_re : regex := lit ",".
Definition semicolon_re : regex := lit ";".

(** /^#(.+?)$/ *)
Definition word_name_re : regex :=
  AssertStart >> lit "#" >> Group 1 (Plus false (Char dot)) >> AssertEnd.

(** /^([A-Za-z]\w* ):(.* )$/ *)
Definition property_re : regex :=
  AssertStart
  >> Group 1 (Char alpha >> Star true (Char word_char))
  >> lit ":"
  >> Group 2 (Star true (Char dot))
  >> AssertEnd.

(** /^(\w+):(.+)$/ *)
Definition lang_re : regex :=
  AssertStart
  >> Group 1 (Plus true (Char word_char))
  >> lit ":"
  >> Group 2 (Plus true (Char dot))
  >> AssertEnd.

Definition d (n : nat) : regex := Repeat n (Char digit).

(** /^\d{4}\/\d{2}\/\d{2}(?: \d{2}:\d{2}(?::\d{2})?)?$/ *)
Definition author_date_re : regex :=
  AssertStart
  >> d 4 >> lit "/" >> d 2 >> lit "/" >> d 2
  >> Opt (lit " " >> d 2 >> lit ":" >> d 2 >> Opt (lit ":" >> d 2))
  >> AssertEnd.

(** /^(?:\d{4}\/\d{2}\/\d{2}|\d+ (?:day|week|month|year))$/ *)
Definition valid_re : regex :=
  AssertStart
  >> Alt (d 4 >> lit "/" >> d 2 >> lit "/" >> d 2)
       (Plus true (Char digit) >> lit " "
        >> Alt (Lit (js "day"))
             (Alt (Lit (js "week")) (Alt (Lit (js "month")) (Lit (js "year")))))
  >> AssertEnd.

(** /^\d{4}\/\d{2}\/\d{2}$/ *)
Definition expire_re : regex :=
  AssertStart >> d 4 >> lit "/" >> d 2 >> lit "/" >> d 2 >> AssertEnd.

(** /^(\S+)\s(.* )$/ *)
Definition content_re : regex :=
  AssertStart
  >> Group 1 (Plus true (Char not_white_space))
  >> Char white_space
  >> Group 2 (Star true (Char dot))
  >> AssertEnd.

(** /^[A-Za-z0-9]+:/ and /^\/\// of the DV6Line getters. *)
Definition is_property_re : regex :=
  AssertStart >> Plus true (Char alnum) >> lit ":".
Definition is_extended_re : regex :=
  AssertStart >> lit "/" >> lit "/".

End Patterns.

(* ================================================================= *)
(** ** Lines and the line splitter *)

Module Lines.
Import Js Regex Effects Patterns.

(** class DV6Line.  [last_line_index] is undefined unless assigned; [line]
    is the property that dv6_to_lines creates by [previous_line.line += ...]
    and that the constructor does not know. *)
Record DV6Line : Type := mkLine {
  line_index : nat;
  last_line_index : option nat;
  indent : nat;
  content : jsstring;
  line : option jsstring
}.

(** new DV6Line({line_index, indent, content}) *)
Definition new_DV6Line (line_index indent : nat) (content : jsstring) : DV6Line :=
  mkLine line_index None indent content None.

(** get is_word, is_property, is_extended *)
Definition is_word (l : DV6Line) : bool := startsWith (content l) (js "#").
Definition is_property (l : DV6Line) : bool := test is_property_re (content l).
Definition is_extended (l : DV6Line) : bool := test is_extended_re (content l).

(** DV6Line.error(message); a last_line_index of 0 or undefined is falsy. *)
Definition error (l : DV6Line) (message : jsstring) : Error :=
  let line_description :=
    match last_line_index l with
    | Some (S last) =>
      number_to_string (line_index l) ++ js "-" ++ number_to_string (S last)
    | _ => number_to_string (line_index l)
    end in
  new_Error (js "行" ++ line_description ++ js ": " ++ message).

(** *** DV6Parser.dv6_to_lines *)

(** The locals of the loop: the [lines] and [errors] arrays and the flag. *)
Record splitter : Type := mkSplitter {
  lines : list DV6Line;
  split_errors : list jsstring;
  line_continued : bool
}.

(** [lines[lines.length - 1]]: undefined on the empty array. *)
Definition last_line (ls : list DV6Line) : option DV6Line := last (map Some ls) None.

(** A write through [previous_line], which aliases the last array element. *)
Definition update_last (f : DV6Line -> DV6Line) (ls : list DV6Line) : list DV6Line :=
  match rev ls with
  | [] => []
  | l :: before => rev before ++ [f l]
  end.

(** [x.line += s]: an undefined left operand is converted to its name. *)
Definition append_line (s : jsstring) (l : DV6Line) : DV6Line :=
  mkLine (line_index l) (last_line_index l) (indent l) (content l)
    (Some (match line l with Some t => t | None => js "undefined" end ++ s)).

Definition set_last_line_index (i : nat) (l : DV6Line) : DV6Line :=
  mkLine (line_index l) (Some i) (indent l) (content l) (line l).

(** Truthiness of a match-array element. *)
Definition truthy (g : option jsstring) : bool :=
  match g with
  | Some (_ :: _) => true
  | _ => false
  end.

(** One iteration of the for loop over raw_lines. *)
Definition dv6_to_lines_step (line_index : nat) (raw_line : jsstring)
    (s : splitter) : result splitter :=
  try result <- access (str_match raw_line line_re) "result[1]" ;;
  let previous_line := last_line (lines s) in
  try s1 <-
    (if line_continued s then
       try previous <- access previous_line "previous_line.indent" ;;
       let errors1 :=
         if negb (length (sub result 1) =? indent previous)%nat then
           split_errors s
           ++ [js "行" ++ number_to_string (line_index + 1)
               ++ js ": インデントが直前の継続行と不一致です"]
         else split_errors s in
       Ok (mkSplitter (update_last (append_line (sub result 2)) (lines s))
             errors1 (line_continued s))
     else
       let line := new_DV6Line line_index (length (sub result 1)) (sub result 2) in
       let errors1 :=
         match previous_line with
         | Some previous =>
           if (Z.of_nat (indent previous) <? Z.of_nat (indent line) - 1)%Z then
             split_errors s
             ++ [js "行" ++ number_to_string (line_index + 1)
                 ++ js ": インデントが直前の行から2レベル以上上がっています"]
           else split_errors s
         | None => split_errors s
         end in
       Ok (mkSplitter (lines s ++ [line]) errors1 (line_continued s))) ;;
  if truthy (group 3 result) then
    Ok (mkSplitter (lines s1) (split_errors s1) true)
  else
    Ok (mkSplitter
          (if line_continued s1
           then update_last (set_last_line_index line_index) (lines s1)
           else lines s1)
          (split_errors s1) false).

Fixpoint dv6_to_lines_loop (line_index : nat) (raw_lines : list jsstring)
    (s : splitter) : result splitter :=
  match raw_lines with
  | [] => Ok s
  | raw_line :: raw_lines' =>
    try s' <- dv6_to_lines_step line_index raw_line s ;;
    dv6_to_lines_loop (S line_index) raw_lines' s'
  end.

(** The static method.  Its last statement reads the identifier [erros];
    the array that was filled is [errors]. *)
Definition dv6_to_lines (dv6 : jsstring) : result (list DV6Line) :=
  let raw_lines := split dv6 newline_re in
  try s <- dv6_to_lines_loop 0 raw_lines (mkSplitter [] [] false) ;;
  if negb (length (split_errors s) =? 0)%nat then
    try erros <- unresolvable "erros" ;;
    Throw (ErrorObject (join erros (js LF)))
  else Ok (lines s).

End Lines.

(* ================================================================= *)
(** ** The indentation tree *)

Module Tree.
Import Js Regex Effects Patterns Lines.

(** A child is a DV6Line or a DV6HeadLine, which extends it by [children]. *)
#[warnings="-register-all"]
Inductive element : Type :=
| Line (l : DV6Line)
| HeadLine (l : DV6Line) (children : list element).

Definition line_of (e : element) : DV6Line :=
  match e with
  | Line l => l
  | HeadLine l _ => l
  end.

(** new DV6HeadLine(line) passes [line] to the inherited constructor, which
    copies the four fields it destructures and nothing else; [children]
    starts empty. *)
Definition super (l : DV6Line) : DV6Line :=
  mkLine (line_index l) (last_line_index l) (indent l) (content l) None.

(** The root, new DV6HeadLine(), has no line fields, only children. *)
Record root : Type := Root { root_children : list element }.

(** structure_stack.  Entry 0 is the root; every later entry is an open
    head, and the same object is the last child of the entry below it,
    because it was pushed there in the step that pushed it on the stack and
    only the top entry receives children.  The model keeps each open head
    once, innermost first, and writes it into its parent when it leaves the
    stack.  [Emptied] is the array after splice removed every entry. *)
Inductive structure_stack : Type :=
| Emptied
| Entries (root_children : list element) (heads : list (DV6Line * list element)).

Definition stack_length (st : structure_stack) : nat :=
  match st with
  | Emptied => 0
  | Entries _ heads => S (length heads)
  end.

(** current_structure.children.push(e), with current_structure the top
    entry, undefined on the empty array. *)
Definition push_child (e : element) (st : structure_stack) : result structure_stack :=
  match st with
  | Emptied => Throw (TypeError (js "current_structure.children"))
  | Entries r [] => Ok (Entries (r ++ [e]) [])
  | Entries r ((l, ch) :: heads) => Ok (Entries r ((l, ch ++ [e]) :: heads))
  end.

(** The head is created, pushed to the top entry's children and then
    pushed on the stack. *)
Definition push_head (l : DV6Line) (st : structure_stack) : result structure_stack :=
  match st with
  | Emptied => Throw (TypeError (js "current_structure.children"))
  | Entries r heads => Ok (Entries r ((super l, []) :: heads))
  end.

(** Removing the last entry. *)
Definition pop (st : structure_stack) : structure_stack :=
  match st with
  | Emptied => Emptied
  | Entries r [] => Emptied
  | Entries r [(l, ch)] => Entries (r ++ [HeadLine l ch]) []
  | Entries r ((l, ch) :: (l', ch') :: heads) =>
    Entries r ((l', ch' ++ [HeadLine l ch]) :: heads)
  end.

(** Array.prototype.splice(start, deleteCount) for a removal that reaches
    the end of the array, as splice(indent_diff, -indent_diff) is with a
    negative indent_diff. *)
Definition splice (st : structure_stack) (start deleteCount : Z) : structure_stack :=
  let len := stack_length st in
  let actual_start := relative_index len start in
  let actual_delete_count :=
    Nat.min (Z.to_nat (Z.max deleteCount 0)) (len - actual_start) in
  Nat.iter actual_delete_count pop st.

Fixpoint flat_to_structured_loop (lines : list DV6Line) (st : structure_stack)
  : result structure_stack :=
  match lines with
  | [] => Ok st
  | line :: rest =>
    match rest with
    | next_line :: _ =>
      let indent_diff := (Z.of_nat (indent next_line) - Z.of_nat (indent line))%Z in
      if (indent_diff >? 0)%Z then
        try st1 <- push_head line st ;;
        flat_to_structured_loop rest st1
      else if (indent_diff <? 0)%Z then
        try st1 <- push_child (Line line) st ;;
        flat_to_structured_loop rest (splice st1 indent_diff (- indent_diff))
      else
        try st1 <- push_child (Line line) st ;;
        flat_to_structured_loop rest st1
    | [] =>
      try st1 <- push_child (Line line) st ;;
      flat_to_structured_loop rest st1
    end
  end.

(** structure_stack[0]: the root with every open head in its place;
    undefined on the empty array. *)
Definition bottom (st : structure_stack) : option root :=
  match Nat.iter (stack_length st - 1) pop st with
  | Entries r _ => Some (Root r)
  | Emptied => None
  end.

Definition flat_to_structured_lines (lines : list DV6Line) : result (option root) :=
  try st <- flat_to_structured_loop lines (Entries [] []) ;;
  Ok (bottom st).

End Tree.

(* ================================================================= *)
(** ** Document nodes *)

Module Nodes.
Import Js.

(** The two source files build the same tree in two encodings: instances of
    class DV6Element in one, object literals in the layout of the xml
    package in the other.  The parser is written once over the operations
    in which they differ. *)
Record Builder : Type := {
  node : Type;
  (** a node holding one string: yomi, pos, dir, flag, date, ... *)
  text_node : string -> jsstring -> node;
  (** spell and pron: a lang attribute and one string *)
  lang_node : string -> jsstring -> jsstring -> node;
  (** the author under construction, its push and its final form *)
  author_new : jsstring -> node;
  author_push : node -> node -> node;
  author_done : node -> node;
  (** what parse_properties, parse_contents and parse_word return *)
  properties_node : list node -> node;
  contents_node : list node -> node;
  word_node : jsstring -> node -> node -> node
}.

(** class DV6Element; a child is an element or a string. *)
#[warnings="-register-all"]
Inductive DV6Element : Type :=
| Element (name : jsstring) (properties : list (jsstring * jsstring))
    (children : list DV6Element)
| Text (s : jsstring).

(** The three argument shapes the constructor is called with. *)
Inductive arguments : Type :=
| Children (arg1 : list DV6Element)                  (* (name, [...]) *)
| Properties (arg1 : list (jsstring * jsstring))     (* (name, {...}) *)
| Both (arg1 : list (jsstring * jsstring)) (arg2 : list DV6Element).

(** constructor(name, arg1, arg2): an array [arg2] is truthy; without it,
    [arg1] is the children if it is an array and the properties if not. *)
Definition new_DV6Element (name : string) (args : arguments) : DV6Element :=
  match args with
  | Both arg1 arg2 => Element (js name) arg1 arg2
  | Children arg1 => Element (js name) [] arg1
  | Properties arg1 => Element (js name) arg1 []
  end.

(** element.children.push(child) *)
Definition children_push (e child : DV6Element) : DV6Element :=
  match e with
  | Element name properties children => Element name properties (children ++ [child])
  | Text s => Text s
  end.

Definition Elements : Builder := {|
  node := DV6Element;
  text_node name value := new_DV6Element name (Children [Text value]);
  lang_node name lang text :=
    new_DV6Element name (Both [(js "lang", lang)] [Text text]);
  author_new operation :=
    new_DV6Element "author" (Properties [(js "operation", operation)]);
  author_push := children_push;
  author_done author := author;
  properties_node properties := new_DV6Element "properties" (Children properties);
  contents_node contents := new_DV6Element "contents" (Children contents);
  word_node name properties contents :=
    new_DV6Element "word"
      (Children [new_DV6Element "name" (Children [Text name]); properties; contents])
|}.

(** Object literals: {yomi: value}, {spell: [{_attr: {lang}}, text]}, ... *)
#[warnings="-register-all"]
Inductive xml : Type :=
| XString (s : jsstring)
| XArray (items : list xml)
| XObject (fields : list (jsstring * xml)).

Definition array_push (a x : xml) : xml :=
  match a with
  | XArray items => XArray (items ++ [x])
  | _ => a
  end.

Definition Literals : Builder := {|
  node := xml;
  text_node name value := XObject [(js name, XString value)];
  lang_node name lang text :=
    XObject [(js name,
              XArray [XObject [(js "_attr", XObject [(js "lang", XString lang)])];
                      XString text])];
  author_new operation :=
    XArray [XObject [(js "_attr", XObject [(js "operation", XString operation)])]];
  author_push := array_push;
  author_done author := XObject [(js "author", author)];
  properties_node properties := XArray properties;
  contents_node contents := XArray contents;
  word_node name properties contents :=
    XObject [(js "word",
              XObject [(js "name", XString name); (js "properties", properties);
                       (js "contents", contents)])]
|}.

End Nodes.

(* ================================================================= *)
(** ** The parser methods *)

Module Parser.
Import Js Regex Effects Patterns Lines Tree Nodes.

Section Methods.

Variable B : Builder.

Definition known_flags : list jsstring :=
  [js "SPL"; js "JOKE"; js "MEDICAL"; js "PHARM"; js "MISS"; js "DQN"].

(** case 'spell' and case 'pron' *)
Definition parse_lang (name : string) (message : string) (l : DV6Line)
    (value : jsstring) (properties : list (node B)) : M (list (node B)) :=
  match str_match value lang_re with
  | Some lang_result =>
    ret (properties ++ [lang_node B name (sub lang_result 1) (sub lang_result 2)])
  | None =>
    push_error (error l (js message)) ;;
    ret properties
  end.

(** case 'flag' *)
Definition parse_flag (l : DV6Line) (value : jsstring)
    (properties : list (node B)) : M (list (node B)) :=
  for_of (split value comma_re)
    (fun flag properties =>
       let properties := properties ++ [text_node B "flag" flag] in
       (if includes known_flags flag
        then push_warning
               (error l (js "未知のフラグ[" ++ flag ++ js "]があります"))
        else ret tt) ;;
       ret properties)
    properties.

(** case 'author' *)
Definition parse_author (l : DV6Line) (value : jsstring)
    (properties : list (node B)) : M (list (node B)) :=
  let author_info := split value comma_re in
  if (length author_info <=? 4)%nat then
    let operation := nth_error author_info 0 in
    let dates_str := nth_error author_info 1 in
    let names_str := nth_error author_info 2 in
    let sources_str := nth_error author_info 3 in
    match operation with
    | Some operation =>
      if negb (includes [js "A"; js "R"; js "I"] operation) then
        push_error (error l (js "authorの処理内容はA,R,Iのみです")) ;;
        ret properties
      else
        dates_str <- lift (access dates_str "dates_str.split") ;;
        let dates := split dates_str semicolon_re in
        names_str <- lift (access names_str "names_str.split") ;;
        let names := split names_str semicolon_re in
        let sources :=
          match sources_str with
          | Some (x :: s) => split (x :: s) semicolon_re
          | _ => []
          end in
        let author := author_new B operation in
        author <-
          for_of dates
            (fun date author =>
               if test author_date_re date then
                 ret (author_push B author (text_node B "date" date))
               else
                 push_error
                   (error l (js "日付書式が間違っています[" ++ date ++ js "]")) ;;
                 throw (ThrownNumber 1))
            author ;;
        author <-
          for_of names
            (fun name author => ret (author_push B author (text_node B "name" name)))
            author ;;
        author <-
          for_of sources
            (fun source author =>
               ret (author_push B author (text_node B "source" source)))
            author ;;
        ret (properties ++ [author_done B author])
    | None =>
      push_error (error l (js "authorの処理内容はA,R,Iのみです")) ;;
      ret properties
    end
  else
    push_error (error l (js "authorプロパティの書式が正しくありません")) ;;
    ret properties.

(** case 'valid' and case 'expire': the tested identifier is [date]; the
    only declaration of that name is the loop variable of case 'author',
    whose scope is its own for statement. *)
Definition parse_date (name : string) (pattern : regex) (l : DV6Line)
    (value : jsstring) (properties : list (node B)) : M (list (node B)) :=
  date <- lift (unresolvable "date") ;;
  if test pattern date then
    ret (properties ++ [text_node B name value])
  else
    push_error (error l (js "日付書式が間違っています[" ++ date ++ js "]")) ;;
    ret properties.

(** The body of the for loop of parse_properties. *)
Definition parse_property (element : element) (properties : list (node B))
  : M (list (node B)) :=
  match element with
  | HeadLine l _ =>
    push_error (error l (js "プロパティがインデントを持っています")) ;;
    ret properties
  | Line l =>
    match str_match (content l) property_re with
    | Some result =>
      let name := sub result 1 in
      let value := sub result 2 in
      if jseqb name (js "yomi") then
        ret (properties ++ [text_node B "yomi" value])
      else if jseqb name (js "qyomi") then
        ret (properties ++ [text_node B "qyomi" value])
      else if jseqb name (js "spell") then
        parse_lang "spell" "spellプロパティの書式が正しくありません" l value properties
      else if jseqb name (js "pron") then
        parse_lang "pron" "pronプロパティの書式が正しくありません" l value properties
      else if jseqb name (js "pos") then
        for_of (split value comma_re)
          (fun pos properties => ret (properties ++ [text_node B "pos" pos]))
          properties
      else if jseqb name (js "dir") then
        if startsWith value (js "/") && negb (endsWith value (js "/")) then
          ret (properties ++ [text_node B "dir" value])
        else
          push_error
            (error l (js "dirプロパティは/で始まり/でない文字で終わるべきです")) ;;
          ret properties
      else if jseqb name (js "flag") then
        parse_flag l value properties
      else if jseqb name (js "author") then
        parse_author l value properties
      else if jseqb name (js "valid") then
        parse_date "valid" valid_re l value properties
      else if jseqb name (js "expire") then
        parse_date "expire" expire_re l value properties
      else
        push_warning (error l (js "未知のプロパティ指定があります")) ;;
        ret properties
    | None =>
      push_error (error l (js "プロパティの書式が正しくありません")) ;;
      ret properties
    end
  end.

(** The [properties] array when the loop ends. *)
Definition parse_properties_loop (elements : list element) : M (list (node B)) :=
  for_of elements parse_property [].

Definition parse_properties (elements : list element) : M (node B) :=
  properties <- parse_properties_loop elements ;;
  ret (properties_node B properties).

(** Nothing is pushed to [contents]: the branch of a matching line is empty. *)
Definition parse_contents (elements : list element) : M (node B) :=
  contents <-
    for_of elements
      (fun element (contents : list (node B)) =>
         match str_match (content (line_of element)) content_re with
         | Some result => ret contents
         | None =>
           push_error
             (error (line_of element) (js "内容は(記号)(空白)(内容)であるべきです")) ;;
           ret contents
         end)
      [] ;;
  ret (contents_node B contents).

(** An empty body: the call returns undefined. *)
Definition parse_extended (elements : list element) : M unit := ret tt.

(** The two indices of parse_top_children, after the -1 replacements. *)
Definition contents_begin_index (children : list element) : Z :=
  let i := findIndex (fun element => negb (is_property (line_of element))) children in
  if (i =? -1)%Z then Z.of_nat (length children) else i.

Definition extended_begin_index (children : list element) : Z :=
  let i := findIndex (fun element => is_extended (line_of element)) children in
  if (i =? -1)%Z then Z.of_nat (length children) else i.

Definition parse_top_children (children : list element)
  : M (node B * node B * unit) :=
  let contents_begin_index := contents_begin_index children in
  let extended_begin_index := extended_begin_index children in
  properties <- parse_properties (slice children 0 contents_begin_index) ;;
  contents <-
    parse_contents (slice children contents_begin_index extended_begin_index) ;;
  extended <- parse_extended (slice_from children extended_begin_index) ;;
  ret (properties, contents, extended).

Definition parse_children (children : list element) : M (node B * node B) :=
  let contents_begin_index := contents_begin_index children in
  properties <- parse_properties (slice children 0 contents_begin_index) ;;
  contents <- parse_contents (slice_from children contents_begin_index) ;;
  ret (properties, contents).

(** parse_word(structure), with structure a DV6HeadLine. *)
Definition parse_word (l : DV6Line) (children : list element) : M (node B) :=
  name_result <-
    lift (access (str_match (content l) word_name_re) "structure.content.match(...)[1]") ;;
  let name := sub name_result 1 in
  pce <- parse_top_children children ;;
  let '(properties, contents, extended) := pce in
  ret (word_node B name properties contents).

(** The callback of map returns a word or undefined; filter keeps the
    words, which are objects. *)
Definition parse_toplevel_element (element : element) : M (option (node B)) :=
  if is_word (line_of element) then
    match element with
    | HeadLine l children =>
      word <- parse_word l children ;;
      ret (Some word)
    | Line l =>
      push_error (error l (js "単語の内容がありません")) ;;
      ret None
    end
  else ret None.

Definition filter_defined {A} (xs : list (option A)) : list A :=
  flat_map (fun x => match x with Some a => [a] | None => [] end) xs.

Definition parse_toplevel (structure : option root) : M (list (node B)) :=
  structure <- lift (access structure "structure.children") ;;
  mapped <- map_m parse_toplevel_element (root_children structure) ;;
  ret (filter_defined mapped).

(** parse(): the value returned is what [this._result] is set to; a throw
    leaves it unset. *)
Definition parse (dv6 : jsstring) : M (list (node B)) :=
  lines <- lift (dv6_to_lines dv6) ;;
  structured_lines <- lift (flat_to_structured_lines lines) ;;
  parse_toplevel structured_lines.

End Methods.

(** new DV6Parser(dv6) *)
Definition new_DV6Parser : DV6Parser := mkParser [] [].

End Parser.

(* ================================================================= *)
(** ** Vocabulary of the statements *)

Module Shapes.
Import Js Lines Tree Nodes.

(** The headers that parse_toplevel hands to parse_word: the children of
    the root that are heads and begin with #. *)
Definition word_heads (children : list element) : list DV6Line :=
  flat_map
    (fun element =>
       match element with
       | HeadLine l _ => if is_word l then [l] else []
       | Line _ => []
       end)
    children.

Definition named (n : string) (e : DV6Element) : bool :=
  match e with
  | Element name _ _ => jseqb name (js n)
  | Text _ => false
  end.

Definition children_of (e : DV6Element) : list DV6Element :=
  match e with
  | Element _ _ children => children
  | Text _ => []
  end.

Definition children_named (n : string) (e : DV6Element) : list DV6Element :=
  filter (named n) (children_of e).

(** The leading tabs of a physical line, and the DV6Line that holds the
    line as it stands: its tabs counted, all the rest as content. *)
Fixpoint leading_tabs (s : jsstring) : nat :=
  match s with
  | x :: s' => if (Regex.tab =? x)%N then S (leading_tabs s') else 0
  | [] => 0
  end.

Definition physical_line (line_index : nat) (raw_line : jsstring) : DV6Line :=
  new_DV6Line line_index (leading_tabs raw_line)
    (skipn (leading_tabs raw_line) raw_line).

Fixpoint physical_lines (line_index : nat) (raw_lines : list jsstring)
  : list DV6Line :=
  match raw_lines with
  | [] => []
  | raw_line :: raw_lines' =>
    physical_line line_index raw_line :: physical_lines (S line_index) raw_lines'
  end.

End Shapes.

(* ================================================================= *)
(** ** Serialization *)

Module Serialization.
Import Js Nodes.

(** DV6Element.to_xml_object(): one key, the name, holding the converted
    children followed by the object {_attr: properties}; a string child is
    kept as it is. *)
Fixpoint to_xml_object (e : DV6Element) : xml :=
  match e with
  | Element name properties children =>
    XObject
      [(name,
        XArray
          (map to_xml_object children
           ++ [XObject
                 [(js "_attr",
                   XObject (map (fun kv => (fst kv, XString (snd kv))) properties))]]))]
  | Text s => XString s
  end.

End Serialization.

(* ================================================================= *)
(** ** Reference functions of the further statements *)

Module Reference.
Import Js Regex Effects Lines Tree Nodes.

(** Putting a code unit, or a segment, in front of the first piece. *)
Definition glue (pre : jsstring) (pieces : list jsstring) : list jsstring :=
  match pieces with
  | h :: t => (pre ++ h) :: t
  | [] => [pre]
  end.

(** The pieces of a string between the occurrences of one code unit. *)
Fixpoint split_on (c : N) (s : jsstring) : list jsstring :=
  match s with
  | [] => [[]]
  | x :: s' =>
    if (c =? x)%N then [] :: split_on c s' else glue [x] (split_on c s')
  end.

(** The pieces of a string between its line breaks, LF or CR LF. *)
Fixpoint split_breaks (s : jsstring) : list jsstring :=
  match s with
  | [] => [[]]
  | x :: s' =>
    if (lf =? x)%N then [] :: split_breaks s'
    else
      match s' with
      | y :: s'' =>
        if (cr =? x)%N && (lf =? y)%N then [] :: split_breaks s''
        else glue [x] (split_breaks s')
      | [] => [[x]]
      end
  end.

(** A line written back: its tabs, then its content. *)
Definition render (l : DV6Line) : jsstring := repeat tab (indent l) ++ content l.

(** No indent is more than one above the indent before it. *)
Fixpoint no_jump_from (previous : nat) (indents : list nat) : bool :=
  match indents with
  | [] => true
  | i :: indents' => (i <=? S previous)%nat && no_jump_from i indents'
  end.

Definition no_jump (indents : list nat) : bool :=
  match indents with
  | [] => true
  | i :: indents' => no_jump_from i indents'
  end.

(** The lines of a tree, parents before children, children in order. *)
Fixpoint flatten (e : element) : list DV6Line :=
  match e with
  | Line l => [l]
  | HeadLine l children => l :: flat_map flatten children
  end.

(** Every child of a head lies one level below it. *)
Fixpoint nested (e : element) : Prop :=
  match e with
  | Line _ => True
  | HeadLine l children =>
    (fix all (es : list element) : Prop :=
       match es with
       | [] => True
       | c :: es' => indent (line_of c) = S (indent l) /\ nested c /\ all es'
       end) children
  end.

(** [this'] holds the diagnostics of [this] and, after them, possibly more. *)
Definition extends (this this' : DV6Parser) : Prop :=
  (exists e, errors this' = errors this ++ e)
  /\ (exists w, warnings this' = warnings this ++ w).

(** The indent before a line: none before the first. *)
Definition no_jump_after (previous : option nat) (indents : list nat) : bool :=
  match previous with
  | Some p => no_jump_from p indents
  | None => no_jump indents
  end.

(** The lines held by the open heads, outermost first, and by the whole
    stack. *)
Fixpoint heads_flat (heads : list (DV6Line * list element)) : list DV6Line :=
  match heads with
  | [] => []
  | (l, ch) :: below => heads_flat below ++ l :: flat_map flatten ch
  end.

Definition stack_flat (st : structure_stack) : list DV6Line :=
  match st with
  | Emptied => []
  | Entries r heads => flat_map flatten r ++ heads_flat heads
  end.

Definition open (st : structure_stack) : Prop := st <> Emptied.

Definition depth (st : structure_stack) : nat := stack_length st - 1.

(** Children at level [d], each nested. *)
Definition children_ok (d : nat) (ch : list element) : Prop :=
  Forall (fun c => indent (line_of c) = d /\ nested c) ch.

(** Open heads, innermost first, at consecutive levels from [i0] up. *)
Fixpoint heads_ok (i0 : nat) (heads : list (DV6Line * list element)) : Prop :=
  match heads with
  | [] => True
  | (l, ch) :: below =>
    indent l = i0 + length below /\ children_ok (S (indent l)) ch /\ heads_ok i0 below
  end.

Definition stack_ok (i0 : nat) (st : structure_stack) : Prop :=
  match st with
  | Emptied => False
  | Entries r heads => children_ok i0 r /\ heads_ok i0 heads
  end.

(** Every run of the method leaves the diagnostics it found in place. *)
Definition grows {A} (x : M A) : Prop :=
  forall this r this', x this = (r, this') -> extends this this'.

(** Every exception the method throws is one of [allowed]. *)
Definition throws_only {A} (allowed : list exception) (x : M A) : Prop :=
  forall this e this', x this = (Throw e, this') -> In e allowed.

(** The case labels of the switch of parse_properties. *)
Definition property_names : list jsstring :=
  [js "yomi"; js "qyomi"; js "spell"; js "pron"; js "pos"; js "dir"; js "flag";
   js "author"; js "valid"; js "expire"].

(** [sources_str ? sources_str.split(/;/) : []], on the fields after the
    third. *)
Definition author_sources (more : list jsstring) : list jsstring :=
  match more with
  | (x :: s) :: _ => split_on 59 (x :: s)
  | _ => []
  end.

(** The author node with its children pushed one by one. *)
Definition author_node (B : Builder) (operation : jsstring)
    (dates names sources : list jsstring) : node B :=
  author_done B
    (fold_left (author_push B)
       (map (text_node B "date") dates ++ map (text_node B "name") names
        ++ map (text_node B "source") sources)
       (author_new B operation)).

(** The exceptions of each method. *)
Definition author_exceptions : list exception :=
  [TypeError (js "dates_str.split"); TypeError (js "names_str.split");
   ThrownNumber 1].

Definition property_exceptions : list exception :=
  ReferenceError (js "date") :: author_exceptions.

Definition word_exceptions : list exception :=
  TypeError (js "structure.content.match(...)[1]") :: property_exceptions.

Definition parse_exceptions : list exception :=
  ReferenceError (js "erros") :: TypeError (js "current_structure.children")
  :: word_exceptions.

End Reference.

Unset Implicit Arguments.

(* ================================================================= *)
(** ** Facts about the matcher *)

Module RegexFacts.
Import Js Regex Patterns.

Section Equations.
Context {A : Type} (k : continuation A).

Lemma m_seq r1 r2 pos rest c : m (r1 >> r2) k pos rest c = m r1 (m r2 k) pos rest c.
Proof. reflexivity. Qed.

Lemma m_group i r pos rest c :
  m (Group i r) k pos rest c
  = m r (fun pos' rest' c' =>
           k pos' rest' (set_capture i (firstn (length rest - length rest') rest) c'))
      pos rest c.
Proof. reflexivity. Qed.

Lemma m_start rest c : m AssertStart k 0 rest c = k 0 rest c.
Proof. reflexivity. Qed.

Lemma m_end_nil pos c : m AssertEnd k pos [] c = k pos [] c.
Proof. reflexivity. Qed.

Lemma m_char_cons p pos x rest c :
  m (Char p) k pos (x :: rest) c = if p x then k (S pos) rest c else None.
Proof. reflexivity. Qed.

Lemma m_char_true p pos x rest c :
  p x = true -> m (Char p) k pos (x :: rest) c = k (S pos) rest c.
Proof. intro H. rewrite m_char_cons, H. reflexivity. Qed.

Lemma m_char_false p pos x rest c :
  p x = false -> m (Char p) k pos (x :: rest) c = None.
Proof. intro H. rewrite m_char_cons, H. reflexivity. Qed.

(** A starred class: the counter follows the input one code unit at a time. *)
Lemma m_star_char_nil g p pos c :
  m (Star g (Char p)) k pos [] c = k pos [] c.
Proof.
  cbn. destruct g; [reflexivity | destruct (k pos [] c); reflexivity].
Qed.

Lemma m_star_char_cons g p pos x rest c :
  m (Star g (Char p)) k pos (x :: rest) c =
  let again := if p x then m (Star g (Char p)) k (S pos) rest c else None in
  if g then match again with Some a => Some a | None => k pos (x :: rest) c end
  else match k pos (x :: rest) c with Some a => Some a | None => again end.
Proof.
  cbn -[Nat.ltb].
  assert (H : (length rest <? S (length rest))%nat = true)
    by (apply Nat.ltb_lt; lia).
  rewrite H. reflexivity.
Qed.

Lemma m_star_true p pos x rest c :
  p x = true ->
  m (Star true (Char p)) k pos (x :: rest) c
  = match m (Star true (Char p)) k (S pos) rest c with
    | Some a => Some a
    | None => k pos (x :: rest) c
    end.
Proof. intro H. rewrite m_star_char_cons. cbv zeta. rewrite H. reflexivity. Qed.

Lemma m_star_false g p pos x rest c :
  p x = false -> m (Star g (Char p)) k pos (x :: rest) c = k pos (x :: rest) c.
Proof.
  intro H. rewrite m_star_char_cons. cbv zeta. rewrite H.
  destruct g; [reflexivity | destruct (k pos (x :: rest) c); reflexivity].
Qed.

(** A greedy starred class takes the whole input when every code unit is
    in the class and the continuation accepts the end. *)
Lemma m_star_greedy_all p v :
  forall pos c a, forallb p v = true -> k (pos + length v) [] c = Some a ->
  m (Star true (Char p)) k pos v c = Some a.
Proof.
  induction v as [|x v IH]; intros pos c a Hp Hk.
  - rewrite m_star_char_nil. rewrite Nat.add_0_r in Hk. exact Hk.
  - cbn [forallb] in Hp. apply andb_prop in Hp as [Hx Hv].
    rewrite m_star_true by exact Hx.
    rewrite (IH (S pos) c a Hv); [reflexivity|].
    cbn [length] in Hk. rewrite <- Nat.add_succ_comm in Hk. exact Hk.
Qed.

End Equations.

(** *** A pattern that begins with ^ matches at offset 0 or nowhere *)

Lemma match_here_start_fail r pos rest :
  match_here (AssertStart >> r) (S pos) rest = None.
Proof. reflexivity. Qed.

Lemma exec_from_start_fail r rest : forall pos,
  exec_from (AssertStart >> r) (S pos) rest = None.
Proof.
  induction rest as [|x rest IH]; intro pos; cbn [exec_from];
    rewrite match_here_start_fail; [reflexivity | apply IH].
Qed.

Lemma exec_start r s :
  exec (AssertStart >> r) s = match_here (AssertStart >> r) 0 s.
Proof.
  unfold exec. destruct s as [|x s]; cbn [exec_from];
    destruct (match_here (AssertStart >> r) 0 _); try reflexivity.
  apply exec_from_start_fail.
Qed.

(** *** Captures *)

Lemma get_set_capture i j s c :
  get_capture i (set_capture j s c)
  = if (j =? i)%nat then Some s else get_capture i c.
Proof.
  unfold set_capture. cbn [get_capture].
  destruct (j =? i)%nat eqn:E; [reflexivity|].
  induction c as [|[j' s'] c IH]; [reflexivity|].
  cbn [filter fst get_capture].
  destruct (j' =? j)%nat eqn:E'; cbn [negb get_capture].
  - apply Nat.eqb_eq in E'. subst j'. rewrite E. exact IH.
  - destruct (j' =? i)%nat; [reflexivity | exact IH].
Qed.

Lemma firstn_prefix {A} (p s : list A) :
  firstn (length (p ++ s) - length s) (p ++ s) = p.
Proof.
  rewrite length_app, Nat.add_sub.
  rewrite firstn_app, Nat.sub_diag, firstn_all. cbn. apply app_nil_r.
Qed.

Lemma firstn_whole {A} (s : list A) : firstn (length s - length (@nil A)) s = s.
Proof. cbn. rewrite Nat.sub_0_r. apply firstn_all. Qed.

(** *** What a success of the matcher is a success of

    Every success of [m r k] is a success of [k], on captures to which [r]
    only added.  [P] is a property of the result, [Q] one of the captures
    that setting a capture preserves. *)

Section Invariant.
Context {A : Type} (P : A -> Prop) (Q : captures -> Prop).
Hypothesis Q_set : forall j s c, Q c -> Q (set_capture j s c).

Lemma star_loop_invariant g (body : matcher A) k :
  (forall k', post P Q k' -> post P Q (body k')) -> post P Q k ->
  forall fuel, post P Q (star_loop g body k fuel).
Proof.
  intros Hbody Hk fuel.
  induction fuel as [|fuel IH]; intros pos rest c a Hc H; cbn [star_loop] in H.
  - destruct g; [exact (Hk _ _ _ _ Hc H)|].
    destruct (k pos rest c) eqn:E; [|discriminate].
    inversion H; subst. eapply Hk; eassumption.
  - set (k' := fun pos' rest' c' =>
                 if (length rest' <? length rest)%nat
                 then star_loop g body k fuel pos' rest' c' else None) in H.
    assert (Hk' : post P Q k').
    { intros pos' rest' c' a' Hc' H'. unfold k' in H'.
      destruct (length rest' <? length rest)%nat; [|discriminate].
      eapply IH; eassumption. }
    destruct g.
    + destruct (body k' pos rest c) eqn:E.
      * inversion H; subst. eapply (Hbody _ Hk'); eassumption.
      * eapply Hk; eassumption.
    + destruct (k pos rest c) eqn:E.
      * inversion H; subst. eapply Hk; eassumption.
      * eapply (Hbody _ Hk'); eassumption.
Qed.

Lemma m_invariant r : forall k, post P Q k -> post P Q (m r k).
Proof.
  induction r as [|p|r1 IH1 r2 IH2|r1 IH1 r2 IH2|g r IH|i r IH| |];
    intros k Hk pos rest c a Hc H; cbn [m] in H.
  - eauto.
  - destruct rest as [|x rest]; [discriminate|].
    destruct (p x); [eauto | discriminate].
  - eapply IH1; [apply IH2; eassumption | eassumption | eassumption].
  - destruct (m r1 k pos rest c) eqn:E.
    + inversion H; subst. eapply IH1; eassumption.
    + eapply IH2; eassumption.
  - eapply star_loop_invariant; eassumption.
  - eapply IH; [|eassumption|eassumption].
    intros pos' rest' c' a' Hc' H'. eapply Hk; [|eassumption]. apply Q_set, Hc'.
  - destruct (pos =? 0)%nat; [eauto | discriminate].
  - destruct rest; [eauto | discriminate].
Qed.

End Invariant.

(** *** Parentheses that every match defines *)

Lemma defined_set i j s c : defined i c -> defined i (set_capture j s c).
Proof.
  unfold defined. rewrite get_set_capture.
  destruct (j =? i)%nat; [discriminate | auto].
Qed.

Lemma m_defines {A} (P : A -> Prop) i r :
  defines i r = true ->
  forall k : continuation A, post P (defined i) k -> post P (fun _ => True) (m r k).
Proof.
  induction r as [|p|r1 IH1 r2 IH2|r1 IH1 r2 IH2|g r IH|j r IH| |];
    cbn [defines]; intros D k Hk; try discriminate.
  - intros pos rest c a _ H. cbn [m] in H.
    destruct (defines i r1).
    + eapply (IH1 eq_refl); [|exact I|exact H].
      apply m_invariant; [apply defined_set | exact Hk].
    + eapply (@m_invariant _ P (fun _ => True)); [auto| |exact I|exact H].
      apply IH2; assumption.
  - intros pos rest c a _ H. cbn [m] in H.
    destruct (j =? i)%nat eqn:E.
    + eapply (@m_invariant _ P (fun _ => True)); [auto| |exact I|exact H].
      intros pos' rest' c' a' _ H'. eapply Hk; [|exact H'].
      unfold defined. rewrite get_set_capture, E. discriminate.
    + eapply (IH D); [|exact I|exact H].
      intros pos' rest' c' a' Hc' H'. eapply Hk; [|exact H'].
      apply defined_set, Hc'.
Qed.

Lemma exec_from_defines i r :
  defines i r = true ->
  forall rest pos res, exec_from r pos rest = Some res -> group i res <> None.
Proof.
  intros D rest. induction rest as [|x rest IH]; intros pos res H;
    cbn [exec_from] in H; destruct (match_here r pos _) eqn:E;
    try discriminate; try (eapply IH; eassumption);
    inversion H; subst; unfold match_here in E;
    (eapply (@m_defines _ (fun res => group i res <> None) i r D); [|exact I|exact E]);
    intros pos' rest' c' a' Hc' H'; inversion H'; subst; exact Hc'.
Qed.

(** [sub] returns the text of the parenthesis, not its default. *)
Theorem sub_defined i r s res :
  defines i r = true -> exec r s = Some res -> group i res = Some (sub res i).
Proof.
  intros D H. apply (exec_from_defines i r D) in H.
  unfold sub. destruct (group i res); [reflexivity | contradiction].
Qed.

(** *** The counter of a starred pattern never runs out *)

Section Fuel.
Context {A : Type}.

Lemma star_loop_local g (body : matcher A) :
  local body ->
  forall fuel k1 k2 pos rest c,
    (forall pos' rest' c', length rest' <= length rest ->
                           k1 pos' rest' c' = k2 pos' rest' c') ->
    star_loop g body k1 fuel pos rest c = star_loop g body k2 fuel pos rest c.
Proof.
  intros Hbody fuel. induction fuel as [|fuel IH]; intros k1 k2 pos rest c Hk;
    cbn [star_loop]; rewrite (Hk pos rest c (le_n _)); [reflexivity|].
  rewrite (Hbody _ (fun pos' rest' c' =>
                      if length rest' <? length rest
                      then star_loop g body k2 fuel pos' rest' c' else None)).
  - reflexivity.
  - intros pos' rest' c' Hlen.
    destruct (length rest' <? length rest) eqn:E; [|reflexivity].
    apply IH. intros pos'' rest'' c'' Hlen'. apply Hk. lia.
Qed.

Lemma m_local (r : regex) : local (m (A := A) r).
Proof.
  induction r as [|p|r1 IH1 r2 IH2|r1 IH1 r2 IH2|g r IH|i r IH| |];
    intros k1 k2 pos rest c Hk; cbn [m].
  - apply Hk. lia.
  - destruct rest as [|x rest]; [reflexivity|].
    destruct (p x); [|reflexivity]. apply Hk. cbn [length]. lia.
  - apply IH1. intros pos' rest' c' Hlen. apply IH2.
    intros pos'' rest'' c'' Hlen'. apply Hk. lia.
  - rewrite (IH1 k1 k2 pos rest c Hk), (IH2 k1 k2 pos rest c Hk). reflexivity.
  - apply star_loop_local; assumption.
  - apply IH. intros pos' rest' c' Hlen. apply Hk. exact Hlen.
  - destruct (pos =? 0); [apply Hk; lia | reflexivity].
  - destruct rest; [apply Hk; lia | reflexivity].
Qed.

(** A matcher whose continuation always fails fails. *)
Lemma star_loop_fail g (body : matcher A) :
  local body ->
  (forall pos rest c, body (fun _ _ _ => None) pos rest c = None) ->
  forall fuel pos rest c, star_loop g body (fun _ _ _ => None) fuel pos rest c = None.
Proof.
  intros Hlocal Hbody fuel. induction fuel as [|fuel IH]; intros pos rest c;
    cbn [star_loop]; [destruct g; reflexivity|].
  rewrite (Hlocal _ (fun _ _ _ => None)).
  - rewrite Hbody. destruct g; reflexivity.
  - intros pos' rest' c' _. rewrite IH. destruct (_ <? _); reflexivity.
Qed.

Lemma m_fail (r : regex) pos rest c : m (A := A) r (fun _ _ _ => None) pos rest c = None.
Proof.
  revert pos rest c.
  induction r as [|p|r1 IH1 r2 IH2|r1 IH1 r2 IH2|g r IH|i r IH| |];
    intros pos rest c; cbn [m].
  - reflexivity.
  - destruct rest as [|x rest]; [reflexivity | destruct (p x); reflexivity].
  - rewrite (m_local r1 _ (fun _ _ _ => None)); [apply IH1|].
    intros pos' rest' c' _. apply IH2.
  - rewrite IH1. apply IH2.
  - apply star_loop_fail; [apply m_local | exact IH].
  - apply IH.
  - destruct (pos =? 0); reflexivity.
  - destruct rest; reflexivity.
Qed.

(** Any two counters that are at least the length of the input give the
    same result. *)
Lemma star_loop_fuel g (r : regex) (k : continuation A) :
  forall n fuel1 fuel2 pos rest c,
    length rest <= n -> length rest <= fuel1 -> length rest <= fuel2 ->
    star_loop g (m r) k fuel1 pos rest c = star_loop g (m r) k fuel2 pos rest c.
Proof.
  intro n. induction n as [|n IH]; intros fuel1 fuel2 pos rest c Hn H1 H2.
  - destruct rest; [|cbn [length] in Hn; lia].
    assert (E : forall fuel,
               star_loop g (m r) k fuel pos [] c = k pos [] c).
    { intros [|fuel]; cbn [star_loop].
      - destruct g; [reflexivity | destruct (k pos [] c); reflexivity].
      - rewrite (m_local r _ (fun _ _ _ => None)).
        + rewrite m_fail.
          destruct g; [reflexivity | destruct (k pos [] c); reflexivity].
        + intros pos' rest' c' _. cbn [length].
          destruct (length rest' <? 0) eqn:E; [|reflexivity].
          apply Nat.ltb_lt in E. lia. }
    rewrite !E. reflexivity.
  - destruct rest as [|x rest].
    + apply (IH fuel1 fuel2 pos [] c); cbn [length]; lia.
    + cbn [length] in *.
      destruct fuel1 as [|fuel1]; [lia|]. destruct fuel2 as [|fuel2]; [lia|].
      cbn [star_loop].
      rewrite (m_local r _ (fun pos' rest' c' =>
                 if length rest' <? length (x :: rest)
                 then star_loop g (m r) k fuel2 pos' rest' c' else None)).
      * reflexivity.
      * intros pos' rest' c' _.
        destruct (length rest' <? length (x :: rest)) eqn:E; [|reflexivity].
        apply Nat.ltb_lt in E. cbn [length] in E. apply IH; lia.
Qed.

(** The equation of RepeatMatcher: one more iteration of the body, if it
    consumes something, before or after the continuation is tried. *)
Theorem m_star_unfold g (r : regex) (k : continuation A) pos rest c :
  m (Star g r) k pos rest c
  = let again :=
      m r (fun pos' rest' c' =>
             if length rest' <? length rest
             then m (Star g r) k pos' rest' c' else None)
        pos rest c in
    if g then match again with Some a => Some a | None => k pos rest c end
    else match k pos rest c with Some a => Some a | None => again end.
Proof.
  cbv zeta. cbn [m].
  rewrite (star_loop_fuel g r k (S (length rest)) (length rest) (S (length rest)))
    by lia.
  cbn [star_loop].
  rewrite (m_local r _ (fun pos' rest' c' =>
             if length rest' <? length rest
             then star_loop g (m r) k (length rest') pos' rest' c' else None)).
  - reflexivity.
  - intros pos' rest' c' _.
    destruct (length rest' <? length rest) eqn:E; [|reflexivity].
    apply Nat.ltb_lt in E.
    apply (star_loop_fuel g r k (length rest)); lia.
Qed.

End Fuel.

(** *** The counter of split never runs out *)

Lemma split_loop_fuel r s :
  (forall q e, match_end_at r s q = Some e -> q < e) ->
  forall fuel1 fuel2 p q,
    length s - q < fuel1 -> length s - q < fuel2 ->
    split_loop r s fuel1 p q = split_loop r s fuel2 p q.
Proof.
  intros Hr fuel1. induction fuel1 as [|fuel1 IH]; intros fuel2 p q H1 H2; [lia|].
  destruct fuel2 as [|fuel2]; [lia|]. cbn [split_loop].
  destruct (length s <=? q) eqn:E; [reflexivity|].
  apply Nat.leb_gt in E.
  destruct (match_end_at r s q) as [e|] eqn:M.
  - apply Hr in M.
    destruct (e =? p); [apply IH; lia | f_equal; apply IH; lia].
  - apply IH; lia.
Qed.

End RegexFacts.

(* ================================================================= *)
(** ** Facts about the patterns of the sources *)

Module PatternFacts.
Import Js Regex Patterns Shapes RegexFacts.

(** The parentheses read through [sub] are defined by every match. *)
Lemma line_re_defines : defines 1 line_re = true /\ defines 2 line_re = true.
Proof. split; reflexivity. Qed.

Lemma property_re_defines :
  defines 1 property_re = true /\ defines 2 property_re = true.
Proof. split; reflexivity. Qed.

Lemma lang_re_defines : defines 1 lang_re = true /\ defines 2 lang_re = true.
Proof. split; reflexivity. Qed.

Lemma word_name_re_defines : defines 1 word_name_re = true.
Proof. reflexivity. Qed.

Section ClassStars.
Context {A : Type} (k : continuation A) (p : codeunit -> bool).

(** Before a continuation that only accepts the end of the input, a
    starred class, greedy or not, succeeds exactly on input that lies in
    the class throughout. *)
Lemma m_star_to_end g v :
  (forall pos x rest c, k pos (x :: rest) c = None) ->
  forall pos c,
  m (Star g (Char p)) k pos v c
  = if forallb p v then k (pos + length v) [] c else None.
Proof.
  intro Hk. induction v as [|x v IH]; intros pos c.
  - rewrite m_star_char_nil, Nat.add_0_r. reflexivity.
  - rewrite m_star_char_cons. cbv zeta. rewrite Hk, IH. cbn [forallb length].
    rewrite <- Nat.add_succ_comm.
    destruct g, (p x); cbn [andb]; try reflexivity;
      destruct (if forallb p v then _ else _); reflexivity.
Qed.

(** A greedy starred class runs to the first code unit outside the class,
    if the continuation accepts there. *)
Lemma m_star_greedy_until ws y rest :
  forallb p ws = true -> p y = false ->
  forall pos c a, k (pos + length ws) (y :: rest) c = Some a ->
  m (Star true (Char p)) k pos (ws ++ y :: rest) c = Some a.
Proof.
  intros Hws Hy. induction ws as [|x ws IH]; intros pos c a Hk.
  - cbn [app]. rewrite m_star_false by exact Hy.
    rewrite Nat.add_0_r in Hk. exact Hk.
  - cbn [forallb] in Hws. apply andb_prop in Hws as [Hx Hws].
    cbn [app]. rewrite m_star_true by exact Hx.
    rewrite (IH Hws (S pos) c a); [reflexivity|].
    cbn [length] in Hk. rewrite <- Nat.add_succ_comm in Hk. exact Hk.
Qed.

End ClassStars.

(** *** The separators of split consume input *)

Lemma lit_consumes a s q e : match_end_at (lit a) s q = Some e -> q < e.
Proof.
  unfold match_end_at, lit. cbn [m].
  destruct (skipn q s) as [|x t]; [discriminate|].
  destruct (_ =? x)%N; [|discriminate]. intro H. inversion H. lia.
Qed.

Lemma newline_re_consumes s q e : match_end_at newline_re s q = Some e -> q < e.
Proof.
  unfold match_end_at, newline_re, Opt. cbn [m].
  destruct (skipn q s) as [|x [|y t]].
  - discriminate.
  - destruct (cr =? x)%N; destruct (lf =? x)%N; try discriminate;
      intro H; inversion H; lia.
  - destruct (cr =? x)%N.
    + destruct (lf =? y)%N.
      * intro H. inversion H. lia.
      * destruct (lf =? x)%N; [|discriminate]. intro H. inversion H. lia.
    + destruct (lf =? x)%N; [|discriminate]. intro H. inversion H. lia.
Qed.

(** *** /^([A-Za-z]\w* ):(.* )$/ on a line name:value *)

Lemma property_re_line x ws v :
  alpha x = true -> forallb word_char ws = true -> forallb dot v = true ->
  exec property_re ((x :: ws) ++ js ":" ++ v)
  = Some (MatchResult 0 ((x :: ws) ++ js ":" ++ v) [(2, v); (1, x :: ws)]).
Proof.
  intros Hx Hws Hv. unfold property_re. rewrite exec_start. unfold match_here.
  change (js ":" ++ v) with (58 :: v)%N. cbn [app].
  rewrite m_seq, m_start, m_seq, m_group, m_seq.
  rewrite m_char_true by exact Hx.
  erewrite m_star_greedy_until; [ | exact Hws | reflexivity | ].
  2:{ cbv beta. rewrite m_seq. unfold lit. rewrite m_char_true by reflexivity.
      rewrite m_seq, m_group, m_star_to_end by reflexivity.
      rewrite Hv. cbv beta. rewrite m_end_nil. reflexivity. }
  do 2 f_equal.
  - apply firstn_whole.
  - rewrite firstn_whole. cbv [set_capture]. cbn [filter fst Nat.eqb negb].
    do 3 f_equal. exact (firstn_prefix (x :: ws) (58%N :: v)).
Qed.

(** *** /^#(.+?)$/ *)

Lemma word_name_re_exec s :
  exec word_name_re s
  = match s with
    | x :: y :: t =>
      if (35 =? x)%N && (dot y && forallb dot t)
      then Some (MatchResult 0 s [(1, y :: t)]) else None
    | _ => None
    end.
Proof.
  unfold word_name_re. rewrite exec_start. unfold match_here.
  rewrite m_seq, m_start, m_seq.
  destruct s as [|x [|y t]]; try reflexivity.
  - unfold lit. rewrite m_char_cons. destruct (_ =? x)%N; reflexivity.
  - unfold lit. rewrite m_char_cons.
    change (N_of_ascii "#") with 35%N.
    destruct (35 =? x)%N; [|reflexivity]. cbn [andb].
    rewrite m_seq, m_group. unfold Plus. rewrite m_seq, m_char_cons.
    destruct (dot y); [|reflexivity]. cbn [andb].
    rewrite m_star_to_end by reflexivity.
    destruct (forallb dot t); [|reflexivity].
    cbv beta. rewrite m_end_nil. rewrite !firstn_whole. reflexivity.
Qed.

Lemma word_name_re_match s res :
  exec word_name_re s = Some res -> s = js "#" ++ sub res 1 /\ sub res 1 <> [].
Proof.
  rewrite word_name_re_exec. destruct s as [|x [|y t]]; try discriminate.
  destruct (35 =? x)%N eqn:E; [|discriminate].
  destruct (dot y && forallb dot t); [|discriminate].
  cbn [andb]. intro H. inversion H; subst.
  apply N.eqb_eq in E. subst x. split; [reflexivity | discriminate].
Qed.

(** *** The getters of DV6Line *)

Lemma is_extended_re_test s : test is_extended_re s = startsWith s (js "//").
Proof.
  unfold test, is_extended_re. rewrite exec_start. unfold match_here.
  rewrite m_seq, m_start, m_seq. unfold lit.
  change (N_of_ascii "/") with 47%N. change (js "//") with [47; 47]%N.
  destruct s as [|x [|y t]]; cbn [startsWith].
  - reflexivity.
  - rewrite m_char_cons, (N.eqb_sym 47 x). destruct (x =? 47)%N; reflexivity.
  - rewrite m_char_cons, (N.eqb_sym 47 x). destruct (x =? 47)%N; [|reflexivity].
    rewrite m_char_cons, (N.eqb_sym 47 y). destruct (y =? 47)%N; reflexivity.
Qed.

(** A line that passes is_property begins with a letter or a digit. *)
Lemma is_property_re_first s :
  test is_property_re s = true -> exists x t, s = x :: t /\ alnum x = true.
Proof.
  unfold test, is_property_re. rewrite exec_start. unfold match_here.
  rewrite m_seq, m_start, m_seq. unfold Plus. rewrite m_seq.
  destruct s as [|x t]; [discriminate|].
  rewrite m_char_cons. destruct (alnum x) eqn:E; [|discriminate].
  intros _. exists x, t. split; [reflexivity | exact E].
Qed.

Lemma extended_not_property s :
  test is_extended_re s = true -> test is_property_re s = false.
Proof.
  rewrite is_extended_re_test. intro H.
  destruct (test is_property_re s) eqn:E; [|reflexivity].
  apply is_property_re_first in E as (x & t & -> & Hx).
  change (js "//") with [47; 47]%N in H. cbn [startsWith] in H.
  apply andb_prop in H as [H _]. apply N.eqb_eq in H. subst x. discriminate.
Qed.

(** *** The line pattern *)

(** One iteration of the body of group 2 consumes input whatever the next
    code unit is: a backslash alone is matched by the second alternative. *)
Lemma line_body_consumes {A} (k : continuation A) x r pos c a :
  (forall pos' rest', length rest' <= length r -> k pos' rest' c = Some a) ->
  m line_body k pos (x :: r) c = Some a.
Proof.
  intro H. unfold line_body, lit, Opt, not_backslash, backslash, cr, lf.
  change (N_of_ascii "\") with 92%N. cbn [m].
  destruct (92 =? x)%N; cbn [negb].
  - destruct r as [|y r]; [rewrite H by (cbn [length]; lia); reflexivity|].
    destruct (92 =? y)%N; [rewrite H by (cbn [length]; lia); reflexivity|].
    destruct (13 =? y)%N.
    + destruct r as [|z r]; [rewrite H by (cbn [length]; lia); reflexivity|].
      destruct (10 =? z)%N; rewrite H by (cbn [length]; lia); reflexivity.
    + destruct (10 =? y)%N; rewrite H by (cbn [length]; lia); reflexivity.
  - rewrite H by (cbn [length]; lia). reflexivity.
Qed.

Lemma line_body_star {A} (k : continuation A) c a :
  (forall pos, k pos [] c = Some a) ->
  forall fuel rest pos, length rest <= fuel ->
  star_loop true (m line_body) k fuel pos rest c = Some a.
Proof.
  intros Hk fuel. induction fuel as [|fuel IH]; intros rest pos Hlen.
  - destruct rest; [|cbn [length] in Hlen; lia]. cbn [star_loop]. apply Hk.
  - destruct rest as [|x r].
    + cbn [star_loop]. cbn. apply Hk.
    + cbn [star_loop]. rewrite (line_body_consumes _ x r pos c a); [reflexivity|].
      intros pos' rest' Hr.
      replace (length rest' <? length (x :: r)) with true
        by (symmetry; apply Nat.ltb_lt; cbn [length]; lia).
      apply IH. cbn [length] in Hlen. lia.
Qed.

Lemma leading_tabs_split s :
  s = repeat tab (leading_tabs s) ++ skipn (leading_tabs s) s.
Proof.
  induction s as [|x s IH]; [reflexivity|]. cbn [leading_tabs].
  destruct (tab =? x)%N eqn:E; [|reflexivity].
  apply N.eqb_eq in E. subst x. cbn [repeat skipn app]. f_equal. exact IH.
Qed.

Lemma tabs_star {A} (k : continuation A) s a : forall pos c,
  k (pos + leading_tabs s) (skipn (leading_tabs s) s) c = Some a ->
  m (Star true (Char (N.eqb tab))) k pos s c = Some a.
Proof.
  induction s as [|x s IH]; intros pos c H; cbn [leading_tabs] in H.
  - rewrite m_star_char_nil. cbn [skipn] in H. rewrite Nat.add_0_r in H. exact H.
  - destruct (tab =? x)%N eqn:E.
    + rewrite m_star_true by exact E. rewrite (IH (S pos) c); [reflexivity|].
      cbn [skipn] in H. rewrite <- Nat.add_succ_comm in H. exact H.
    + rewrite m_star_false by exact E. cbn [skipn] in H.
      rewrite Nat.add_0_r in H. exact H.
Qed.

(** Every line matches, with its tabs in group 1 and all the rest, a
    trailing backslash included, in group 2; group 3 is never defined. *)
Theorem line_re_exec s :
  exec line_re s
  = Some (MatchResult 0 s
            [(2, skipn (leading_tabs s) s); (1, repeat tab (leading_tabs s))]).
Proof.
  unfold line_re. rewrite exec_start. unfold match_here.
  rewrite m_seq, m_start, m_seq, m_group.
  erewrite tabs_star; [reflexivity|]. cbv beta.
  rewrite m_seq, m_group. cbn [m].
  erewrite line_body_star; [reflexivity | | reflexivity].
  intro pos. cbv beta. unfold Opt, lit. cbn [m]. rewrite !firstn_whole.
  do 3 f_equal. cbv [set_capture]. cbn [filter fst Nat.eqb negb]. do 3 f_equal.
  pose proof (firstn_prefix (repeat tab (leading_tabs s))
                (skipn (leading_tabs s) s)) as F.
  rewrite <- leading_tabs_split in F. exact F.
Qed.

End PatternFacts.

(* ================================================================= *)
(** ** Facts about the line splitter *)

Module LineFacts.
Import Js Regex Effects Patterns Lines Shapes.
Import RegexFacts PatternFacts.

(** *** The splitter never continues a line *)

Lemma dv6_to_lines_step_plain i raw s :
  line_continued s = false ->
  exists errs,
    dv6_to_lines_step i raw s
    = Ok (mkSplitter (lines s ++ [physical_line i raw]) errs false).
Proof.
  intro Hs. unfold dv6_to_lines_step, str_match.
  rewrite line_re_exec. cbn [access rbind]. rewrite Hs.
  unfold sub, group. cbn [groups get_capture Nat.eqb truthy rbind].
  rewrite repeat_length. cbn [lines split_errors line_continued].
  eexists. reflexivity.
Qed.

Lemma dv6_to_lines_loop_plain raw_lines : forall i s,
  line_continued s = false ->
  exists errs,
    dv6_to_lines_loop i raw_lines s
    = Ok (mkSplitter (lines s ++ physical_lines i raw_lines) errs false).
Proof.
  induction raw_lines as [|raw raw_lines IH]; intros i s Hs.
  - exists (split_errors s). cbn [dv6_to_lines_loop physical_lines].
    rewrite app_nil_r. destruct s. cbn in Hs. subst. reflexivity.
  - cbn [dv6_to_lines_loop physical_lines].
    destruct (dv6_to_lines_step_plain i raw s Hs) as [errs ->]. cbn [rbind].
    destruct (IH (S i) (mkSplitter (lines s ++ [physical_line i raw]) errs false)
                eq_refl) as [errs' ->].
    exists errs'. cbn [lines]. rewrite <- app_assoc. reflexivity.
Qed.

(** Whatever the text, dv6_to_lines returns one line per physical line, or
    throws the ReferenceError of its last statement. *)
Theorem dv6_to_lines_total dv6 :
  dv6_to_lines dv6 = Ok (physical_lines 0 (split dv6 newline_re))
  \/ dv6_to_lines dv6 = Throw (ReferenceError (js "erros")).
Proof.
  unfold dv6_to_lines.
  destruct (dv6_to_lines_loop_plain (split dv6 newline_re) 0
              (mkSplitter [] [] false) eq_refl) as [errs ->].
  cbn [rbind split_errors lines app].
  destruct (negb (length errs =? 0)); [right | left]; reflexivity.
Qed.

Lemma physical_lines_at raw_lines : forall i k raw_line,
  nth_error raw_lines k = Some raw_line ->
  nth_error (physical_lines i raw_lines) k = Some (physical_line (i + k) raw_line).
Proof.
  induction raw_lines as [|raw raw_lines IH]; intros i k raw_line H.
  - destruct k; discriminate H.
  - destruct k as [|k]; cbn [nth_error physical_lines] in *.
    + inversion H; subst. rewrite Nat.add_0_r. reflexivity.
    + rewrite (IH (S i) k raw_line H). f_equal. f_equal. lia.
Qed.

Lemma physical_lines_nth raw_lines : forall i k l,
  nth_error (physical_lines i raw_lines) k = Some l ->
  line_index l = i + k /\ last_line_index l = None /\ line l = None
  /\ exists raw_line,
       nth_error raw_lines k = Some raw_line
       /\ raw_line = repeat tab (indent l) ++ content l.
Proof.
  induction raw_lines as [|raw raw_lines IH]; intros i k l H;
    cbn [physical_lines] in H.
  - destruct k; discriminate H.
  - destruct k as [|k]; cbn [nth_error] in H.
    + inversion H; subst l. cbn. rewrite Nat.add_0_r.
      repeat split. exists raw. split; [reflexivity | apply leading_tabs_split].
    + apply IH in H as (H1 & H2 & H3 & H4).
      rewrite H1. repeat split; try assumption. lia.
Qed.

End LineFacts.

(* ================================================================= *)
(** ** Facts about arrays *)

Module ArrayFacts.
Import Js.

Section FindIndex.
Context {A : Type} (p : A -> bool).

Lemma findIndex_from_range l : forall i,
  (0 <= i)%Z ->
  findIndex_from p l i = (-1)%Z
  \/ (i <= findIndex_from p l i < i + Z.of_nat (length l))%Z.
Proof.
  induction l as [|x l IH]; intros i Hi; cbn [findIndex_from length].
  - left. reflexivity.
  - destruct (p x).
    + right. lia.
    + destruct (IH (i + 1)%Z ltac:(lia)) as [H | H]; [left; exact H | right; lia].
Qed.

Lemma findIndex_from_none l : forall i,
  forallb (fun x => negb (p x)) l = true -> findIndex_from p l i = (-1)%Z.
Proof.
  induction l as [|x l IH]; intros i H; cbn [findIndex_from]; [reflexivity|].
  cbn [forallb] in H. apply andb_prop in H as [Hx Hl].
  destruct (p x); [discriminate | apply IH, Hl].
Qed.

End FindIndex.

(** Two searches from the same index: when whatever satisfies [q] also
    satisfies [p], the search for [p] ends first. *)
Lemma findIndex_from_le {A} (p q : A -> bool) l :
  (forall x, q x = true -> p x = true) ->
  forall i, (0 <= i)%Z ->
  findIndex_from q l i = (-1)%Z
  \/ (i <= findIndex_from p l i <= findIndex_from q l i)%Z.
Proof.
  intro Hqp. induction l as [|x l IH]; intros i Hi; cbn [findIndex_from].
  - left. reflexivity.
  - destruct (q x) eqn:Q.
    + rewrite (Hqp x Q). right. lia.
    + destruct (p x).
      * destruct (findIndex_from_range q l (i + 1)%Z ltac:(lia)) as [H | H];
          [left; exact H | right; lia].
      * destruct (IH (i + 1)%Z ltac:(lia)) as [H | H]; [left; exact H | right; lia].
Qed.

Lemma forallb_pointwise {A} (p q : A -> bool) l :
  (forall x, p x = q x) -> forallb p l = forallb q l.
Proof.
  intro H. induction l as [|x l IH]; cbn [forallb]; [reflexivity|].
  rewrite H, IH. reflexivity.
Qed.

Lemma relative_index_in len i :
  (0 <= i <= Z.of_nat len)%Z -> relative_index len i = Z.to_nat i.
Proof.
  intro H. unfold relative_index.
  destruct (i <? 0)%Z eqn:E; [apply Z.ltb_lt in E; lia | lia].
Qed.

(** Three consecutive slices make up the array. *)
Lemma slices_cover {A} (l : list A) (c e : Z) :
  (0 <= c <= e)%Z -> (e <= Z.of_nat (length l))%Z ->
  slice l 0 c ++ slice l c e ++ slice_from l e = l.
Proof.
  intros Hc He. unfold slice, slice_from.
  rewrite !relative_index_in by lia.
  change (Z.to_nat 0) with 0. cbn [skipn]. rewrite Nat.sub_0_r.
  replace (skipn (Z.to_nat e) l)
    with (skipn (Z.to_nat e - Z.to_nat c) (skipn (Z.to_nat c) l))
    by (rewrite skipn_skipn; f_equal; lia).
  rewrite firstn_skipn. apply firstn_skipn.
Qed.

Lemma slice_whole {A} (l : list A) : slice l 0 (Z.of_nat (length l)) = l.
Proof.
  unfold slice. rewrite !relative_index_in by lia.
  change (Z.to_nat 0) with 0. cbn [skipn].
  rewrite Nat.sub_0_r, Nat2Z.id. apply firstn_all.
Qed.

Lemma slice_from_length {A} (l : list A) : slice_from l (Z.of_nat (length l)) = [].
Proof.
  unfold slice_from. rewrite relative_index_in by lia.
  rewrite Nat2Z.id. apply skipn_all.
Qed.

Lemma startsWith_cons s y :
  startsWith s [y] = true <-> exists t, s = y :: t.
Proof.
  destruct s as [|x s]; cbn [startsWith]; split.
  - discriminate.
  - intros [t H]. discriminate.
  - intro H. apply andb_prop in H as [H _]. apply N.eqb_eq in H. subst. eauto.
  - intros [t H]. inversion H; subst. rewrite N.eqb_refl. reflexivity.
Qed.

Lemma jseqb_eq a : forall b, jseqb a b = true <-> a = b.
Proof.
  induction a as [|x a IH]; intros [|y b]; cbn [jseqb]; split;
    try discriminate; try reflexivity.
  - intro H. apply andb_prop in H as [H1 H2].
    apply N.eqb_eq in H1. apply IH in H2. congruence.
  - intro H. inversion H; subst. rewrite N.eqb_refl. cbn. apply IH. reflexivity.
Qed.

Lemma endsWith_snoc s y :
  endsWith s [y] = true <-> exists t, s = t ++ [y].
Proof.
  unfold endsWith. cbn [length]. split.
  - intro H. apply andb_prop in H as [Hlen H]. apply jseqb_eq in H.
    exists (firstn (length s - 1) s).
    rewrite <- H at 1. symmetry. apply firstn_skipn.
  - intros [t ->]. rewrite length_app. cbn [length].
    replace (length t + 1 - 1) with (length t) by lia.
    rewrite skipn_app, skipn_all, Nat.sub_diag. cbn [skipn app jseqb].
    rewrite N.eqb_refl.
    replace (1 <=? length t + 1) with true by (symmetry; apply Nat.leb_le; lia).
    reflexivity.
Qed.

End ArrayFacts.

(* ================================================================= *)
(** ** Facts about the effect layers *)

Module EffectFacts.
Import Effects.

Lemma bind_ok {A B} (x : M A) (f : A -> M B) this b this' :
  bind x f this = (Ok b, this') ->
  exists a this1, x this = (Ok a, this1) /\ f a this1 = (Ok b, this').
Proof.
  unfold bind. destruct (x this) as [[a | e] this1]; [eauto | discriminate].
Qed.

Lemma lift_ok {A} (x : result A) this a this' :
  lift x this = (Ok a, this') -> x = Ok a /\ this' = this.
Proof. unfold lift. intro H. inversion H; subst. auto. Qed.

Lemma ret_ok {A} (a b : A) this this' :
  ret a this = (Ok b, this') -> b = a /\ this' = this.
Proof. unfold ret. intro H. inversion H; subst. auto. Qed.

End EffectFacts.

(* ================================================================= *)
(** ** The classifier of an entry's children *)

Module ClassifierFacts.
Import Js Regex Effects Patterns Lines Tree Nodes Parser.
Import RegexFacts PatternFacts ArrayFacts.

Lemma is_extended_startsWith l : is_extended l = startsWith (content l) (js "//").
Proof. apply is_extended_re_test. Qed.

Lemma is_extended_not_property l : is_extended l = true -> is_property l = false.
Proof. apply extended_not_property. Qed.

Lemma contents_begin_index_range children :
  (0 <= contents_begin_index children <= Z.of_nat (length children))%Z.
Proof.
  unfold contents_begin_index, findIndex.
  destruct (findIndex_from_range
              (fun element => negb (is_property (line_of element))) children 0%Z
              ltac:(lia)) as [H | H].
  - rewrite H. cbn. lia.
  - destruct (_ =? -1)%Z eqn:E; [apply Z.eqb_eq in E; lia | lia].
Qed.

Lemma extended_begin_index_range children :
  (0 <= extended_begin_index children <= Z.of_nat (length children))%Z.
Proof.
  unfold extended_begin_index, findIndex.
  destruct (findIndex_from_range
              (fun element => is_extended (line_of element)) children 0%Z
              ltac:(lia)) as [H | H].
  - rewrite H. cbn. lia.
  - destruct (_ =? -1)%Z eqn:E; [apply Z.eqb_eq in E; lia | lia].
Qed.

Lemma contents_before_extended children :
  (contents_begin_index children <= extended_begin_index children)%Z.
Proof.
  pose proof (contents_begin_index_range children) as Hc.
  unfold extended_begin_index, findIndex.
  destruct (findIndex_from_le
              (fun element => negb (is_property (line_of element)))
              (fun element => is_extended (line_of element)) children)
    with (i := 0%Z) as [H | H].
  - intros x Hx. rewrite (is_extended_not_property _ Hx). reflexivity.
  - lia.
  - rewrite H. cbn. lia.
  - destruct (_ =? -1)%Z eqn:E; [apply Hc|]. clear E.
    unfold contents_begin_index, findIndex.
    destruct (_ =? -1)%Z eqn:E; [apply Z.eqb_eq in E; lia | apply H].
Qed.

End ClassifierFacts.

(* ================================================================= *)
(** ** Facts about the parser methods *)

Module ParserFacts.
Import Js Regex Effects Patterns Lines Tree Nodes Parser Shapes.
Import RegexFacts PatternFacts ArrayFacts EffectFacts.

Section Generic.
Variable B : Builder.

(** The switch on a line dir:value. *)
Lemma parse_property_dir l v properties :
  content l = js "dir:" ++ v -> forallb dot v = true ->
  parse_property B (Line l) properties
  = if startsWith v (js "/") && negb (endsWith v (js "/")) then
      ret (properties ++ [text_node B "dir" v])
    else
      push_error
        (error l (js "dirプロパティは/で始まり/でない文字で終わるべきです")) ;;
      ret properties.
Proof.
  intros Hl Hv. unfold parse_property, str_match. rewrite Hl.
  assert (E : exec property_re (js "dir:" ++ v)
              = Some (MatchResult 0 (js "dir:" ++ v) [(2, v); (1, js "dir")]))
    by exact (property_re_line 100%N [105; 114]%N v eq_refl eq_refl Hv).
  rewrite E. reflexivity.
Qed.

(** The switch on a line valid:value or expire:value. *)
Lemma parse_property_valid l v properties this :
  content l = js "valid:" ++ v -> forallb dot v = true ->
  parse_property B (Line l) properties this
  = (Throw (ReferenceError (js "date")), this).
Proof.
  intros Hl Hv. unfold parse_property, str_match. rewrite Hl.
  assert (E : exec property_re (js "valid:" ++ v)
              = Some (MatchResult 0 (js "valid:" ++ v) [(2, v); (1, js "valid")]))
    by exact (property_re_line 118%N [97; 108; 105; 100]%N v eq_refl eq_refl Hv).
  rewrite E. reflexivity.
Qed.

Lemma parse_property_expire l v properties this :
  content l = js "expire:" ++ v -> forallb dot v = true ->
  parse_property B (Line l) properties this
  = (Throw (ReferenceError (js "date")), this).
Proof.
  intros Hl Hv. unfold parse_property, str_match. rewrite Hl.
  assert (E : exec property_re (js "expire:" ++ v)
              = Some (MatchResult 0 (js "expire:" ++ v) [(2, v); (1, js "expire")]))
    by exact (property_re_line 101%N [120; 112; 105; 114; 101]%N v eq_refl eq_refl Hv).
  rewrite E. reflexivity.
Qed.

(** The loop of case 'flag' over the items of the value. *)
Lemma parse_flag_items l items : forall properties this,
  for_of items
    (fun flag properties =>
       let properties := properties ++ [text_node B "flag" flag] in
       (if includes known_flags flag
        then push_warning
               (error l (js "未知のフラグ[" ++ flag ++ js "]があります"))
        else ret tt) ;;
       ret properties)
    properties this
  = (Ok (properties ++ map (text_node B "flag") items),
     mkParser (errors this)
       (warnings this
        ++ map (fun flag => error l (js "未知のフラグ[" ++ flag ++ js "]があります"))
             (filter (includes known_flags) items))).
Proof.
  induction items as [|flag items IH]; intros properties this.
  - cbn [for_of map filter]. rewrite !app_nil_r. destruct this. reflexivity.
  - cbn [for_of map filter]. unfold bind at 1. cbv zeta.
    destruct (includes known_flags flag).
    + unfold bind at 1. cbn [push_warning ret]. rewrite IH.
      cbn [errors warnings map]. rewrite <- !app_assoc. reflexivity.
    + unfold bind at 1. cbn [ret]. rewrite IH.
      rewrite <- !app_assoc. reflexivity.
Qed.

(** What parse_word returns when it returns. *)
Lemma parse_word_ok l children this w this' :
  parse_word B l children this = (Ok w, this') ->
  exists title properties contents,
    content l = js "#" ++ title
    /\ w = word_node B title (properties_node B properties) (contents_node B contents).
Proof.
  unfold parse_word. intro H.
  apply bind_ok in H as (res & this1 & H1 & H).
  apply lift_ok in H1 as [H1 ->].
  unfold access, str_match in H1.
  destruct (exec word_name_re (content l)) as [res'|] eqn:E; [|discriminate].
  inversion H1; subst res'. apply word_name_re_match in E as [E _].
  apply bind_ok in H as ([[p c] x] & this2 & H2 & H).
  apply ret_ok in H as [-> ->].
  unfold parse_top_children in H2.
  apply bind_ok in H2 as (p' & this3 & Hp & H2).
  apply bind_ok in H2 as (c' & this4 & Hc & H2).
  apply bind_ok in H2 as (x' & this5 & _ & H2).
  apply ret_ok in H2 as [H2 _]. inversion H2; subst p' c' x'.
  unfold parse_properties in Hp.
  apply bind_ok in Hp as (ps & this6 & _ & Hp). apply ret_ok in Hp as [-> _].
  unfold parse_contents in Hc.
  apply bind_ok in Hc as (cs & this7 & _ & Hc). apply ret_ok in Hc as [-> _].
  exists (sub res 1), ps, cs. split; [exact E | reflexivity].
Qed.

(** The words of parse_toplevel are those of the word heads, in order. *)
Lemma map_toplevel_ok children : forall this mapped this',
  map_m (parse_toplevel_element B) children this = (Ok mapped, this') ->
  Forall2
    (fun header w =>
       exists title properties contents,
         content header = js "#" ++ title
         /\ w = word_node B title (properties_node B properties)
                  (contents_node B contents))
    (word_heads children) (filter_defined mapped).
Proof.
  induction children as [|element children IH]; intros this mapped this' H;
    cbn [map_m] in H.
  - apply ret_ok in H as [-> _]. constructor.
  - apply bind_ok in H as (y & this1 & Hy & H).
    apply bind_ok in H as (ys & this2 & Hys & H).
    apply ret_ok in H as [-> _].
    apply IH in Hys. unfold filter_defined, word_heads in *.
    cbn [flat_map]. unfold parse_toplevel_element in Hy.
    destruct element as [l | l ch]; cbn [line_of] in Hy.
    + destruct (is_word l).
      * apply bind_ok in Hy as (u & this3 & _ & Hy).
        apply ret_ok in Hy as [-> _]. exact Hys.
      * apply ret_ok in Hy as [-> _]. exact Hys.
    + destruct (is_word l).
      * apply bind_ok in Hy as (w & this3 & Hw & Hy).
        apply ret_ok in Hy as [-> _].
        apply parse_word_ok in Hw. cbn [app]. constructor; assumption.
      * apply ret_ok in Hy as [-> _]. exact Hys.
Qed.

Lemma parse_ok dv6 this words this' :
  parse B dv6 this = (Ok words, this') ->
  exists lines structure,
    dv6_to_lines dv6 = Ok lines
    /\ flat_to_structured_lines lines = Ok (Some structure)
    /\ Forall2
         (fun header w =>
            exists title properties contents,
              content header = js "#" ++ title
              /\ w = word_node B title (properties_node B properties)
                       (contents_node B contents))
         (word_heads (root_children structure)) words.
Proof.
  unfold parse. intro H.
  apply bind_ok in H as (lines & this1 & H1 & H). apply lift_ok in H1 as [H1 ->].
  apply bind_ok in H as (st & this2 & H2 & H). apply lift_ok in H2 as [H2 ->].
  unfold parse_toplevel in H.
  apply bind_ok in H as (structure & this3 & H3 & H). apply lift_ok in H3 as [H3 ->].
  destruct st as [structure'|]; [|discriminate]. inversion H3; subst structure'.
  apply bind_ok in H as (mapped & this4 & H4 & H). apply ret_ok in H as [-> _].
  exists lines, structure. repeat split; try assumption.
  eapply map_toplevel_ok; eassumption.
Qed.

End Generic.

End ParserFacts.


(* ================================================================= *)
(** ** Facts about split *)

Module SplitFacts.
Import Js Regex Patterns Reference RegexFacts PatternFacts.

Lemma glue_nil pieces : pieces <> [] -> glue [] pieces = pieces.
Proof. destruct pieces; [contradiction | reflexivity]. Qed.

Lemma split_on_nonempty c s : split_on c s <> [].
Proof.
  destruct s as [|x s]; cbn [split_on]; [discriminate|].
  destruct (c =? x)%N; [discriminate|].
  destruct (split_on c s); discriminate.
Qed.

Lemma split_breaks_nonempty s : split_breaks s <> [].
Proof.
  destruct s as [|x s]; cbn [split_breaks]; [discriminate|].
  destruct (lf =? x)%N; [discriminate|].
  destruct s as [|y s]; [discriminate|].
  destruct (_ && _); [discriminate|].
  destruct (split_breaks (y :: s)); discriminate.
Qed.

Lemma glue_glue a b pieces : glue a (glue b pieces) = glue (a ++ b) pieces.
Proof.
  destruct pieces; cbn [glue]; [reflexivity | rewrite app_assoc; reflexivity].
Qed.

(** The segment S[p, q). *)
Lemma segment_snoc (s : list N) p q x :
  p <= q -> nth_error s q = Some x ->
  firstn (S q - p) (skipn p s) = firstn (q - p) (skipn p s) ++ [x].
Proof.
  intros Hpq Hx.
  assert (Hn : nth_error (skipn p s) (q - p) = Some x).
  { rewrite nth_error_skipn. replace (p + (q - p)) with q by lia. exact Hx. }
  replace (S q - p) with (S (q - p)) by lia.
  revert Hn. generalize (skipn p s) (q - p). clear.
  intros l n. revert l. induction n as [|n IH]; intros [|y l] H; try discriminate.
  - cbn in H. inversion H. reflexivity.
  - cbn [nth_error] in H. cbn [firstn app]. f_equal.
    change (firstn (S n) l = firstn n l ++ [x]). apply IH, H.
Qed.

Lemma segment_all (s : list N) p q :
  length s <= q -> firstn (q - p) (skipn p s) = skipn p s.
Proof. intro H. apply firstn_all2. rewrite length_skipn. lia. Qed.

Lemma skipn_cons_nth (s : list N) q x t :
  skipn q s = x :: t -> nth_error s q = Some x /\ skipn (S q) s = t.
Proof.
  revert s. induction q as [|q IH]; intros s H.
  - cbn in H. subst. split; reflexivity.
  - destruct s as [|y s]; [discriminate|]. cbn [skipn] in H.
    apply IH in H. exact H.
Qed.

Lemma skipn_nil_length (s : list N) q : skipn q s = [] -> length s <= q.
Proof.
  intro H. apply (f_equal (@length N)) in H. rewrite length_skipn in H.
  cbn in H. lia.
Qed.

(** *** split(/,/), split(/;/): the pieces between the separators *)

Lemma match_end_at_char c s q :
  match_end_at (Char (N.eqb c)) s q
  = match skipn q s with
    | x :: _ => if (c =? x)%N then Some (S q) else None
    | [] => None
    end.
Proof. unfold match_end_at. cbn [m]. destruct (skipn q s); reflexivity. Qed.

Lemma split_loop_char c s : forall fuel p q,
  p <= q -> length s - q < fuel ->
  split_loop (Char (N.eqb c)) s fuel p q
  = glue (firstn (q - p) (skipn p s)) (split_on c (skipn q s)).
Proof.
  intro fuel. induction fuel as [|fuel IH]; intros p q Hpq Hf; [lia|].
  cbn [split_loop]. rewrite match_end_at_char.
  destruct (length s <=? q) eqn:E.
  - apply Nat.leb_le in E. rewrite (skipn_all2 s E). cbn [split_on glue].
    rewrite app_nil_r, segment_all by exact E. reflexivity.
  - apply Nat.leb_gt in E.
    destruct (skipn q s) as [|x t] eqn:S.
    + apply skipn_nil_length in S. lia.
    + apply skipn_cons_nth in S as [Hx St]. cbn [split_on].
      destruct (c =? x)%N.
      * replace (S q =? p) with false by (symmetry; apply Nat.eqb_neq; lia).
        rewrite IH by lia. rewrite Nat.sub_diag. cbn [firstn glue].
        rewrite St, app_nil_r, glue_nil by apply split_on_nonempty. reflexivity.
      * rewrite IH by lia. rewrite St, glue_glue.
        rewrite (segment_snoc s p q x) by (lia || exact Hx). reflexivity.
Qed.

Theorem split_char c s : split s (Char (N.eqb c)) = split_on c s.
Proof.
  destruct s as [|x s].
  - reflexivity.
  - unfold split. rewrite split_loop_char by (cbn [length]; lia).
    cbn [skipn firstn Nat.sub glue]. apply glue_nil, split_on_nonempty.
Qed.

(** *** split(/\r?\n/): the pieces between the line breaks *)

Lemma match_end_at_newline s q :
  match_end_at newline_re s q
  = match skipn q s with
    | x :: t =>
      if (lf =? x)%N then Some (S q)
      else match t with
           | y :: _ => if (cr =? x)%N && (lf =? y)%N then Some (S (S q)) else None
           | [] => None
           end
    | [] => None
    end.
Proof.
  unfold match_end_at, newline_re, Opt. cbn [m].
  destruct (skipn q s) as [|x [|y t]]; [reflexivity| |].
  - destruct (cr =? x)%N eqn:C, (lf =? x)%N eqn:L; reflexivity.
  - destruct (cr =? x)%N eqn:C, (lf =? x)%N eqn:L; cbn [andb];
      try reflexivity;
      try (apply N.eqb_eq in C, L; subst; discriminate).
    destruct (lf =? y)%N; reflexivity.
Qed.

Lemma split_loop_newline s : forall fuel p q,
  p <= q -> length s - q < fuel ->
  split_loop newline_re s fuel p q
  = glue (firstn (q - p) (skipn p s)) (split_breaks (skipn q s)).
Proof.
  intro fuel. induction fuel as [|fuel IH]; intros p q Hpq Hf; [lia|].
  cbn [split_loop]. rewrite match_end_at_newline.
  destruct (length s <=? q) eqn:E.
  - apply Nat.leb_le in E. rewrite (skipn_all2 s E). cbn [split_breaks glue].
    rewrite app_nil_r, segment_all by exact E. reflexivity.
  - apply Nat.leb_gt in E.
    destruct (skipn q s) as [|x t] eqn:S.
    + apply skipn_nil_length in S. lia.
    + apply skipn_cons_nth in S as [Hx St]. cbn [split_breaks].
      destruct (lf =? x)%N.
      * replace (S q =? p) with false by (symmetry; apply Nat.eqb_neq; lia).
        rewrite IH by lia. rewrite Nat.sub_diag. cbn [firstn glue].
        rewrite St, app_nil_r, glue_nil by apply split_breaks_nonempty.
        reflexivity.
      * destruct t as [|y t'].
        -- rewrite IH by lia. rewrite St. cbn [split_breaks glue].
           rewrite (segment_snoc s p q x) by (lia || exact Hx).
           rewrite app_nil_r. reflexivity.
        -- destruct ((cr =? x)%N && (lf =? y)%N).
           ++ replace (S (S q) =? p) with false
                by (symmetry; apply Nat.eqb_neq; lia).
              rewrite IH by lia. rewrite Nat.sub_diag. cbn [firstn glue].
              apply skipn_cons_nth in St as [_ St]. rewrite St.
              rewrite app_nil_r, glue_nil by apply split_breaks_nonempty.
              reflexivity.
           ++ rewrite IH by lia. rewrite St, glue_glue.
              rewrite (segment_snoc s p q x) by (lia || exact Hx). reflexivity.
Qed.

Theorem split_newline s : split s newline_re = split_breaks s.
Proof.
  destruct s as [|x s].
  - reflexivity.
  - unfold split. rewrite split_loop_newline by (cbn [length]; lia).
    cbn [skipn firstn Nat.sub glue]. apply glue_nil, split_breaks_nonempty.
Qed.

End SplitFacts.


(* ================================================================= *)
(** ** Further facts about the line splitter *)

Module SplitterFacts.
Import Js Regex Effects Patterns Lines Shapes Reference.
Import RegexFacts PatternFacts LineFacts SplitFacts.

Lemma last_line_snoc ls l : last_line (ls ++ [l]) = Some l.
Proof. unfold last_line. rewrite map_app. cbn [map]. apply last_last. Qed.

Lemma dv6_to_lines_step_errors i raw s :
  line_continued s = false ->
  dv6_to_lines_step i raw s
  = Ok (mkSplitter (lines s ++ [physical_line i raw])
          (match last_line (lines s) with
           | Some previous =>
             if (leading_tabs raw <=? S (indent previous))%nat then split_errors s
             else
               split_errors s
               ++ [js "行" ++ number_to_string (i + 1)
                   ++ js ": インデントが直前の行から2レベル以上上がっています"]
           | None => split_errors s
           end)
          false).
Proof.
  intro Hs. unfold dv6_to_lines_step, str_match.
  rewrite line_re_exec. cbn [access rbind]. rewrite Hs.
  unfold sub, group. cbn [groups get_capture Nat.eqb truthy rbind].
  rewrite repeat_length. cbn [lines split_errors line_continued].
  unfold physical_line. do 2 f_equal.
  destruct (last_line (lines s)) as [previous|]; [|reflexivity].
  cbn [indent new_DV6Line].
  destruct (leading_tabs raw <=? S (indent previous))%nat eqn:E.
  - apply Nat.leb_le in E.
    replace (_ <? _)%Z with false by (symmetry; apply Z.ltb_ge; lia).
    reflexivity.
  - apply Nat.leb_gt in E.
    replace (_ <? _)%Z with true by (symmetry; apply Z.ltb_lt; lia).
    reflexivity.
Qed.

Lemma dv6_to_lines_loop_errors raw_lines : forall i s,
  line_continued s = false ->
  exists errs,
    dv6_to_lines_loop i raw_lines s
    = Ok (mkSplitter (lines s ++ physical_lines i raw_lines)
            (split_errors s ++ errs) false)
    /\ (errs = []
        <-> no_jump_after (option_map indent (last_line (lines s)))
              (map leading_tabs raw_lines) = true).
Proof.
  induction raw_lines as [|raw raw_lines IH]; intros i s Hs.
  - exists []. cbn [dv6_to_lines_loop physical_lines map]. rewrite !app_nil_r.
    split; [destruct s; cbn in Hs; subst; reflexivity|].
    split; [intros _|reflexivity].
    destruct (option_map _ _); reflexivity.
  - cbn [dv6_to_lines_loop physical_lines map].
    rewrite (dv6_to_lines_step_errors i raw s Hs). cbn [rbind].
    match goal with
    | |- context [dv6_to_lines_loop _ _ ?s1] =>
      destruct (IH (S i) s1 eq_refl) as (errs & E & H)
    end.
    rewrite E. cbn [lines split_errors] in *.
    rewrite last_line_snoc in H. cbn [option_map indent physical_line new_DV6Line] in H.
    rewrite <- app_assoc. cbn [app].
    destruct (last_line (lines s)) as [previous|]; cbn [option_map no_jump_after no_jump_from no_jump].
    + destruct (leading_tabs raw <=? S (indent previous))%nat; cbn [andb].
      * exists errs. split; [reflexivity | exact H].
      * eexists (_ :: errs). rewrite <- app_assoc. cbn [app].
        split; [reflexivity|]. split; discriminate.
    + exists errs. split; [reflexivity | exact H].
Qed.

Lemma render_physical_lines raw_lines : forall i,
  map render (physical_lines i raw_lines) = raw_lines.
Proof.
  induction raw_lines as [|raw raw_lines IH]; intro i; [reflexivity|].
  cbn [physical_lines map]. rewrite IH. f_equal.
  unfold render, physical_line. cbn [indent content new_DV6Line].
  symmetry. apply leading_tabs_split.
Qed.

Lemma join_cons x l sep : l <> [] -> join (x :: l) sep = x ++ sep ++ join l sep.
Proof. destruct l; [contradiction | reflexivity]. Qed.

Lemma join_glue x l sep : l <> [] -> join (glue [x] l) sep = x :: join l sep.
Proof.
  destruct l as [|h [|h' t]]; [contradiction | reflexivity | reflexivity].
Qed.

(** In a text without CR the pieces, joined by LF, are the text. *)
Lemma join_split_breaks s :
  forallb (fun x => negb (cr =? x)%N) s = true ->
  join (split_breaks s) [lf] = s.
Proof.
  induction s as [|x s IH]; intro H; [reflexivity|].
  cbn [forallb] in H. apply andb_prop in H as [Hx Hs]. specialize (IH Hs).
  cbn [split_breaks].
  destruct (lf =? x)%N eqn:L.
  - apply N.eqb_eq in L. subst x.
    rewrite join_cons by apply split_breaks_nonempty. rewrite IH. reflexivity.
  - destruct s as [|y s]; [reflexivity|].
    apply negb_true_iff in Hx. rewrite Hx. cbn [andb].
    rewrite join_glue by apply split_breaks_nonempty. rewrite IH. reflexivity.
Qed.

(** The outcome of dv6_to_lines, read off the indents of the pieces. *)
Lemma dv6_to_lines_outcome dv6 :
  dv6_to_lines dv6
  = if no_jump (map leading_tabs (split_breaks dv6))
    then Ok (physical_lines 0 (split_breaks dv6))
    else Throw (ReferenceError (js "erros")).
Proof.
  unfold dv6_to_lines. cbv zeta. rewrite split_newline.
  destruct (dv6_to_lines_loop_errors (split_breaks dv6) 0
              (mkSplitter [] [] false) eq_refl) as (errs & E & H).
  rewrite E. cbn [rbind split_errors lines app last_line map last option_map
                  no_jump_after] in *.
  destruct (no_jump (map leading_tabs (split_breaks dv6))).
  - rewrite (proj2 H eq_refl). reflexivity.
  - destruct errs as [|e errs]; [|reflexivity].
    discriminate (proj1 H eq_refl).
Qed.

Lemma map_indent_physical_lines raw_lines : forall i,
  map indent (physical_lines i raw_lines) = map leading_tabs raw_lines.
Proof.
  induction raw_lines as [|raw raw_lines IH]; intro i; [reflexivity|].
  cbn [physical_lines map]. rewrite IH. reflexivity.
Qed.

Lemma forallb_physical_lines (p : nat -> bool) raw_lines : forall i,
  forallb (fun l => p (indent l)) (physical_lines i raw_lines)
  = forallb (fun raw => p (leading_tabs raw)) raw_lines.
Proof.
  induction raw_lines as [|raw raw_lines IH]; intro i; [reflexivity|].
  cbn [physical_lines forallb]. rewrite IH. reflexivity.
Qed.

End SplitterFacts.


(* ================================================================= *)
(** ** Facts about the tree lifter *)

Module TreeFacts.
Import Js Regex Effects Patterns Lines Tree Shapes Reference.

Lemma flat_map_snoc {A B} (f : A -> list B) l x :
  flat_map f (l ++ [x]) = flat_map f l ++ f x.
Proof. rewrite flat_map_app. cbn. rewrite app_nil_r. reflexivity. Qed.

Lemma push_child_flat e st st' :
  push_child e st = Ok st' ->
  open st' /\ depth st' = depth st /\ stack_flat st' = stack_flat st ++ flatten e.
Proof.
  destruct st as [|r [|[l ch] heads]]; cbn [push_child]; intro H;
    inversion H; subst; cbn [stack_flat heads_flat];
    (split; [discriminate|]); (split; [reflexivity|]).
  - rewrite flat_map_snoc, !app_nil_r. reflexivity.
  - rewrite flat_map_snoc, <- !app_assoc. reflexivity.
Qed.

Lemma push_head_flat l st st' :
  push_head l st = Ok st' ->
  open st' /\ depth st' = S (depth st) /\ stack_flat st' = stack_flat st ++ [super l].
Proof.
  destruct st as [|r heads]; cbn [push_head]; intro H; inversion H; subst.
  split; [discriminate|]. split; [cbn; lia|].
  cbn [stack_flat heads_flat flat_map]. rewrite <- app_assoc. reflexivity.
Qed.

Lemma push_open e l st :
  open st -> (exists st', push_child e st = Ok st') /\ (exists st', push_head l st = Ok st').
Proof.
  destruct st as [|r [|[l' ch] heads]]; [intro H; contradiction H; reflexivity| |];
    intros _; split; eexists; reflexivity.
Qed.

Lemma push_emptied e l :
  push_child e Emptied = Throw (TypeError (js "current_structure.children"))
  /\ push_head l Emptied = Throw (TypeError (js "current_structure.children")).
Proof. split; reflexivity. Qed.

Lemma pop_flat st :
  0 < depth st -> open (pop st) /\ depth (pop st) = depth st - 1
                  /\ stack_flat (pop st) = stack_flat st.
Proof.
  destruct st as [|r [|[l ch] [|[l' ch'] heads]]]; cbn; intro H; try lia.
  - split; [discriminate|]. split; [reflexivity|].
    rewrite flat_map_snoc, !app_nil_r. reflexivity.
  - split; [discriminate|]. split; [lia|].
    rewrite flat_map_snoc. cbn [flatten]. rewrite <- !app_assoc. reflexivity.
Qed.

Lemma pops_flat n : forall st,
  open st -> n <= depth st ->
  open (Nat.iter n pop st) /\ depth (Nat.iter n pop st) = depth st - n
  /\ stack_flat (Nat.iter n pop st) = stack_flat st.
Proof.
  induction n as [|n IH]; intros st Ho Hn.
  - cbn. split; [exact Ho|]. split; [lia | reflexivity].
  - rewrite Nat.iter_succ_r.
    destruct (pop_flat st ltac:(lia)) as (H1 & H2 & H3).
    destruct (IH (pop st) H1 ltac:(lia)) as (H4 & H5 & H6).
    split; [exact H4|]. split; [lia | congruence].
Qed.

Lemma pop_emptied_iter n : Nat.iter n pop Emptied = Emptied.
Proof.
  induction n as [|n IH]; [reflexivity | rewrite Nat.iter_succ, IH; reflexivity].
Qed.

Lemma pops_too_many n : forall st, depth st < n -> Nat.iter n pop st = Emptied.
Proof.
  induction n as [|n IH]; intros st H; [lia|].
  rewrite Nat.iter_succ_r.
  destruct st as [|r [|[l ch] heads]].
  - apply pop_emptied_iter.
  - cbn [pop]. apply pop_emptied_iter.
  - apply IH. destruct (pop_flat (Entries r ((l, ch) :: heads))) as (_ & H2 & _).
    + cbn. lia.
    + rewrite H2. cbn in *. lia.
Qed.

(** splice(indent_diff, -indent_diff) removes the last -indent_diff
    entries, or all of them when there are no more. *)
Lemma splice_drop st k :
  open st -> 0 < k ->
  splice st (- Z.of_nat k) (- - Z.of_nat k)
  = Nat.iter (Nat.min k (stack_length st)) pop st.
Proof.
  intros Ho Hk. unfold splice. f_equal.
  unfold relative_index.
  replace (- Z.of_nat k <? 0)%Z with true by (symmetry; apply Z.ltb_lt; lia).
  lia.
Qed.

Lemma stack_length_depth st : open st -> stack_length st = S (depth st).
Proof.
  destruct st; [intro H; contradiction H; reflexivity|]. intros _. cbn. lia.
Qed.

Lemma loop_emptied lines :
  lines <> [] ->
  flat_to_structured_loop lines Emptied
  = Throw (TypeError (js "current_structure.children")).
Proof.
  destruct lines as [|line [|next rest]]; [contradiction | reflexivity |].
  intros _. cbn [flat_to_structured_loop].
  destruct (_ >? 0)%Z; [reflexivity|]. destruct (_ <? 0)%Z; reflexivity.
Qed.

Lemma super_super l : super (super l) = super l.
Proof. reflexivity. Qed.

(** The step for a line whose successor lies [k] levels higher up. *)
Lemma splice_after_drop st (line next : DV6Line) :
  open st -> indent next < indent line ->
  let st' := splice st (Z.of_nat (indent next) - Z.of_nat (indent line))
               (- (Z.of_nat (indent next) - Z.of_nat (indent line))) in
  (indent line - indent next <= depth st ->
   open st' /\ depth st' = depth st - (indent line - indent next)
   /\ stack_flat st' = stack_flat st)
  /\ (depth st < indent line - indent next -> st' = Emptied).
Proof.
  intros Ho Hlt st'. subst st'.
  replace (Z.of_nat (indent next) - Z.of_nat (indent line))%Z
    with (- Z.of_nat (indent line - indent next))%Z by lia.
  rewrite splice_drop by (assumption || lia).
  rewrite stack_length_depth by exact Ho. split; intro H.
  - rewrite Nat.min_l by lia. apply pops_flat; assumption.
  - rewrite Nat.min_r by lia. apply pops_too_many. lia.
Qed.

(** Whenever the loop ends, the stack holds the lines it was given, in
    order, after those it held. *)
Lemma loop_flat lines : forall st st',
  open st ->
  flat_to_structured_loop lines st = Ok st' ->
  open st'
  /\ map super (stack_flat st') = map super (stack_flat st) ++ map super lines.
Proof.
  induction lines as [|line rest IH]; intros st st' Ho H.
  - cbn in H. inversion H; subst. split; [exact Ho|].
    cbn [map]. rewrite app_nil_r. reflexivity.
  - cbn [flat_to_structured_loop] in H.
    destruct (push_open (Line line) line st Ho) as [[sc Hc] [sh Hh]].
    apply push_child_flat in Hc as Fc. destruct Fc as (Oc & Dc & Fc).
    apply push_head_flat in Hh as Fh. destruct Fh as (Oh & Dh & Fh).
    assert (Leaf : forall st2,
               open st2 -> stack_flat st2 = stack_flat sc ->
               flat_to_structured_loop rest st2 = Ok st' ->
               open st'
               /\ map super (stack_flat st')
                  = map super (stack_flat st) ++ map super (line :: rest)).
    { intros st2 O2 F2 H2. apply IH in H2 as [O' F']; [|exact O2].
      split; [exact O'|]. rewrite F', F2, Fc. cbn [flatten map].
      rewrite map_app, <- app_assoc. reflexivity. }
    destruct rest as [|next rest'].
    + rewrite Hc in H. cbn [rbind] in H. apply (Leaf sc Oc eq_refl H).
    + destruct (_ >? 0)%Z eqn:G.
      * rewrite Hh in H. cbn [rbind] in H.
        apply IH in H as [O' F']; [|exact Oh].
        split; [exact O'|]. rewrite F', Fh. cbn [map].
        rewrite map_app, <- app_assoc. cbn [map app]. rewrite super_super.
        reflexivity.
      * destruct (_ <? 0)%Z eqn:L.
        -- rewrite Hc in H. cbn [rbind] in H.
           apply Z.ltb_lt in L.
           destruct (splice_after_drop sc line next Oc ltac:(lia)) as [S1 S2].
           destruct (Nat.le_gt_cases (indent line - indent next) (depth sc))
             as [Hle | Hgt].
           ++ destruct (S1 Hle) as (O2 & _ & F2). apply (Leaf _ O2 F2 H).
           ++ rewrite (S2 Hgt) in H. rewrite loop_emptied in H by discriminate.
              discriminate H.
        -- rewrite Hc in H. cbn [rbind] in H. apply (Leaf sc Oc eq_refl H).
Qed.

Lemma bottom_open st :
  open st ->
  exists r, bottom st = Some (Root r) /\ flat_map flatten r = stack_flat st.
Proof.
  intro Ho. unfold bottom. fold (depth st).
  destruct (pops_flat (depth st) st Ho (le_n _)) as (O & D & F).
  destruct (Nat.iter (depth st) pop st) as [|r heads]; [contradiction O; reflexivity|].
  exists r. split; [reflexivity|].
  rewrite <- F. cbn in D. destruct heads; [|cbn in D; lia].
  cbn. rewrite app_nil_r. reflexivity.
Qed.

(** The loop throws nothing but the TypeError of a push on the emptied
    stack. *)
Lemma loop_throw lines : forall st e,
  flat_to_structured_loop lines st = Throw e ->
  e = TypeError (js "current_structure.children").
Proof.
  assert (C : forall x st e, push_child x st = Throw e ->
                e = TypeError (js "current_structure.children")).
  { intros x [|r [|[l ch] heads]] e H; inversion H; reflexivity. }
  assert (P : forall l st e, push_head l st = Throw e ->
                e = TypeError (js "current_structure.children")).
  { intros l [|r heads] e H; inversion H; reflexivity. }
  induction lines as [|line rest IH]; intros st e H; [discriminate|].
  cbn [flat_to_structured_loop] in H.
  destruct rest as [|next rest'].
  - destruct (push_child (Line line) st) eqn:E; cbn [rbind] in H.
    + discriminate.
    + inversion H; subst. eapply C, E.
  - destruct (_ >? 0)%Z.
    + destruct (push_head line st) eqn:E; cbn [rbind] in H.
      * eapply IH, H.
      * inversion H; subst. eapply P, E.
    + destruct (_ <? 0)%Z;
        (destruct (push_child (Line line) st) eqn:E; cbn [rbind] in H;
         [eapply IH, H | inversion H; subst; eapply C, E]).
Qed.

(** What the lifter returns is never undefined. *)
Lemma flat_to_structured_lines_defined lines r :
  flat_to_structured_lines lines = Ok r -> exists structure, r = Some structure.
Proof.
  unfold flat_to_structured_lines.
  destruct (flat_to_structured_loop lines (Entries [] [])) as [st|e] eqn:E;
    [|discriminate].
  cbn [rbind]. intro H. inversion H; subst.
  apply loop_flat in E as [O _]; [|discriminate].
  destruct (bottom_open st O) as (r & -> & _). eexists. reflexivity.
Qed.

(** The lines of the returned tree, in order. *)
Lemma tree_holds_lines lines r :
  flat_to_structured_lines lines = Ok r ->
  exists structure,
    r = Some structure
    /\ map super (flat_map flatten (root_children structure)) = map super lines.
Proof.
  unfold flat_to_structured_lines.
  destruct (flat_to_structured_loop lines (Entries [] [])) as [st|e] eqn:E;
    [|discriminate].
  cbn [rbind]. intro H. inversion H; subst r.
  apply loop_flat in E as [O F]; [|discriminate].
  destruct (bottom_open st O) as (children & Hb & Hf).
  exists (Root children). split; [exact Hb|].
  cbn [root_children]. rewrite Hf, F. reflexivity.
Qed.

End TreeFacts.


Module TreeShape.
Import Js Regex Effects Patterns Lines Tree Shapes Reference TreeFacts.

Lemma nested_head l ch : nested (HeadLine l ch) <-> children_ok (S (indent l)) ch.
Proof.
  cbn [nested]. unfold children_ok.
  induction ch as [|c ch IH].
  - split; [constructor | trivial].
  - split.
    + intros (H1 & H2 & H3). constructor; [split; assumption | apply IH, H3].
    + intro H. inversion H as [|? ? [H1 H2] H3]; subst.
      split; [exact H1|]. split; [exact H2 | apply IH, H3].
Qed.

Lemma children_ok_snoc d ch c :
  children_ok d ch -> indent (line_of c) = d -> nested c -> children_ok d (ch ++ [c]).
Proof.
  intros H H1 H2. apply Forall_app. split; [exact H|].
  constructor; [split; assumption | constructor].
Qed.

Lemma stack_ok_open i0 st : stack_ok i0 st -> open st.
Proof. destruct st; [contradiction | discriminate]. Qed.

Lemma depth_entries r heads : depth (Entries r heads) = length heads.
Proof. unfold depth. cbn [stack_length]. lia. Qed.

Lemma push_child_ok i0 st line :
  stack_ok i0 st -> indent line = i0 + depth st ->
  exists st', push_child (Line line) st = Ok st'
              /\ stack_ok i0 st' /\ depth st' = depth st.
Proof.
  destruct st as [|r [|[l ch] heads]]; [contradiction| |];
    rewrite depth_entries; cbn [push_child stack_ok heads_ok length];
    intros [Hr Hh] Hi.
  - eexists. split; [reflexivity|]. rewrite depth_entries.
    split; [|reflexivity].
    split; [|exact I].
    apply children_ok_snoc; [exact Hr | cbn [line_of length]; lia | exact I].
  - destruct Hh as (H1 & H2 & H3).
    eexists. split; [reflexivity|]. rewrite depth_entries.
    split; [|reflexivity].
    split; [exact Hr|]. split; [exact H1|]. split; [|exact H3].
    apply children_ok_snoc; [exact H2 | cbn [line_of]; lia | exact I].
Qed.

Lemma push_head_ok i0 st line :
  stack_ok i0 st -> indent line = i0 + depth st ->
  exists st', push_head line st = Ok st'
              /\ stack_ok i0 st' /\ depth st' = S (depth st).
Proof.
  destruct st as [|r heads]; [contradiction|].
  rewrite depth_entries. cbn [push_head stack_ok]. intros [Hr Hh] Hi.
  eexists. split; [reflexivity|]. rewrite depth_entries.
  split; [|reflexivity].
  split; [exact Hr|]. cbn [heads_ok super indent].
  split; [exact Hi|]. split; [constructor | exact Hh].
Qed.

Lemma pop_ok i0 st :
  stack_ok i0 st -> 0 < depth st -> stack_ok i0 (pop st).
Proof.
  destruct st as [|r [|[l ch] [|[l' ch'] heads]]]; [contradiction| | |];
    rewrite depth_entries; cbn [pop stack_ok heads_ok length];
    [lia | |]; intros [Hr (H1 & H2 & H3)] _.
  - split; [|exact I].
    apply children_ok_snoc;
      [exact Hr | cbn [line_of]; lia | apply nested_head, H2].
  - destruct H3 as (H4 & H5 & H6).
    split; [exact Hr|]. split; [exact H4|]. split; [|exact H6].
    apply children_ok_snoc;
      [exact H5 | cbn [line_of]; lia | apply nested_head, H2].
Qed.

Lemma pops_ok i0 n : forall st,
  stack_ok i0 st -> n <= depth st -> stack_ok i0 (Nat.iter n pop st).
Proof.
  induction n as [|n IH]; intros st H Hn; [exact H|].
  rewrite Nat.iter_succ_r. apply IH.
  - apply pop_ok; [exact H | lia].
  - destruct (pop_flat st ltac:(lia)) as (_ & D & _). lia.
Qed.

Lemma splice_ok i0 st (line next : DV6Line) :
  stack_ok i0 st -> indent next < indent line ->
  indent line - indent next <= depth st ->
  stack_ok i0 (splice st (Z.of_nat (indent next) - Z.of_nat (indent line))
                 (- (Z.of_nat (indent next) - Z.of_nat (indent line)))).
Proof.
  intros H Hlt Hle.
  replace (Z.of_nat (indent next) - Z.of_nat (indent line))%Z
    with (- Z.of_nat (indent line - indent next))%Z by lia.
  rewrite splice_drop by (try apply (stack_ok_open i0); assumption || lia).
  rewrite stack_length_depth by (apply (stack_ok_open i0); assumption).
  rewrite Nat.min_l by lia. apply pops_ok; assumption.
Qed.

Lemma loop_step line next rest st :
  flat_to_structured_loop (line :: next :: rest) st
  = let indent_diff := (Z.of_nat (indent next) - Z.of_nat (indent line))%Z in
    if (indent_diff >? 0)%Z then
      try st1 <- push_head line st ;;
      flat_to_structured_loop (next :: rest) st1
    else if (indent_diff <? 0)%Z then
      try st1 <- push_child (Line line) st ;;
      flat_to_structured_loop (next :: rest) (splice st1 indent_diff (- indent_diff))
    else
      try st1 <- push_child (Line line) st ;;
      flat_to_structured_loop (next :: rest) st1.
Proof. reflexivity. Qed.

(** The loop on lines without a jump, from a stack as deep as the first
    line lies above level [i0]: it ends with a well-shaped stack if no
    later line lies below [i0], and in a TypeError otherwise. *)
Lemma loop_outcome rest : forall line st i0,
  stack_ok i0 st -> indent line = i0 + depth st ->
  no_jump_from (indent line) (map indent rest) = true ->
  if forallb (fun l => i0 <=? indent l) rest
  then exists st', flat_to_structured_loop (line :: rest) st = Ok st'
                   /\ stack_ok i0 st'
  else flat_to_structured_loop (line :: rest) st
       = Throw (TypeError (js "current_structure.children")).
Proof.
  induction rest as [|next rest IH]; intros line st i0 Hst Hd Hj.
  - cbn [forallb flat_to_structured_loop].
    destruct (push_child_ok i0 st line Hst Hd) as (st1 & -> & H1 & _).
    cbn. eauto.
  - cbn [map no_jump_from] in Hj. apply andb_prop in Hj as [Hn Hj].
    apply Nat.leb_le in Hn. cbn [forallb]. rewrite loop_step. cbv zeta.
    destruct (push_child_ok i0 st line Hst Hd) as (sc & Ec & Hc & Dc).
    destruct (push_head_ok i0 st line Hst Hd) as (sh & Eh & Hh & Dh).
    destruct (_ >? 0)%Z eqn:G.
    + apply Z.gtb_lt in G. rewrite Eh. cbn [rbind].
      replace (i0 <=? indent next) with true
        by (symmetry; apply Nat.leb_le; lia).
      cbn [andb]. apply IH; [exact Hh | lia | exact Hj].
    + destruct (_ <? 0)%Z eqn:L.
      * apply Z.ltb_lt in L. rewrite Ec. cbn [rbind].
        destruct (i0 <=? indent next) eqn:E; cbn [andb].
        -- apply Nat.leb_le in E. apply IH; [| |exact Hj].
           ++ apply splice_ok; [exact Hc | lia | lia].
           ++ destruct (splice_after_drop sc line next
                          (stack_ok_open i0 sc Hc) ltac:(lia)) as [S1 _].
              destruct (S1 ltac:(lia)) as (_ & D & _). rewrite D. lia.
        -- apply Nat.leb_gt in E.
           destruct (splice_after_drop sc line next
                       (stack_ok_open i0 sc Hc) ltac:(lia)) as [_ S2].
           rewrite (S2 ltac:(lia)). apply loop_emptied. discriminate.
      * rewrite Ec. cbn [rbind].
        assert (indent next = indent line)
          by (apply Z.ltb_ge in L; rewrite Z.gtb_ltb in G;
              apply Z.ltb_ge in G; lia).
        replace (i0 <=? indent next) with true
          by (symmetry; apply Nat.leb_le; lia).
        cbn [andb]. apply IH; [exact Hc | lia | congruence].
Qed.

Lemma bottom_ok i0 st :
  stack_ok i0 st -> exists r, bottom st = Some (Root r) /\ children_ok i0 r.
Proof.
  intro H. unfold bottom. fold (depth st).
  pose proof (pops_ok i0 (depth st) st H (le_n _)) as K.
  destruct (pops_flat (depth st) st (stack_ok_open i0 st H) (le_n _)) as (_ & D & _).
  destruct (Nat.iter (depth st) pop st) as [|r heads]; [contradiction|].
  exists r. split; [reflexivity | apply K].
Qed.

(** The outcome of the lifter on lines none of which lies more than one
    level below the line before it. *)
Lemma lifter_outcome line rest :
  no_jump_from (indent line) (map indent rest) = true ->
  if forallb (fun l => indent line <=? indent l) rest
  then exists r, flat_to_structured_lines (line :: rest) = Ok (Some (Root r))
                 /\ children_ok (indent line) r
  else flat_to_structured_lines (line :: rest)
       = Throw (TypeError (js "current_structure.children")).
Proof.
  intro Hj.
  pose proof (loop_outcome rest line (Entries [] []) (indent line)) as K.
  unfold flat_to_structured_lines.
  destruct (forallb (fun l => indent line <=? indent l) rest).
  - destruct K as (st' & E & Hok); [split; [constructor | exact I] | | exact Hj |].
    { rewrite depth_entries. cbn [length]. lia. }
    rewrite E. cbn [rbind].
    destruct (bottom_ok _ _ Hok) as (r & Hb & Hr). rewrite Hb.
    exists r. split; [reflexivity | exact Hr].
  - rewrite K; [reflexivity | split; [constructor | exact I] | | exact Hj].
    rewrite depth_entries. cbn [length]. lia.
Qed.

End TreeShape.


(* ================================================================= *)
(** ** The diagnostics only grow *)

Module SinkFacts.
Import Js Regex Effects Patterns Lines Tree Nodes Parser Shapes Reference.

Lemma extends_refl this : extends this this.
Proof. split; exists []; rewrite app_nil_r; reflexivity. Qed.

Lemma extends_trans a b c : extends a b -> extends b c -> extends a c.
Proof.
  intros [[e1 E1] [w1 W1]] [[e2 E2] [w2 W2]]. split.
  - exists (e1 ++ e2). rewrite E2, E1, app_assoc. reflexivity.
  - exists (w1 ++ w2). rewrite W2, W1, app_assoc. reflexivity.
Qed.

Lemma grows_ret {A} (a : A) : grows (ret a).
Proof. intros this r this' H. inversion H; subst. apply extends_refl. Qed.

Lemma grows_lift {A} (x : result A) : grows (lift x).
Proof. intros this r this' H. inversion H; subst. apply extends_refl. Qed.

Lemma grows_throw {A} e : grows (@throw A e).
Proof. intros this r this' H. inversion H; subst. apply extends_refl. Qed.

Lemma grows_push_error e : grows (push_error e).
Proof.
  intros this r this' H. inversion H; subst. split; cbn.
  - exists [e]. reflexivity.
  - exists []. rewrite app_nil_r. reflexivity.
Qed.

Lemma grows_push_warning e : grows (push_warning e).
Proof.
  intros this r this' H. inversion H; subst. split; cbn.
  - exists []. rewrite app_nil_r. reflexivity.
  - exists [e]. reflexivity.
Qed.

Lemma grows_bind {A B} (x : M A) (f : A -> M B) :
  grows x -> (forall a, grows (f a)) -> grows (bind x f).
Proof.
  intros Hx Hf this r this' H. unfold bind in H.
  destruct (x this) as [[a | e] this1] eqn:E.
  - eapply extends_trans; [eapply Hx, E | eapply Hf, H].
  - inversion H; subst. eapply Hx, E.
Qed.

Lemma grows_for_of {A S} (xs : list A) (body : A -> S -> M S) :
  (forall x s, grows (body x s)) -> forall s, grows (for_of xs body s).
Proof.
  intro Hb. induction xs as [|x xs IH]; intro s; cbn [for_of].
  - apply grows_ret.
  - apply grows_bind; [apply Hb | exact IH].
Qed.

Lemma grows_map_m {A B} (f : A -> M B) xs :
  (forall x, grows (f x)) -> grows (map_m f xs).
Proof.
  intro Hf. induction xs as [|x xs IH]; cbn [map_m].
  - apply grows_ret.
  - apply grows_bind; [apply Hf|]. intro y.
    apply grows_bind; [exact IH|]. intro ys. apply grows_ret.
Qed.

Ltac grow :=
  repeat first
    [ apply grows_ret | apply grows_lift | apply grows_throw
    | apply grows_push_error | apply grows_push_warning
    | apply grows_bind; [|intro]
    | apply grows_for_of; intros
    | apply grows_map_m; intro
    | match goal with
      | |- grows (if ?b then _ else _) => destruct b
      | |- grows (match ?o with Some _ => _ | None => _ end) => destruct o
      | |- grows (match ?e with Line _ => _ | HeadLine _ _ => _ end) => destruct e
      | |- grows (match ?p with pair _ _ => _ end) => destruct p
      end ].

Section Methods.
Variable B : Builder.

Lemma grows_parse_property element properties :
  grows (parse_property B element properties).
Proof.
  unfold parse_property, parse_lang, parse_flag, parse_author, parse_date.
  grow.
Qed.

Lemma grows_parse_properties elements : grows (parse_properties B elements).
Proof.
  unfold parse_properties, parse_properties_loop. grow.
  apply grows_parse_property.
Qed.

Lemma grows_parse_contents elements : grows (parse_contents B elements).
Proof. unfold parse_contents. grow. Qed.

Lemma grows_parse_word l children : grows (parse_word B l children).
Proof.
  unfold parse_word, parse_top_children, parse_extended. grow.
  apply grows_parse_property.
Qed.

Lemma grows_parse dv6 : grows (parse B dv6).
Proof.
  unfold parse, parse_toplevel, parse_toplevel_element. grow.
  apply grows_parse_property.
Qed.

End Methods.

End SinkFacts.


(* ================================================================= *)
(** ** More facts about the parser methods *)

Module MethodFacts.
Import Js Regex Effects Patterns Lines Tree Nodes Parser Shapes Reference.
Import RegexFacts PatternFacts ArrayFacts EffectFacts.

Section Generic.
Variable B : Builder.

(** The loop of parse_contents never pushes to [contents]. *)
Lemma parse_contents_loop elements : forall this,
  for_of elements
    (fun element (contents : list (node B)) =>
       match str_match (content (line_of element)) content_re with
       | Some result => ret contents
       | None =>
         push_error
           (error (line_of element) (js "内容は(記号)(空白)(内容)であるべきです")) ;;
         ret contents
       end)
    [] this
  = (Ok [],
     mkParser
       (errors this
        ++ map (fun element =>
                  error (line_of element) (js "内容は(記号)(空白)(内容)であるべきです"))
             (filter (fun element => negb (test content_re (content (line_of element))))
                elements))
       (warnings this)).
Proof.
  induction elements as [|element elements IH]; intro this.
  - cbn [for_of filter map]. rewrite app_nil_r. destruct this. reflexivity.
  - cbn [for_of filter]. unfold bind at 1. unfold test, str_match.
    destruct (exec content_re (content (line_of element))); cbn [negb].
    + cbn [ret]. apply IH.
    + unfold bind at 1. cbn [push_error ret]. rewrite IH.
      cbn [errors warnings map]. rewrite <- app_assoc. reflexivity.
Qed.

(** The callbacks of parse_toplevel on children none of which is a word
    head. *)
Lemma map_toplevel_no_heads children : word_heads children = [] ->
  forall this,
  map_m (parse_toplevel_element B) children this
  = (Ok (map (fun _ => None) children),
     mkParser
       (errors this
        ++ map (fun element => error (line_of element) (js "単語の内容がありません"))
             (filter (fun element => is_word (line_of element)) children))
       (warnings this)).
Proof.
  induction children as [|element children IH]; intros H this.
  - cbn [map_m map filter]. rewrite app_nil_r. destruct this. reflexivity.
  - unfold word_heads in H. cbn [flat_map] in H. cbn [map_m map filter].
    unfold bind at 1. unfold parse_toplevel_element.
    destruct element as [l | l ch]; cbn [line_of] in *.
    + destruct (is_word l).
      * unfold bind at 1. cbn [push_error ret]. unfold bind at 1.
        rewrite (IH H). cbn [ret errors warnings map].
        rewrite <- app_assoc. reflexivity.
      * cbn [ret]. unfold bind at 1. rewrite (IH H). reflexivity.
    + destruct (is_word l); [discriminate|].
      cbn [ret]. unfold bind at 1. rewrite (IH H). reflexivity.
Qed.

Lemma filter_defined_none {A C} (xs : list C) :
  @filter_defined A (map (fun _ => None) xs) = [].
Proof. induction xs as [|x xs IH]; [reflexivity | exact IH]. Qed.

(** The match of the property pattern, as the switch reads it. *)
Lemma property_line_match l x ws v :
  content l = (x :: ws) ++ js ":" ++ v ->
  alpha x = true -> forallb word_char ws = true -> forallb dot v = true ->
  exists result,
    str_match (content l) property_re = Some result
    /\ sub result 1 = x :: ws /\ sub result 2 = v.
Proof.
  intros Hl Hx Hws Hv. unfold str_match. rewrite Hl.
  rewrite (property_re_line x ws v Hx Hws Hv).
  eexists. split; [reflexivity|]. split; reflexivity.
Qed.

(** A content that does not begin with a letter does not match. *)
Lemma property_re_first s :
  match s with x :: _ => alpha x = false | [] => True end ->
  exec property_re s = None.
Proof.
  intro H. unfold property_re. rewrite exec_start. unfold match_here.
  rewrite m_seq, m_start, m_seq, m_group, m_seq.
  destruct s as [|x t]; [reflexivity|]. rewrite m_char_false by exact H.
  reflexivity.
Qed.

End Generic.

(** /^(\w+):(.+)$/ on lang:text *)
Lemma lang_re_line x ws y t :
  word_char x = true -> forallb word_char ws = true ->
  dot y = true -> forallb dot t = true ->
  exec lang_re ((x :: ws) ++ js ":" ++ y :: t)
  = Some (MatchResult 0 ((x :: ws) ++ js ":" ++ y :: t)
            [(2, y :: t); (1, x :: ws)]).
Proof.
  intros Hx Hws Hy Ht. unfold lang_re. rewrite exec_start. unfold match_here.
  change (js ":" ++ y :: t) with (58 :: y :: t)%N. cbn [app].
  rewrite m_seq, m_start, m_seq, m_group. unfold Plus. rewrite m_seq.
  rewrite m_char_true by exact Hx.
  erewrite m_star_greedy_until; [ | exact Hws | reflexivity | ].
  2:{ cbv beta. rewrite m_seq. unfold lit. rewrite m_char_true by reflexivity.
      rewrite m_seq, m_group, m_seq, m_char_true by exact Hy.
      rewrite m_star_to_end by reflexivity.
      rewrite Ht. cbv beta. rewrite m_end_nil. reflexivity. }
  do 2 f_equal.
  - apply firstn_whole.
  - rewrite firstn_whole. cbv [set_capture]. cbn [filter fst Nat.eqb negb].
    do 3 f_equal. exact (firstn_prefix (x :: ws) (58%N :: y :: t)).
Qed.

(** Without a colon there is no match. *)
Lemma m_star_never {A} (k : continuation A) p v :
  (forall pos x r c, (58 =? x)%N = false -> k pos (x :: r) c = None) ->
  (forall pos c, k pos [] c = None) ->
  forallb (fun x => negb (58 =? x)%N) v = true ->
  forall pos c, m (Star true (Char p)) k pos v c = None.
Proof.
  intros Hk Hnil. induction v as [|x v IH]; intros Hv pos c.
  - rewrite m_star_char_nil. apply Hnil.
  - cbn [forallb] in Hv. apply andb_prop in Hv as [Hx Hv].
    apply negb_true_iff in Hx.
    rewrite m_star_char_cons. cbv zeta. rewrite (IH Hv), (Hk _ _ _ _ Hx).
    destruct (p x); reflexivity.
Qed.

Lemma lang_re_no_colon v :
  forallb (fun x => negb (58 =? x)%N) v = true -> exec lang_re v = None.
Proof.
  intro Hv. unfold lang_re. rewrite exec_start. unfold match_here.
  rewrite m_seq, m_start, m_seq, m_group. unfold Plus. rewrite m_seq.
  destruct v as [|x v]; [reflexivity|].
  cbn [forallb] in Hv. apply andb_prop in Hv as [_ Hv].
  rewrite m_char_cons. destruct (word_char x); [|reflexivity].
  apply m_star_never; [ | | exact Hv].
  - intros pos y r c Hy. cbv beta. rewrite m_seq. unfold lit.
    rewrite m_char_cons. change (N_of_ascii ":") with 58%N. rewrite Hy.
    reflexivity.
  - intros pos c. reflexivity.
Qed.

(** slice(start, length) is slice(start). *)
Lemma slice_to_length {A} (l : list A) start :
  slice l start (Z.of_nat (length l)) = slice_from l start.
Proof.
  unfold slice, slice_from.
  set (k := relative_index (length l) start).
  assert (F : relative_index (length l) (Z.of_nat (length l)) = length l).
  { unfold relative_index.
    destruct (Z.of_nat (length l) <? 0)%Z eqn:E; [apply Z.ltb_lt in E; lia|].
    rewrite Nat2Z.id. apply Nat.min_id. }
  rewrite F. apply firstn_all2. rewrite length_skipn. lia.
Qed.

(** Children none of which begins with #. *)
Lemma word_heads_none children :
  (forall c, In c children -> is_word (line_of c) = false) ->
  word_heads children = []
  /\ filter (fun element => is_word (line_of element)) children = [].
Proof.
  induction children as [|c children IH]; intro W; [split; reflexivity|].
  destruct IH as [IH1 IH2]; [intros c' Hc'; apply W; right; exact Hc'|].
  pose proof (W c (or_introl eq_refl)) as Wc.
  unfold word_heads in *. cbn [flat_map filter]. rewrite Wc, IH1, IH2.
  destruct c as [l | l ch]; cbn [line_of] in Wc; [|rewrite Wc];
    split; reflexivity.
Qed.

End MethodFacts.


(* ================================================================= *)
(** ** The cases of the switch of parse_properties *)

Module SwitchFacts.
Import Js Regex Effects Patterns Lines Tree Nodes Parser Shapes Reference.
Import RegexFacts PatternFacts ArrayFacts EffectFacts SplitFacts MethodFacts.

Section Generic.
Variable B : Builder.

(** A loop whose body only computes. *)
Lemma for_of_pure {A S} (f : S -> A -> S) xs : forall s this,
  for_of xs (fun x s => ret (f s x)) s this = (Ok (fold_left f xs s), this).
Proof.
  induction xs as [|x xs IH]; intros s this; [reflexivity|].
  cbn [for_of fold_left]. unfold bind at 1. cbn [ret]. apply IH.
Qed.

Lemma fold_left_snoc {A C} (f : A -> C) xs : forall acc,
  fold_left (fun acc x => acc ++ [f x]) xs acc = acc ++ map f xs.
Proof.
  induction xs as [|x xs IH]; intro acc; cbn [fold_left map].
  - symmetry. apply app_nil_r.
  - rewrite IH, <- app_assoc. reflexivity.
Qed.

Lemma includes_false names name :
  includes names name = false ->
  forall n, In n names -> jseqb name n = false.
Proof.
  unfold includes. intros H n Hn.
  destruct (jseqb name n) eqn:E; [|reflexivity].
  rewrite <- H. symmetry. apply existsb_exists. exists n. split; assumption.
Qed.

(** An identifier that is none of the ten case labels. *)
Lemma parse_property_unknown l x ws v properties this :
  content l = (x :: ws) ++ js ":" ++ v ->
  alpha x = true -> forallb word_char ws = true -> forallb dot v = true ->
  includes property_names (x :: ws) = false ->
  parse_property B (Line l) properties this
  = (Ok properties,
     mkParser (errors this)
       (warnings this ++ [error l (js "未知のプロパティ指定があります")])).
Proof.
  intros Hl Hx Hws Hv Hn.
  destruct (property_line_match l x ws v Hl Hx Hws Hv) as (res & E & E1 & E2).
  unfold parse_property. rewrite E. cbv zeta. rewrite E1.
  pose proof (includes_false _ _ Hn) as F.
  rewrite !F by (cbn; tauto). reflexivity.
Qed.

(** The loop of case 'pos'. *)
Lemma parse_pos_items v properties this :
  for_of (split v comma_re)
    (fun pos properties => ret (properties ++ [text_node B "pos" pos]))
    properties this
  = (Ok (properties ++ map (text_node B "pos") (split_on 44 v)), this).
Proof.
  rewrite (for_of_pure (fun properties pos => properties ++ [text_node B "pos" pos])).
  rewrite (fold_left_snoc (text_node B "pos")). unfold comma_re, lit.
  rewrite (split_char (N_of_ascii ",") v). reflexivity.
Qed.

(** The loop over the dates of case 'author'. *)
Lemma author_dates_loop l dates : forall author this,
  for_of dates
    (fun date author =>
       if test author_date_re date then
         ret (author_push B author (text_node B "date" date))
       else
         push_error
           (error l (js "日付書式が間違っています[" ++ date ++ js "]")) ;;
         throw (ThrownNumber 1))
    author this
  = match find (fun date => negb (test author_date_re date)) dates with
    | None =>
      (Ok (fold_left (author_push B) (map (text_node B "date") dates) author), this)
    | Some date =>
      (Throw (ThrownNumber 1),
       mkParser
         (errors this
          ++ [error l (js "日付書式が間違っています[" ++ date ++ js "]")])
         (warnings this))
    end.
Proof.
  induction dates as [|date dates IH]; intros author this; [reflexivity|].
  cbn [for_of find map fold_left]. unfold bind at 1.
  destruct (test author_date_re date); cbn [negb].
  - cbn [ret]. apply IH.
  - reflexivity.
Qed.

End Generic.

End SwitchFacts.


(* ================================================================= *)
(** ** Case 'author' *)

Module AuthorFacts.
Import Js Regex Effects Patterns Lines Tree Nodes Parser Shapes Reference.
Import RegexFacts PatternFacts ArrayFacts EffectFacts SplitFacts MethodFacts
  SwitchFacts.

Lemma split_comma v : split v comma_re = split_on 44 v.
Proof. exact (split_char 44 v). Qed.

Lemma split_semicolon v : split v semicolon_re = split_on 59 v.
Proof. exact (split_char 59 v). Qed.

Section Generic.
Variable B : Builder.

Lemma for_of_push kind items : forall author this,
  for_of items
    (fun item author => ret (author_push B author (text_node B kind item)))
    author this
  = (Ok (fold_left (author_push B) (map (text_node B kind) items) author), this).
Proof.
  induction items as [|item items IH]; intros author this; [reflexivity|].
  cbn [for_of map fold_left]. unfold bind at 1. cbn [ret]. apply IH.
Qed.

(** More than four fields. *)
Lemma parse_author_too_many l v properties this :
  4 < length (split_on 44 v) ->
  parse_author B l v properties this
  = (Ok properties,
     mkParser (errors this ++ [error l (js "authorプロパティの書式が正しくありません")])
       (warnings this)).
Proof.
  intro H. unfold parse_author. cbv zeta. rewrite split_comma.
  replace (length (split_on 44 v) <=? 4) with false
    by (symmetry; apply Nat.leb_gt; exact H).
  reflexivity.
Qed.

(** An operation other than A, R and I. *)
Lemma parse_author_operation l v operation more properties this :
  split_on 44 v = operation :: more -> length more <= 3 ->
  includes [js "A"; js "R"; js "I"] operation = false ->
  parse_author B l v properties this
  = (Ok properties,
     mkParser (errors this ++ [error l (js "authorの処理内容はA,R,Iのみです")])
       (warnings this)).
Proof.
  intros Hs Hlen Hop. unfold parse_author. cbv zeta. rewrite split_comma, Hs.
  replace (length (operation :: more) <=? 4) with true
    by (symmetry; apply Nat.leb_le; cbn [length]; lia).
  cbn [nth_error]. rewrite Hop. reflexivity.
Qed.

(** Fewer than three fields. *)
Lemma parse_author_missing l v operation more properties this :
  split_on 44 v = operation :: more -> length more <= 1 ->
  includes [js "A"; js "R"; js "I"] operation = true ->
  parse_author B l v properties this
  = (Throw (TypeError
              (match more with
               | [] => js "dates_str.split"
               | _ => js "names_str.split"
               end)), this).
Proof.
  intros Hs Hlen Hop. unfold parse_author. cbv zeta. rewrite split_comma, Hs.
  replace (length (operation :: more) <=? 4) with true
    by (symmetry; apply Nat.leb_le; cbn [length]; lia).
  cbn [nth_error]. rewrite Hop. cbn [negb].
  destruct more as [|dates [|names more]]; [reflexivity | reflexivity |].
  cbn [length] in Hlen. lia.
Qed.

(** Three or four fields and a known operation. *)
Lemma parse_author_fields l v operation dates_str names_str more properties this :
  split_on 44 v = operation :: dates_str :: names_str :: more ->
  length more <= 1 ->
  includes [js "A"; js "R"; js "I"] operation = true ->
  parse_author B l v properties this
  = match find (fun date => negb (test author_date_re date))
            (split_on 59 dates_str) with
    | None =>
      (Ok (properties
           ++ [author_node B operation (split_on 59 dates_str)
                 (split_on 59 names_str) (author_sources more)]),
       this)
    | Some date =>
      (Throw (ThrownNumber 1),
       mkParser
         (errors this
          ++ [error l (js "日付書式が間違っています[" ++ date ++ js "]")])
         (warnings this))
    end.
Proof.
  intros Hs Hlen Hop. unfold parse_author. cbv zeta. rewrite split_comma, Hs.
  replace (length (operation :: dates_str :: names_str :: more) <=? 4) with true
    by (symmetry; apply Nat.leb_le; cbn [length]; lia).
  cbn [nth_error]. rewrite Hop. cbn [negb access].
  unfold bind at 1. cbn [lift]. unfold bind at 1. cbn [lift].
  unfold bind at 1. rewrite author_dates_loop, !split_semicolon.
  destruct (find _ (split_on 59 dates_str)); [reflexivity|].
  unfold bind at 1. rewrite for_of_push.
  unfold bind at 1. rewrite for_of_push. cbn [ret].
  unfold author_node. rewrite !fold_left_app.
  destruct more as [|[|x s] more]; cbn [author_sources]; try reflexivity.
  rewrite split_semicolon. reflexivity.
Qed.

End Generic.

End AuthorFacts.


(* ================================================================= *)
(** ** The exceptions of the methods *)

Module ThrowFacts.
Import Js Regex Effects Patterns Lines Tree Nodes Parser Shapes Reference.
Import RegexFacts PatternFacts LineFacts ArrayFacts EffectFacts SplitFacts
  SplitterFacts TreeFacts.

Lemma throws_ret {A} allowed (a : A) : throws_only allowed (ret a).
Proof. intros this e this' H. discriminate. Qed.

Lemma throws_lift {A} allowed (x : result A) :
  (forall e, x = Throw e -> In e allowed) -> throws_only allowed (lift x).
Proof. intros Hx this e this' H. inversion H; subst. apply Hx. reflexivity. Qed.

Lemma throws_throw {A} allowed e : In e allowed -> throws_only allowed (@throw A e).
Proof. intros He this e' this' H. inversion H; subst. exact He. Qed.

Lemma throws_push_error allowed e : throws_only allowed (push_error e).
Proof. intros this e' this' H. discriminate. Qed.

Lemma throws_push_warning allowed e : throws_only allowed (push_warning e).
Proof. intros this e' this' H. discriminate. Qed.

Lemma throws_bind {A B} allowed (x : M A) (f : A -> M B) :
  throws_only allowed x -> (forall a, throws_only allowed (f a)) ->
  throws_only allowed (bind x f).
Proof.
  intros Hx Hf this e this' H. unfold bind in H.
  destruct (x this) as [[a | e'] this1] eqn:E.
  - eapply Hf, H.
  - inversion H; subst. eapply Hx, E.
Qed.

Lemma throws_for_of {A S} allowed (xs : list A) (body : A -> S -> M S) :
  (forall x s, throws_only allowed (body x s)) ->
  forall s, throws_only allowed (for_of xs body s).
Proof.
  intro Hb. induction xs as [|x xs IH]; intro s; cbn [for_of].
  - apply throws_ret.
  - apply throws_bind; [apply Hb | exact IH].
Qed.

Lemma throws_map_m {A B} allowed (f : A -> M B) xs :
  (forall x, throws_only allowed (f x)) -> throws_only allowed (map_m f xs).
Proof.
  intro Hf. induction xs as [|x xs IH]; cbn [map_m].
  - apply throws_ret.
  - apply throws_bind; [apply Hf|]. intro y.
    apply throws_bind; [exact IH|]. intro ys. apply throws_ret.
Qed.

Lemma throws_weaken {A} allowed allowed' (x : M A) :
  incl allowed allowed' -> throws_only allowed x -> throws_only allowed' x.
Proof. intros Hi Hx this e this' H. apply Hi. eapply Hx, H. Qed.

Lemma access_throw {A} (o : option A) what e :
  access o what = Throw e -> e = TypeError (js what).
Proof. destruct o; [discriminate|]. intro H. inversion H. reflexivity. Qed.

Ltac quiet :=
  repeat first
    [ apply throws_ret | apply throws_push_error | apply throws_push_warning
    | apply throws_bind; [|intro]
    | apply throws_for_of; intros
    | apply throws_map_m; intro
    | match goal with
      | |- throws_only _ (if ?b then _ else _) => destruct b
      | |- throws_only _ (match ?o with Some _ => _ | None => _ end) => destruct o
      | |- throws_only _ (match ?e with Line _ => _ | HeadLine _ _ => _ end) =>
        destruct e
      | |- throws_only _ (match ?p with pair _ _ => _ end) => destruct p
      end ].

Section Generic.
Variable B : Builder.

Lemma throws_parse_lang name message l value properties :
  throws_only [] (parse_lang B name message l value properties).
Proof. unfold parse_lang. quiet. Qed.

Lemma throws_parse_flag l value properties :
  throws_only [] (parse_flag B l value properties).
Proof. unfold parse_flag. quiet. Qed.

Lemma throws_parse_author l value properties :
  throws_only author_exceptions (parse_author B l value properties).
Proof.
  unfold parse_author. cbv zeta.
  destruct (_ <=? 4); [|quiet].
  destruct (nth_error _ 0); [|quiet].
  destruct (negb _); [quiet|].
  apply throws_bind.
  { apply throws_lift. intros e H. apply access_throw in H. subst e.
    left. reflexivity. }
  intro dates_str. apply throws_bind.
  { apply throws_lift. intros e H. apply access_throw in H. subst e.
    right. left. reflexivity. }
  intro names_str. apply throws_bind.
  { apply throws_for_of. intros date author.
    destruct (test author_date_re date); [apply throws_ret|].
    apply throws_bind; [apply throws_push_error|]. intros _.
    apply throws_throw. right. right. left. reflexivity. }
  intro author. quiet.
Qed.

Lemma throws_parse_date name pattern l value properties :
  throws_only [ReferenceError (js "date")]
    (parse_date B name pattern l value properties).
Proof.
  unfold parse_date. apply throws_bind.
  - apply throws_lift. intros e H. inversion H. left. reflexivity.
  - intro date. quiet.
Qed.

Lemma throws_nil {A} (x : M A) this e this' :
  throws_only [] x -> x this = (Throw e, this') -> False.
Proof. intros Hx H. exact (Hx this e this' H). Qed.

(** A property line throws in the cases author, valid and expire only. *)
Lemma parse_property_throw element properties this e this' :
  parse_property B element properties this = (Throw e, this') ->
  exists l result,
    element = Line l
    /\ str_match (content l) property_re = Some result
    /\ In (sub result 1) [js "author"; js "valid"; js "expire"]
    /\ In e property_exceptions.
Proof.
  unfold parse_property. destruct element as [l | l ch].
  2:{ intro H. exfalso. revert H. apply throws_nil. quiet. }
  destruct (str_match (content l) property_re) as [result|] eqn:E.
  2:{ intro H. exfalso. revert H. apply throws_nil. quiet. }
  cbv zeta. intro H.
  destruct (jseqb (sub result 1) (js "yomi"));
    [exfalso; revert H; apply throws_nil; quiet|].
  destruct (jseqb (sub result 1) (js "qyomi"));
    [exfalso; revert H; apply throws_nil; quiet|].
  destruct (jseqb (sub result 1) (js "spell"));
    [exfalso; revert H; apply throws_nil, throws_parse_lang|].
  destruct (jseqb (sub result 1) (js "pron"));
    [exfalso; revert H; apply throws_nil, throws_parse_lang|].
  destruct (jseqb (sub result 1) (js "pos"));
    [exfalso; revert H; apply throws_nil; quiet|].
  destruct (jseqb (sub result 1) (js "dir"));
    [exfalso; revert H; apply throws_nil; quiet|].
  destruct (jseqb (sub result 1) (js "flag"));
    [exfalso; revert H; apply throws_nil, throws_parse_flag|].
  exists l, result. split; [reflexivity|]. split; [exact E|].
  destruct (jseqb (sub result 1) (js "author")) eqn:Ea.
  { apply jseqb_eq in Ea. split; [left; symmetry; exact Ea|].
    right. eapply throws_parse_author, H. }
  destruct (jseqb (sub result 1) (js "valid")) eqn:Ev.
  { apply jseqb_eq in Ev. split; [right; left; symmetry; exact Ev|].
    apply throws_parse_date in H. destruct H as [H | []]. left. exact H. }
  destruct (jseqb (sub result 1) (js "expire")) eqn:Ee.
  { apply jseqb_eq in Ee. split; [right; right; left; symmetry; exact Ee|].
    apply throws_parse_date in H. destruct H as [H | []]. left. exact H. }
  exfalso. revert H. apply throws_nil. quiet.
Qed.

Lemma throws_parse_property element properties :
  throws_only property_exceptions (parse_property B element properties).
Proof.
  intros this e this' H. apply parse_property_throw in H.
  destruct H as (_ & _ & _ & _ & _ & H). exact H.
Qed.

Lemma throws_parse_word l children :
  throws_only word_exceptions (parse_word B l children).
Proof.
  unfold parse_word. apply throws_bind.
  { apply throws_lift. intros e H. apply access_throw in H. subst e.
    left. reflexivity. }
  intro name_result. apply throws_bind; [|intro; quiet].
  apply (throws_weaken property_exceptions); [apply incl_tl, incl_refl|].
  unfold parse_top_children, parse_properties, parse_properties_loop,
    parse_contents, parse_extended. cbv zeta.
  apply throws_bind; [|intro].
  { apply throws_bind; [|intro; apply throws_ret].
    apply throws_for_of. intros. apply throws_parse_property. }
  quiet.
Qed.

Lemma throws_bind_lift {A C} allowed (x : result A) (f : A -> M C) :
  (forall e, x = Throw e -> In e allowed) ->
  (forall a, x = Ok a -> throws_only allowed (f a)) ->
  throws_only allowed (bind (lift x) f).
Proof.
  intros Hx Hf this e this' H. unfold bind, lift in H.
  destruct x as [a | e'].
  - eapply Hf; [reflexivity | exact H].
  - inversion H; subst. apply Hx. reflexivity.
Qed.

(** Every exception of parse. *)
Lemma throws_parse dv6 : throws_only parse_exceptions (parse B dv6).
Proof.
  unfold parse. apply throws_bind_lift.
  { intros e H. rewrite dv6_to_lines_outcome in H.
    destruct (no_jump _); [discriminate|]. inversion H. left. reflexivity. }
  intros lines _. apply throws_bind_lift.
  { intros e H. unfold flat_to_structured_lines in H.
    destruct (flat_to_structured_loop lines (Entries [] [])) as [st|e'] eqn:E;
      [discriminate|].
    inversion H; subst. apply loop_throw in E. subst e.
    right. left. reflexivity. }
  intros structured_lines Hs.
  apply flat_to_structured_lines_defined in Hs as [structure ->].
  unfold parse_toplevel. apply throws_bind_lift; [discriminate|].
  intros structure' _. apply throws_bind; [|intro; apply throws_ret].
  apply throws_map_m. intro element. unfold parse_toplevel_element.
  apply (throws_weaken word_exceptions); [apply incl_tl, incl_tl, incl_refl|].
  destruct (is_word _); [|apply throws_ret].
  destruct element as [l | l children]; [quiet|].
  apply throws_bind; [apply throws_parse_word | intro; apply throws_ret].
Qed.

End Generic.

End ThrowFacts.


(* ================================================================= *)
(** ** Facts about DV6Element.to_xml_object *)

Module SerializationFacts.
Import Js Nodes Serialization.

(** Induction on an element with the hypothesis on every child. *)
Lemma DV6Element_children_ind (P : DV6Element -> Prop) :
  (forall name properties children,
      Forall P children -> P (Element name properties children)) ->
  (forall s, P (Text s)) ->
  forall e, P e.
Proof.
  intros HE HT. fix IH 1. intros [name properties children | s]; [|apply HT].
  apply HE. induction children as [|c children IHc]; constructor;
    [apply IH | exact IHc].
Qed.

Lemma attributes_inj (p1 : list (jsstring * jsstring)) : forall p2,
  map (fun kv => (fst kv, XString (snd kv))) p1
  = map (fun kv => (fst kv, XString (snd kv))) p2 ->
  p1 = p2.
Proof.
  induction p1 as [|[k1 v1] p1 IH]; intros [|[k2 v2] p2] H;
    try discriminate; [reflexivity|].
  cbn [map fst snd] in H. inversion H; subst. f_equal. apply IH. assumption.
Qed.

Lemma to_xml_object_inj e1 : forall e2,
  to_xml_object e1 = to_xml_object e2 -> e1 = e2.
Proof.
  induction e1 as [n1 p1 c1 IH | s1] using DV6Element_children_ind;
    intros [n2 p2 c2 | s2] H; cbn [to_xml_object] in H; try discriminate.
  - inversion H as [[Hn Hc]]. apply app_inj_tail in Hc as [Hc Hp].
    inversion Hp as [Hp']. apply attributes_inj in Hp'. subst p2. f_equal.
    clear H Hp. revert c2 Hc.
    induction IH as [|c c1 Hc1 _ IHc]; intros [|c' c2] Hc; try discriminate;
      [reflexivity|].
    cbn [map] in Hc. inversion Hc as [[Hh Ht]].
    f_equal; [apply Hc1, Hh | apply IHc, Ht].
  - inversion H. reflexivity.
Qed.

End SerializationFacts.


(* ================================================================= *)
(** ** Where each property line goes in the switch *)

Module CaseFacts.
Import Js Regex Effects Patterns Lines Tree Nodes Parser Shapes Reference.
Import RegexFacts PatternFacts ArrayFacts EffectFacts MethodFacts.

Lemma word_char_dot x : word_char x = true -> dot x = true.
Proof.
  unfold word_char, alpha, digit, in_range, dot, line_terminator. intro H.
  destruct (x =? 10)%N eqn:E1; [apply N.eqb_eq in E1; subst x; discriminate H|].
  destruct (x =? 13)%N eqn:E2; [apply N.eqb_eq in E2; subst x; discriminate H|].
  destruct (x =? 8232)%N eqn:E3; [apply N.eqb_eq in E3; subst x; discriminate H|].
  destruct (x =? 8233)%N eqn:E4; [apply N.eqb_eq in E4; subst x; discriminate H|].
  reflexivity.
Qed.

Lemma forallb_word_dot s : forallb word_char s = true -> forallb dot s = true.
Proof.
  induction s as [|x s IH]; [reflexivity|]. cbn [forallb]. intro H.
  apply andb_prop in H as [Hx Hs]. rewrite (word_char_dot x Hx), (IH Hs).
  reflexivity.
Qed.

Ltac switch x ws Hl Hv :=
  unfold parse_property, str_match; rewrite Hl;
  match goal with
  | |- context [exec property_re ?s] =>
    let E := fresh "E" in
    assert (E : exec property_re s
                = Some (MatchResult 0 s [(2, _); (1, x :: ws)]))
      by exact (property_re_line x ws _ eq_refl eq_refl Hv);
    rewrite E
  end;
  reflexivity.

Section Generic.
Variable B : Builder.

Lemma parse_property_yomi l v properties :
  content l = js "yomi:" ++ v -> forallb dot v = true ->
  parse_property B (Line l) properties = ret (properties ++ [text_node B "yomi" v]).
Proof. intros Hl Hv. switch 121%N [111; 109; 105]%N Hl Hv. Qed.

Lemma parse_property_qyomi l v properties :
  content l = js "qyomi:" ++ v -> forallb dot v = true ->
  parse_property B (Line l) properties = ret (properties ++ [text_node B "qyomi" v]).
Proof. intros Hl Hv. switch 113%N [121; 111; 109; 105]%N Hl Hv. Qed.

Lemma parse_property_spell l v properties :
  content l = js "spell:" ++ v -> forallb dot v = true ->
  parse_property B (Line l) properties
  = parse_lang B "spell" "spellプロパティの書式が正しくありません" l v properties.
Proof. intros Hl Hv. switch 115%N [112; 101; 108; 108]%N Hl Hv. Qed.

Lemma parse_property_pron l v properties :
  content l = js "pron:" ++ v -> forallb dot v = true ->
  parse_property B (Line l) properties
  = parse_lang B "pron" "pronプロパティの書式が正しくありません" l v properties.
Proof. intros Hl Hv. switch 112%N [114; 111; 110]%N Hl Hv. Qed.

Lemma parse_property_pos l v properties :
  content l = js "pos:" ++ v -> forallb dot v = true ->
  parse_property B (Line l) properties
  = for_of (split v comma_re)
      (fun pos properties => ret (properties ++ [text_node B "pos" pos]))
      properties.
Proof. intros Hl Hv. switch 112%N [111; 115]%N Hl Hv. Qed.

Lemma parse_property_flag l v properties :
  content l = js "flag:" ++ v -> forallb dot v = true ->
  parse_property B (Line l) properties = parse_flag B l v properties.
Proof. intros Hl Hv. switch 102%N [108; 97; 103]%N Hl Hv. Qed.

Lemma parse_property_author l v properties :
  content l = js "author:" ++ v -> forallb dot v = true ->
  parse_property B (Line l) properties = parse_author B l v properties.
Proof. intros Hl Hv. switch 97%N [117; 116; 104; 111; 114]%N Hl Hv. Qed.

(** The two outcomes of case 'spell' and case 'pron'. *)
Lemma parse_lang_accepts name message l lang text properties this :
  lang <> [] -> forallb word_char lang = true ->
  text <> [] -> forallb dot text = true ->
  parse_lang B name message l (lang ++ js ":" ++ text) properties this
  = (Ok (properties ++ [lang_node B name lang text]), this).
Proof.
  intros Hl Hlang Ht Htext. unfold parse_lang, str_match.
  destruct lang as [|x ws]; [contradiction|].
  destruct text as [|y t]; [contradiction|].
  cbn [forallb] in Hlang, Htext.
  apply andb_prop in Hlang as [Hx Hws]. apply andb_prop in Htext as [Hy Ht'].
  rewrite (lang_re_line x ws y t Hx Hws Hy Ht'). reflexivity.
Qed.

Lemma parse_lang_rejects name message l v properties this :
  forallb (fun x => negb (58 =? x)%N) v = true ->
  parse_lang B name message l v properties this
  = (Ok properties,
     mkParser (errors this ++ [error l (js message)]) (warnings this)).
Proof.
  intro Hv. unfold parse_lang, str_match. rewrite (lang_re_no_colon v Hv).
  reflexivity.
Qed.

End Generic.

End CaseFacts.

(* ================================================================= *)
(** ** The properties of the specification *)

Import Js Regex Effects Patterns Lines Tree Nodes Parser Shapes.
Import RegexFacts PatternFacts LineFacts ArrayFacts EffectFacts ClassifierFacts
  ParserFacts.

(** C1.  The specification asks for a warning on exactly the flags outside
    the known set.  On the line flag:SPL,FOO the parser produces the two
    flag nodes in order, but its only warning is the one for SPL, which is
    in the known set; FOO, which is not, passes silently. *)
Theorem C1_flag_warns_on_known_flag (B : Builder) :
  parse B (js ("#w" ++ LF ++ TAB ++ "flag:SPL,FOO")) new_DV6Parser
  = (Ok [word_node B (js "w")
           (properties_node B
              [text_node B "flag" (js "SPL"); text_node B "flag" (js "FOO")])
           (contents_node B [])],
     mkParser [] [new_Error (js "行1: 未知のフラグ[SPL]があります")]).
Proof. vm_compute. reflexivity. Qed.

(** C2.  The specification asks that a failed validation is recorded and
    the next property line is processed.  An author date of the wrong shape
    is recorded, and then the number 1 is thrown: parse ends there, without
    a result and without reaching the dir line, whose value would have been
    recorded as an error too. *)
Theorem C2_author_date_failure_aborts (B : Builder) :
  parse B (js ("#w" ++ LF ++ TAB ++ "author:A,2020/1/1,Alice" ++ LF ++ TAB ++ "dir:x"))
    new_DV6Parser
  = (Throw (ThrownNumber 1),
     mkParser [new_Error (js "行1: 日付書式が間違っています[2020/1/1]")] []).
Proof. vm_compute. reflexivity. Qed.

(** C3.  The specification asks for a valid node on a value of either shape
    and for an error diagnostic on any other value.  Both kinds of value
    end in a ReferenceError for the identifier date: no node, no
    diagnostic. *)
Theorem C3_valid_throws_reference_error (B : Builder) :
  parse B (js ("#w" ++ LF ++ TAB ++ "valid:2020/01/01")) new_DV6Parser
  = (Throw (ReferenceError (js "date")), new_DV6Parser)
  /\ parse B (js ("#w" ++ LF ++ TAB ++ "valid:soon")) new_DV6Parser
     = (Throw (ReferenceError (js "date")), new_DV6Parser).
Proof. split; vm_compute; reflexivity. Qed.

(** C4.  The specification asks for one failure whose message joins the
    collected messages.  With a line at indent 0 followed by one at indent
    2 the two-level error is collected, and what is thrown is a
    ReferenceError for the identifier erros. *)
Theorem C4_combined_failure_is_reference_error :
  dv6_to_lines (js ("a" ++ LF ++ TAB ++ TAB ++ "b"))
  = Throw (ReferenceError (js "erros")).
Proof. vm_compute. reflexivity. Qed.

(** C5.  The specification asks for one logical line of indent 1 and text
    abcdef.  The splitter returns two lines: the first keeps its backslash
    and is not continued, the second is a line of its own. *)
Theorem C5_continuation_is_not_merged :
  dv6_to_lines (js (TAB ++ "abc\" ++ LF ++ TAB ++ "def"))
  = Ok [mkLine 0 None 1 (js "abc\") None; mkLine 1 None 1 (js "def") None].
Proof. vm_compute. reflexivity. Qed.

(** C6, as stated, fails on the one-line text #word: its only physical
    line, line 1, is recorded with index 0, not 1, and the diagnostic that
    DV6Line.error builds for it names line 0. *)
Lemma C6_first_line_is_not_line_one :
  exists l,
    dv6_to_lines (js "#word") = Ok [l]
    /\ line_index l <> 1
    /\ parse Elements (js "#word") new_DV6Parser
       = (Ok [], mkParser [error l (js "単語の内容がありません")] [])
    /\ message (error l (js "単語の内容がありません"))
       = js "行0: 単語の内容がありません".
Proof.
  exists (mkLine 0 None 0 (js "#word") None).
  split; [vm_compute; reflexivity|].
  split; [discriminate|].
  split; vm_compute; reflexivity.
Qed.

(** C6, amended.  In a text none of whose physical lines ends with a
    backslash, so that no continuation is asked for, the line created for
    a physical line records as line_index the 0-based index of that
    physical line: for the k-th piece of the text between its line breaks,
    counting from 0, the loop ends with a k-th line whose line_index is k,
    whose indent is the number of leading tabs of the piece, whose content
    is the piece after these tabs, and whose last_line_index is not set.
    What the splitter does with a line that ends with a backslash is the
    subject of C5 and is left out here. *)
Theorem C6_line_index_is_zero_based (dv6 : jsstring) (k : nat)
    (raw_line : jsstring) :
  forallb (fun raw => negb (endsWith raw (js "\"))) (split dv6 newline_re) = true ->
  nth_error (split dv6 newline_re) k = Some raw_line ->
  exists s l,
    dv6_to_lines_loop 0 (split dv6 newline_re) (mkSplitter [] [] false) = Ok s
    /\ nth_error (lines s) k = Some l
    /\ line_index l = k
    /\ indent l = leading_tabs raw_line
    /\ content l = skipn (leading_tabs raw_line) raw_line
    /\ last_line_index l = None.
Proof.
  intros _ H.
  destruct (dv6_to_lines_loop_plain (split dv6 newline_re) 0
              (mkSplitter [] [] false) eq_refl) as [errs E].
  cbn [lines app] in E.
  exists (mkSplitter (physical_lines 0 (split dv6 newline_re)) errs false),
    (physical_line k raw_line).
  split; [exact E|]. cbn [lines].
  split; [exact (physical_lines_at _ 0 k raw_line H)|].
  split; [reflexivity|]. split; [reflexivity|]. split; reflexivity.
Qed.

Lemma C6_first_line_example :
  exists s l,
    dv6_to_lines_loop 0 (split (js ("#word" ++ LF ++ TAB ++ "yomi:x")) newline_re)
      (mkSplitter [] [] false)
    = Ok s
    /\ nth_error (lines s) 1 = Some l
    /\ line_index l = 1
    /\ indent l = leading_tabs (js (TAB ++ "yomi:x"))
    /\ content l = skipn (leading_tabs (js (TAB ++ "yomi:x"))) (js (TAB ++ "yomi:x"))
    /\ last_line_index l = None.
Proof.
  apply (C6_line_index_is_zero_based (js ("#word" ++ LF ++ TAB ++ "yomi:x")) 1
           (js (TAB ++ "yomi:x")));
    vm_compute; reflexivity.
Defined.

(** C7.  For a property line dir:v, the loop body appends a dir node
    holding v exactly when v starts with / and does not end with /;
    otherwise it appends nothing and pushes one error.  The value of a
    property line is what (.* ) can match: it has no line terminator. *)
Theorem C7_dir_node_iff_slashes (B : Builder) (l : DV6Line) (v : jsstring)
    (properties : list (node B)) (this : DV6Parser) :
  content l = js "dir:" ++ v ->
  forallb dot v = true ->
  let accepted := (exists t, v = js "/" ++ t) /\ ~ (exists t, v = t ++ js "/") in
  (accepted ->
   parse_property B (Line l) properties this
   = (Ok (properties ++ [text_node B "dir" v]), this))
  /\ (~ accepted ->
      parse_property B (Line l) properties this
      = (Ok properties,
         mkParser
           (errors this
            ++ [error l (js "dirプロパティは/で始まり/でない文字で終わるべきです")])
           (warnings this))).
Proof.
  intros Hl Hv accepted. rewrite (parse_property_dir B l v properties Hl Hv).
  subst accepted. change (js "/") with [47%N].
  pose proof (startsWith_cons v 47%N) as HS.
  pose proof (endsWith_snoc v 47%N) as HE.
  destruct (startsWith v [47%N]); destruct (endsWith v [47%N]);
    cbn [andb negb]; split; intro H; try reflexivity; exfalso;
    intuition congruence.
Qed.

Lemma C7_dir_examples :
  parse_property Elements (Line (new_DV6Line 1 1 (js "dir:/foo/bar"))) [] new_DV6Parser
  = (Ok [Element (js "dir") [] [Text (js "/foo/bar")]], new_DV6Parser)
  /\ parse_property Elements (Line (new_DV6Line 1 1 (js "dir:foo/bar"))) [] new_DV6Parser
     = (Ok [],
        mkParser
          [new_Error (js "行1: dirプロパティは/で始まり/でない文字で終わるべきです")] [])
  /\ parse_property Elements (Line (new_DV6Line 1 1 (js "dir:/foo/bar/"))) [] new_DV6Parser
     = (Ok [],
        mkParser
          [new_Error (js "行1: dirプロパティは/で始まり/でない文字で終わるべきです")] []).
Proof.
  split; [|split].
  - rewrite (proj1 (C7_dir_node_iff_slashes Elements
                      (new_DV6Line 1 1 (js "dir:/foo/bar")) (js "/foo/bar") []
                      new_DV6Parser ltac:(vm_compute; reflexivity)
                      ltac:(vm_compute; reflexivity))).
    + vm_compute. reflexivity.
    + split.
      * exists (js "foo/bar"). vm_compute. reflexivity.
      * intro H. apply (endsWith_snoc (js "/foo/bar") 47%N) in H.
        vm_compute in H. discriminate H.
  - rewrite (proj2 (C7_dir_node_iff_slashes Elements
                      (new_DV6Line 1 1 (js "dir:foo/bar")) (js "foo/bar") []
                      new_DV6Parser ltac:(vm_compute; reflexivity)
                      ltac:(vm_compute; reflexivity))).
    + vm_compute. reflexivity.
    + intros [[t H] _]. vm_compute in H. discriminate H.
  - rewrite (proj2 (C7_dir_node_iff_slashes Elements
                      (new_DV6Line 1 1 (js "dir:/foo/bar/")) (js "/foo/bar/") []
                      new_DV6Parser ltac:(vm_compute; reflexivity)
                      ltac:(vm_compute; reflexivity))).
    + vm_compute. reflexivity.
    + intros [_ H]. apply H. exists (js "/foo/bar"). vm_compute. reflexivity.
Defined.

(** C8.  With c the index where the content region starts and e the index
    where the extended region starts, 0 <= c <= e <= length: the slices
    [0, c), [c, e) and [e, length) that parse_top_children passes on are
    consecutive and make up the children.  When every child looks like a
    property the first slice is the whole list; when no child begins with
    // the last slice is empty. *)
Theorem C8_regions_ordered_and_covering (children : list element) :
  let c := contents_begin_index children in
  let e := extended_begin_index children in
  (0 <= c <= e)%Z
  /\ (e <= Z.of_nat (length children))%Z
  /\ slice children 0 c ++ slice children c e ++ slice_from children e = children
  /\ (forallb (fun element => is_property (line_of element)) children = true ->
      slice children 0 c = children)
  /\ (forallb (fun element => negb (startsWith (content (line_of element)) (js "//")))
        children = true ->
      slice_from children e = []).
Proof.
  intros c e.
  pose proof (contents_begin_index_range children) as Hc.
  pose proof (extended_begin_index_range children) as He.
  pose proof (contents_before_extended children) as Hce.
  fold c in Hc, Hce. fold e in He, Hce.
  split; [lia|]. split; [lia|]. split; [apply slices_cover; lia|]. split.
  - intro H. subst c. unfold contents_begin_index, findIndex.
    rewrite findIndex_from_none.
    + cbn [Z.eqb]. apply slice_whole.
    + rewrite <- H. apply forallb_pointwise. intro x. apply negb_involutive.
  - intro H. subst e. unfold extended_begin_index, findIndex.
    rewrite findIndex_from_none.
    + cbn [Z.eqb]. apply slice_from_length.
    + rewrite <- H. apply forallb_pointwise. intro x.
      rewrite is_extended_startsWith. reflexivity.
Qed.

Lemma C8_all_properties_example :
  let children := [Line (new_DV6Line 1 1 (js "yomi:x")); Line (new_DV6Line 2 1 (js "pos:n"))] in
  slice children 0 (contents_begin_index children) = children
  /\ slice_from children (extended_begin_index children) = [].
Proof.
  intro children.
  destruct (C8_regions_ordered_and_covering children) as (_ & _ & _ & Hp & Hx).
  split; [apply Hp | apply Hx]; vm_compute; reflexivity.
Defined.

(** C9.  Every word that parse returns belongs to one header of the tree,
    in order: it is a word element whose children are three, exactly one
    name child, holding the text after the # of the header, exactly one
    properties child and exactly one contents child. *)
Theorem C9_word_has_name_properties_contents (dv6 : jsstring)
    (this this' : DV6Parser) (words : list DV6Element) :
  parse Elements dv6 this = (Ok words, this') ->
  exists lines structure,
    dv6_to_lines dv6 = Ok lines
    /\ flat_to_structured_lines lines = Ok (Some structure)
    /\ Forall2
         (fun header word =>
            named "word" word = true
            /\ length (children_of word) = 3
            /\ (exists title,
                   content header = js "#" ++ title
                   /\ children_named "name" word
                      = [Element (js "name") [] [Text title]])
            /\ length (children_named "properties" word) = 1
            /\ length (children_named "contents" word) = 1)
         (word_heads (root_children structure)) words.
Proof.
  intro H. apply (parse_ok Elements) in H as (lines & structure & H1 & H2 & H).
  exists lines, structure. split; [exact H1|]. split; [exact H2|].
  eapply Forall2_impl; [|exact H].
  intros header w (title & ps & cs & Ht & ->).
  split; [reflexivity|]. split; [reflexivity|].
  split; [exists title; split; [exact Ht | reflexivity]|].
  split; reflexivity.
Qed.

Lemma C9_word_example :
  exists lines structure,
    dv6_to_lines (js ("#w" ++ LF ++ TAB ++ "yomi:x")) = Ok lines
    /\ flat_to_structured_lines lines = Ok (Some structure)
    /\ Forall2
         (fun header word =>
            named "word" word = true
            /\ length (children_of word) = 3
            /\ (exists title,
                   content header = js "#" ++ title
                   /\ children_named "name" word
                      = [Element (js "name") [] [Text title]])
            /\ length (children_named "properties" word) = 1
            /\ length (children_named "contents" word) = 1)
         (word_heads (root_children structure))
         [Element (js "word") []
            [Element (js "name") [] [Text (js "w")];
             Element (js "properties") [] [Element (js "yomi") [] [Text (js "x")]];
             Element (js "contents") [] []]].
Proof.
  apply (C9_word_has_name_properties_contents
           (js ("#w" ++ LF ++ TAB ++ "yomi:x")) new_DV6Parser new_DV6Parser).
  vm_compute. reflexivity.
Defined.

(** C10.  There is an input, a header line # at indent 0 followed by one
    child line at indent 1, on which parse ends in a TypeError raised by
    the title extraction: no word is returned and both diagnostic arrays
    stay empty. *)
Theorem C10_empty_title_aborts :
  exists dv6 header child,
    dv6_to_lines dv6 = Ok [header; child]
    /\ content header = js "#"
    /\ indent header = 0
    /\ indent child = 1
    /\ str_match (content header) word_name_re = None
    /\ forall B : Builder,
         parse B dv6 new_DV6Parser
         = (Throw (TypeError (js "structure.content.match(...)[1]")),
            mkParser [] []).
Proof.
  exists (js ("#" ++ LF ++ TAB ++ "yomi:x")),
    (mkLine 0 None 0 (js "#") None), (mkLine 1 None 1 (js "yomi:x") None).
  split; [vm_compute; reflexivity|].
  split; [reflexivity|]. split; [reflexivity|]. split; [reflexivity|].
  split; [vm_compute; reflexivity|].
  intro B. vm_compute. reflexivity.
Qed.

(* ================================================================= *)
(** ** Further properties of the code *)

Import Serialization Reference.
Import SplitFacts SplitterFacts TreeFacts TreeShape SinkFacts MethodFacts
  SwitchFacts AuthorFacts ThrowFacts SerializationFacts CaseFacts.

(** *** DV6Parser.dv6_to_lines *)

(** X1.  dv6_to_lines cuts the text at every LF and CR LF (a CR alone is no
    break) and returns one line per piece, numbered from 0, with the
    leading tabs of the piece counted in indent and the rest as content,
    exactly when no piece has two or more tabs more than the piece before
    it.  Otherwise it throws the ReferenceError of the identifier erros of
    its last statement; the Error with the joined messages is never
    thrown. *)
Theorem X1_lines_or_reference_error (dv6 : jsstring) :
  dv6_to_lines dv6
  = if no_jump (map leading_tabs (split_breaks dv6))
    then Ok (physical_lines 0 (split_breaks dv6))
    else Throw (ReferenceError (js "erros")).
Proof. apply dv6_to_lines_outcome. Qed.

(** X2.  The lines that dv6_to_lines returns, each written back as its
    tabs followed by its content, are the pieces of the text between its
    line breaks; joined by LF they are the text itself when the text has no
    CR. *)
Theorem X2_lines_written_back (dv6 : jsstring) (ls : list DV6Line) :
  dv6_to_lines dv6 = Ok ls ->
  map render ls = split_breaks dv6
  /\ (forallb (fun x => negb (cr =? x)%N) dv6 = true ->
      join (map render ls) (js LF) = dv6).
Proof.
  rewrite dv6_to_lines_outcome.
  destruct (no_jump _); [|discriminate]. intro H. inversion H; subst ls.
  rewrite render_physical_lines. split; [reflexivity|].
  apply join_split_breaks.
Qed.

Lemma X2_two_lines_written_back :
  let dv6 := js ("#w" ++ LF ++ TAB ++ "yomi:x") in
  let ls := [new_DV6Line 0 0 (js "#w"); new_DV6Line 1 1 (js "yomi:x")] in
  map render ls = split_breaks dv6 /\ join (map render ls) (js LF) = dv6.
Proof.
  intros dv6 ls.
  destruct (X2_lines_written_back dv6 ls ltac:(vm_compute; reflexivity))
    as [H1 H2].
  split; [exact H1 | apply H2; vm_compute; reflexivity].
Defined.

(** *** DV6Parser.flat_to_structured_lines *)

(** X3.  Whenever flat_to_structured_lines returns, it returns a root, not
    undefined, and the lines of the tree, each parent before its children
    and the children in order, are the lines given, in order; none is lost
    and none is repeated.  The lines are compared by the four fields the
    DV6Line constructor copies. *)
Theorem X3_tree_holds_the_lines_in_order (lines : list DV6Line)
    (r : option root) :
  flat_to_structured_lines lines = Ok r ->
  exists structure,
    r = Some structure
    /\ map super (flat_map flatten (root_children structure)) = map super lines.
Proof. apply tree_holds_lines. Qed.

Lemma X3_three_lines_in_order :
  let l0 := new_DV6Line 0 0 (js "#w") in
  let l1 := new_DV6Line 1 1 (js "yomi:x") in
  let l2 := new_DV6Line 2 0 (js "#v") in
  exists structure,
    Some (Root [HeadLine l0 [Line l1]; Line l2]) = Some structure
    /\ map super (flat_map flatten (root_children structure))
       = map super [l0; l1; l2].
Proof.
  intros l0 l1 l2.
  exact (X3_tree_holds_the_lines_in_order [l0; l1; l2]
           (Some (Root [HeadLine l0 [Line l1]; Line l2]))
           ltac:(vm_compute; reflexivity)).
Defined.

(** X4.  On lines none of which lies two or more levels below the line
    before it, as dv6_to_lines returns them, flat_to_structured_lines
    returns a root exactly when no line has a smaller indent than the
    first line.  A line with a smaller indent empties the stack, and the
    next push throws a TypeError. *)
Theorem X4_tree_or_type_error (line : DV6Line) (rest : list DV6Line) :
  no_jump_from (indent line) (map indent rest) = true ->
  (forallb (fun l => indent line <=? indent l) rest = true ->
   exists structure,
     flat_to_structured_lines (line :: rest) = Ok (Some structure))
  /\ (forallb (fun l => indent line <=? indent l) rest = false ->
      flat_to_structured_lines (line :: rest)
      = Throw (TypeError (js "current_structure.children"))).
Proof.
  intro Hj. pose proof (lifter_outcome line rest Hj) as K.
  destruct (forallb _ rest).
  - split; [|discriminate]. intros _. destruct K as (r & E & _).
    exists (Root r). exact E.
  - split; [discriminate|]. intros _. exact K.
Qed.

Lemma X4_second_line_above_first :
  flat_to_structured_lines [new_DV6Line 0 1 (js "#w"); new_DV6Line 1 0 (js "#v")]
  = Throw (TypeError (js "current_structure.children")).
Proof.
  apply (X4_tree_or_type_error (new_DV6Line 0 1 (js "#w"))
           [new_DV6Line 1 0 (js "#v")]);
    vm_compute; reflexivity.
Defined.

(** X5.  In the tree built from the lines of a text, every child of the
    root has the indent of the first line, and every child of a head has
    exactly one more tab than the head: the nesting of the tree is the
    indentation of the text. *)
Theorem X5_nesting_is_indentation (dv6 : jsstring) (lines : list DV6Line)
    (structure : root) :
  dv6_to_lines dv6 = Ok lines ->
  flat_to_structured_lines lines = Ok (Some structure) ->
  exists first rest,
    lines = first :: rest
    /\ Forall (fun c => indent (line_of c) = indent first /\ nested c)
         (root_children structure).
Proof.
  rewrite dv6_to_lines_outcome.
  destruct (no_jump _) eqn:J; [|discriminate]. intro H. inversion H; subst lines.
  clear H. destruct (split_breaks dv6) as [|raw raws] eqn:S;
    [exfalso; exact (split_breaks_nonempty dv6 S)|].
  cbn [physical_lines map no_jump] in *. intro H.
  exists (physical_line 0 raw), (physical_lines 1 raws). split; [reflexivity|].
  pose proof (lifter_outcome (physical_line 0 raw) (physical_lines 1 raws)) as K.
  rewrite map_indent_physical_lines in K. specialize (K J).
  destruct (forallb _ (physical_lines 1 raws)).
  - destruct K as (r & E & Hr). rewrite E in H. inversion H; subst structure.
    exact Hr.
  - rewrite K in H. discriminate H.
Qed.

Lemma X5_word_with_one_property :
  let l0 := new_DV6Line 0 0 (js "#w") in
  let l1 := new_DV6Line 1 1 (js "yomi:x") in
  exists first rest,
    [l0; l1] = first :: rest
    /\ Forall (fun c => indent (line_of c) = indent first /\ nested c)
         (root_children (Root [HeadLine l0 [Line l1]])).
Proof.
  intros l0 l1.
  exact (X5_nesting_is_indentation (js ("#w" ++ LF ++ TAB ++ "yomi:x"))
           [l0; l1] (Root [HeadLine l0 [Line l1]])
           ltac:(vm_compute; reflexivity) ltac:(vm_compute; reflexivity)).
Defined.

(** *** DV6Parser.parse *)

(** X6.  A text in which no line has two or more tabs more than the line
    before it, and some line has fewer tabs than the first line, makes
    parse throw a TypeError from the tree lifter; nothing is recorded in
    errors or warnings. *)
Theorem X6_line_above_first_aborts_parse (B : Builder) (dv6 : jsstring)
    (first : jsstring) (rest : list jsstring) (this : DV6Parser) :
  split_breaks dv6 = first :: rest ->
  no_jump_from (leading_tabs first) (map leading_tabs rest) = true ->
  forallb (fun raw => leading_tabs first <=? leading_tabs raw) rest = false ->
  parse B dv6 this
  = (Throw (TypeError (js "current_structure.children")), this).
Proof.
  intros Hs Hj Hf. unfold parse, bind, lift.
  rewrite dv6_to_lines_outcome, Hs. cbn [map no_jump]. rewrite Hj.
  cbn [physical_lines].
  pose proof (lifter_outcome (physical_line 0 first) (physical_lines 1 rest)) as K.
  rewrite map_indent_physical_lines in K. specialize (K Hj).
  rewrite (forallb_physical_lines
             (fun i => indent (physical_line 0 first) <=? i) rest 1) in K.
  cbn [physical_line indent new_DV6Line] in K. rewrite Hf in K.
  cbn [physical_line new_DV6Line]. rewrite K. reflexivity.
Qed.

Lemma X6_first_line_indented :
  parse Elements (js (TAB ++ "#w" ++ LF ++ "#v")) new_DV6Parser
  = (Throw (TypeError (js "current_structure.children")), new_DV6Parser).
Proof.
  apply (X6_line_above_first_aborts_parse Elements
           (js (TAB ++ "#w" ++ LF ++ "#v")) (js (TAB ++ "#w")) [js "#v"]);
    vm_compute; reflexivity.
Defined.

(** X7.  Across a call of parse the arrays errors and warnings only grow
    at the end: what they held before the call is still there, in place,
    whether parse returns or throws. *)
Theorem X7_diagnostics_are_only_appended (B : Builder) (dv6 : jsstring)
    (this this' : DV6Parser) (r : result (list (node B))) :
  parse B dv6 this = (r, this') -> extends this this'.
Proof. apply grows_parse. Qed.

Lemma X7_diagnostics_of_a_lone_header :
  extends (mkParser [new_Error (js "before")] [])
    (mkParser [new_Error (js "before"); new_Error (js "行0: 単語の内容がありません")] []).
Proof.
  apply (X7_diagnostics_are_only_appended Elements (js "#w")
           (mkParser [new_Error (js "before")] [])
           (mkParser [new_Error (js "before");
                      new_Error (js "行0: 単語の内容がありません")] [])
           (Ok [])).
  vm_compute. reflexivity.
Defined.

(** X8.  Whatever the text, parse throws nothing but: the ReferenceError
    for erros (an indent jump), the TypeError of the tree lifter (a line
    above the first), the TypeError of the title extraction (a header
    whose title is empty or holds a line terminator), the TypeErrors for
    a missing date or name field of an author line, the number 1 (a
    malformed author date) and the ReferenceError for date (a valid or
    expire line).  In particular no Error object is ever thrown. *)
Theorem X8_exceptions_of_parse (B : Builder) (dv6 : jsstring)
    (this this' : DV6Parser) (e : exception) :
  parse B dv6 this = (Throw e, this') ->
  In e [ReferenceError (js "erros");
        TypeError (js "current_structure.children");
        TypeError (js "structure.content.match(...)[1]");
        ReferenceError (js "date");
        TypeError (js "dates_str.split");
        TypeError (js "names_str.split");
        ThrownNumber 1].
Proof. apply throws_parse. Qed.

Lemma X8_exception_of_an_empty_title :
  In (TypeError (js "structure.content.match(...)[1]"))
    [ReferenceError (js "erros");
     TypeError (js "current_structure.children");
     TypeError (js "structure.content.match(...)[1]");
     ReferenceError (js "date");
     TypeError (js "dates_str.split");
     TypeError (js "names_str.split");
     ThrownNumber 1].
Proof.
  apply (X8_exceptions_of_parse Elements (js ("#" ++ LF ++ TAB ++ "yomi:x"))
           new_DV6Parser new_DV6Parser).
  vm_compute. reflexivity.
Defined.

(** *** DV6Parser.parse_toplevel *)

(** X9.  When no child of the root is a head that begins with #,
    parse_toplevel returns the empty array: each line that begins with #
    and has no children gets one error, in order, and every other child,
    with or without children, is passed over in silence. *)
Theorem X9_toplevel_without_word_heads (B : Builder) (children : list element)
    (this : DV6Parser) :
  word_heads children = [] ->
  parse_toplevel B (Some (Root children)) this
  = (Ok [],
     mkParser
       (errors this
        ++ map (fun element => error (line_of element) (js "単語の内容がありません"))
             (filter (fun element => is_word (line_of element)) children))
       (warnings this)).
Proof.
  intro H. unfold parse_toplevel. unfold bind at 1. cbn [lift access root_children].
  unfold bind at 1. rewrite (map_toplevel_no_heads B children H).
  cbn [ret]. rewrite filter_defined_none. reflexivity.
Qed.

Lemma X9_header_without_children :
  parse_toplevel Elements
    (Some (Root [Line (new_DV6Line 0 0 (js "#w"));
                 HeadLine (new_DV6Line 1 0 (js "memo"))
                   [Line (new_DV6Line 2 1 (js "yomi:x"))]]))
    new_DV6Parser
  = (Ok [], mkParser [new_Error (js "行0: 単語の内容がありません")] []).
Proof.
  rewrite (X9_toplevel_without_word_heads Elements
             [Line (new_DV6Line 0 0 (js "#w"));
              HeadLine (new_DV6Line 1 0 (js "memo"))
                [Line (new_DV6Line 2 1 (js "yomi:x"))]]
             new_DV6Parser ltac:(vm_compute; reflexivity)).
  vm_compute. reflexivity.
Defined.

(** *** DV6Parser.parse_contents and parse_children *)

(** X10.  parse_contents never throws and always returns a contents node
    without children: a line of the shape (symbol)(white space)(text) is
    accepted and dropped, and each other line adds one error, in order. *)
Theorem X10_contents_are_always_empty (B : Builder) (elements : list element)
    (this : DV6Parser) :
  parse_contents B elements this
  = (Ok (contents_node B []),
     mkParser
       (errors this
        ++ map (fun element =>
                  error (line_of element) (js "内容は(記号)(空白)(内容)であるべきです"))
             (filter (fun element => negb (test content_re (content (line_of element))))
                elements))
       (warnings this)).
Proof.
  unfold parse_contents. unfold bind at 1.
  rewrite (parse_contents_loop B elements this). reflexivity.
Qed.

(** X11.  When no child begins with //, parse_children and
    parse_top_children compute the same properties and contents, record
    the same diagnostics and throw the same exceptions. *)
Theorem X11_children_without_extended_lines (B : Builder)
    (children : list element) (this : DV6Parser) :
  forallb (fun element => negb (is_extended (line_of element))) children = true ->
  parse_children B children this
  = match parse_top_children B children this with
    | (Ok (properties, contents, _), this') => (Ok (properties, contents), this')
    | (Throw e, this') => (Throw e, this')
    end.
Proof.
  intro H. unfold parse_children, parse_top_children, parse_extended. cbv zeta.
  assert (E : extended_begin_index children = Z.of_nat (length children)).
  { unfold extended_begin_index, findIndex. rewrite findIndex_from_none.
    - reflexivity.
    - rewrite <- H. apply forallb_pointwise. reflexivity. }
  rewrite E, slice_to_length. unfold bind, ret.
  destruct (parse_properties B _ this) as [[p | e] this1]; [|reflexivity].
  destruct (parse_contents B _ this1) as [[c | e] this2]; reflexivity.
Qed.

Lemma X11_one_property_one_content :
  let children := [Line (new_DV6Line 1 1 (js "yomi:x"));
                   Line (new_DV6Line 2 1 (js "* text"))] in
  parse_children Elements children new_DV6Parser
  = match parse_top_children Elements children new_DV6Parser with
    | (Ok (properties, contents, _), this') => (Ok (properties, contents), this')
    | (Throw e, this') => (Throw e, this')
    end.
Proof.
  intro children.
  apply (X11_children_without_extended_lines Elements children new_DV6Parser).
  vm_compute. reflexivity.
Defined.

(** *** DV6Parser.parse_properties: one line of the loop *)

(** X12.  A property line throws only in the cases author, valid and
    expire: when the loop body of parse_properties throws, the element is
    a line without children that matches the property pattern, and its
    identifier is one of these three. *)
Theorem X12_only_three_cases_throw (B : Builder) (element : element)
    (properties : list (node B)) (this this' : DV6Parser) (e : exception) :
  parse_property B element properties this = (Throw e, this') ->
  exists l result,
    element = Line l
    /\ str_match (content l) property_re = Some result
    /\ In (sub result 1) [js "author"; js "valid"; js "expire"].
Proof.
  intro H. apply parse_property_throw in H.
  destruct H as (l & result & H1 & H2 & H3 & _).
  exists l, result. split; [exact H1|]. split; [exact H2 | exact H3].
Qed.

Lemma X12_an_expire_line_throws :
  exists l result,
    Line (new_DV6Line 1 1 (js "expire:2020/01/01")) = Line l
    /\ str_match (content l) property_re = Some result
    /\ In (sub result 1) [js "author"; js "valid"; js "expire"].
Proof.
  apply (X12_only_three_cases_throw Elements
           (Line (new_DV6Line 1 1 (js "expire:2020/01/01"))) []
           new_DV6Parser new_DV6Parser (ReferenceError (js "date"))).
  vm_compute. reflexivity.
Defined.

(** X13.  A line yomi:value or qyomi:value appends one node that holds
    the value as it stands, whatever the value, the empty one included;
    nothing is recorded. *)
Theorem X13_yomi_and_qyomi_keep_the_value (B : Builder) (l : DV6Line)
    (v : jsstring) (properties : list (node B)) (this : DV6Parser) :
  forallb dot v = true ->
  (content l = js "yomi:" ++ v ->
   parse_property B (Line l) properties this
   = (Ok (properties ++ [text_node B "yomi" v]), this))
  /\ (content l = js "qyomi:" ++ v ->
      parse_property B (Line l) properties this
      = (Ok (properties ++ [text_node B "qyomi" v]), this)).
Proof.
  intro Hv. split; intro Hl.
  - rewrite (parse_property_yomi B l v properties Hl Hv). reflexivity.
  - rewrite (parse_property_qyomi B l v properties Hl Hv). reflexivity.
Qed.

Lemma X13_yomi_with_an_empty_value :
  parse_property Elements (Line (new_DV6Line 1 1 (js "yomi:"))) [] new_DV6Parser
  = (Ok [Element (js "yomi") [] [Text []]], new_DV6Parser).
Proof.
  rewrite (proj1 (X13_yomi_and_qyomi_keep_the_value Elements
                    (new_DV6Line 1 1 (js "yomi:")) [] [] new_DV6Parser
                    ltac:(vm_compute; reflexivity))
             ltac:(vm_compute; reflexivity)).
  vm_compute. reflexivity.
Defined.

(** X14.  A line identifier:value whose identifier, a letter followed by
    letters, digits and underscores, is none of the ten case labels adds
    one warning and no node; the labels are compared exactly, so Yomi is
    not yomi. *)
Theorem X14_unknown_identifier_warns (B : Builder) (l : DV6Line)
    (x : N) (ws v : jsstring) (properties : list (node B)) (this : DV6Parser) :
  content l = (x :: ws) ++ js ":" ++ v ->
  alpha x = true -> forallb word_char ws = true -> forallb dot v = true ->
  includes property_names (x :: ws) = false ->
  parse_property B (Line l) properties this
  = (Ok properties,
     mkParser (errors this)
       (warnings this ++ [error l (js "未知のプロパティ指定があります")])).
Proof. apply parse_property_unknown. Qed.

Lemma X14_capitalised_yomi :
  parse_property Elements (Line (new_DV6Line 1 1 (js "Yomi:x"))) [] new_DV6Parser
  = (Ok [], mkParser [] [new_Error (js "行1: 未知のプロパティ指定があります")]).
Proof.
  rewrite (X14_unknown_identifier_warns Elements (new_DV6Line 1 1 (js "Yomi:x"))
             89%N (js "omi") (js "x") [] new_DV6Parser
             ltac:(vm_compute; reflexivity) ltac:(vm_compute; reflexivity)
             ltac:(vm_compute; reflexivity) ltac:(vm_compute; reflexivity)
             ltac:(vm_compute; reflexivity)).
  vm_compute. reflexivity.
Defined.

(** X15.  A line whose content does not begin with a letter is reported
    as a malformed property and adds no node.  Such a line can lie in the
    property region: is_property accepts a leading digit, the property
    pattern does not. *)
Theorem X15_leading_digit_is_malformed (B : Builder) (l : DV6Line)
    (x : N) (t : jsstring) (properties : list (node B)) (this : DV6Parser) :
  content l = x :: t -> alpha x = false ->
  parse_property B (Line l) properties this
  = (Ok properties,
     mkParser (errors this ++ [error l (js "プロパティの書式が正しくありません")])
       (warnings this)).
Proof.
  intros Hl Hx. unfold parse_property, str_match.
  rewrite (property_re_first (content l)); [reflexivity|].
  rewrite Hl. exact Hx.
Qed.

Lemma X15_digit_first_in_the_property_region :
  is_property (new_DV6Line 1 1 (js "1st:x")) = true
  /\ parse_property Elements (Line (new_DV6Line 1 1 (js "1st:x"))) [] new_DV6Parser
     = (Ok [], mkParser [new_Error (js "行1: プロパティの書式が正しくありません")] []).
Proof.
  split; [vm_compute; reflexivity|].
  rewrite (X15_leading_digit_is_malformed Elements (new_DV6Line 1 1 (js "1st:x"))
             49%N (js "st:x") [] new_DV6Parser
             ltac:(vm_compute; reflexivity) ltac:(vm_compute; reflexivity)).
  vm_compute. reflexivity.
Defined.

(** X16.  A line spell:lang:text or pron:lang:text, with lang one or more
    letters, digits and underscores and text not empty, appends one node
    with the lang attribute and the text; the text may itself contain
    colons, the lang ends at the first one. *)
Theorem X16_spell_and_pron_accept_lang_and_text (B : Builder) (l : DV6Line)
    (lang text : jsstring) (properties : list (node B)) (this : DV6Parser) :
  lang <> [] -> forallb word_char lang = true ->
  text <> [] -> forallb dot text = true ->
  (content l = js "spell:" ++ lang ++ js ":" ++ text ->
   parse_property B (Line l) properties this
   = (Ok (properties ++ [lang_node B "spell" lang text]), this))
  /\ (content l = js "pron:" ++ lang ++ js ":" ++ text ->
      parse_property B (Line l) properties this
      = (Ok (properties ++ [lang_node B "pron" lang text]), this)).
Proof.
  intros Hn Hlang Ht Htext.
  assert (Hv : forallb dot (lang ++ js ":" ++ text) = true).
  { rewrite !forallb_app, (forallb_word_dot lang Hlang), Htext. reflexivity. }
  split; intro Hl.
  - rewrite (parse_property_spell B l _ properties Hl Hv).
    apply parse_lang_accepts; assumption.
  - rewrite (parse_property_pron B l _ properties Hl Hv).
    apply parse_lang_accepts; assumption.
Qed.

Lemma X16_spell_with_a_colon_in_the_text :
  parse_property Elements (Line (new_DV6Line 1 1 (js "spell:en:a:b"))) []
    new_DV6Parser
  = (Ok [Element (js "spell") [(js "lang", js "en")] [Text (js "a:b")]],
     new_DV6Parser).
Proof.
  rewrite (proj1 (X16_spell_and_pron_accept_lang_and_text Elements
                    (new_DV6Line 1 1 (js "spell:en:a:b")) (js "en") (js "a:b")
                    [] new_DV6Parser
                    ltac:(vm_compute; discriminate) ltac:(vm_compute; reflexivity)
                    ltac:(vm_compute; discriminate) ltac:(vm_compute; reflexivity))
             ltac:(vm_compute; reflexivity)).
  vm_compute. reflexivity.
Defined.

(** X17.  A line spell:value or pron:value whose value has no colon adds
    one error and no node. *)
Theorem X17_spell_and_pron_need_a_colon (B : Builder) (l : DV6Line)
    (v : jsstring) (properties : list (node B)) (this : DV6Parser) :
  forallb dot v = true -> forallb (fun x => negb (58 =? x)%N) v = true ->
  (content l = js "spell:" ++ v ->
   parse_property B (Line l) properties this
   = (Ok properties,
      mkParser
        (errors this ++ [error l (js "spellプロパティの書式が正しくありません")])
        (warnings this)))
  /\ (content l = js "pron:" ++ v ->
      parse_property B (Line l) properties this
      = (Ok properties,
         mkParser
           (errors this ++ [error l (js "pronプロパティの書式が正しくありません")])
           (warnings this))).
Proof.
  intros Hv Hc. split; intro Hl.
  - rewrite (parse_property_spell B l v properties Hl Hv).
    apply parse_lang_rejects. exact Hc.
  - rewrite (parse_property_pron B l v properties Hl Hv).
    apply parse_lang_rejects. exact Hc.
Qed.

Lemma X17_pron_without_a_language :
  parse_property Elements (Line (new_DV6Line 1 1 (js "pron:abc"))) [] new_DV6Parser
  = (Ok [], mkParser [new_Error (js "行1: pronプロパティの書式が正しくありません")] []).
Proof.
  rewrite (proj2 (X17_spell_and_pron_need_a_colon Elements
                    (new_DV6Line 1 1 (js "pron:abc")) (js "abc") [] new_DV6Parser
                    ltac:(vm_compute; reflexivity) ltac:(vm_compute; reflexivity))
             ltac:(vm_compute; reflexivity)).
  vm_compute. reflexivity.
Defined.

(** X18.  A line pos:value appends one pos node per piece of the value
    between its commas, in order, empty pieces included: n commas give
    n + 1 nodes.  Nothing is recorded. *)
Theorem X18_pos_items_between_commas (B : Builder) (l : DV6Line)
    (v : jsstring) (properties : list (node B)) (this : DV6Parser) :
  content l = js "pos:" ++ v -> forallb dot v = true ->
  parse_property B (Line l) properties this
  = (Ok (properties ++ map (text_node B "pos") (split_on 44 v)), this).
Proof.
  intros Hl Hv. rewrite (parse_property_pos B l v properties Hl Hv).
  apply parse_pos_items.
Qed.

Lemma X18_pos_with_an_empty_item :
  parse_property Elements (Line (new_DV6Line 1 1 (js "pos:n,,v"))) [] new_DV6Parser
  = (Ok [Element (js "pos") [] [Text (js "n")];
         Element (js "pos") [] [Text []];
         Element (js "pos") [] [Text (js "v")]],
     new_DV6Parser).
Proof.
  rewrite (X18_pos_items_between_commas Elements (new_DV6Line 1 1 (js "pos:n,,v"))
             (js "n,,v") [] new_DV6Parser
             ltac:(vm_compute; reflexivity) ltac:(vm_compute; reflexivity)).
  vm_compute. reflexivity.
Defined.

(** X19.  A line flag:value appends one flag node per piece of the value
    between its commas, in order, and never an error; its warnings are one
    per piece that is in the list SPL, JOKE, MEDICAL, PHARM, MISS, DQN, in
    order. *)
Theorem X19_flag_items_between_commas (B : Builder) (l : DV6Line)
    (v : jsstring) (properties : list (node B)) (this : DV6Parser) :
  content l = js "flag:" ++ v -> forallb dot v = true ->
  parse_property B (Line l) properties this
  = (Ok (properties ++ map (text_node B "flag") (split_on 44 v)),
     mkParser (errors this)
       (warnings this
        ++ map (fun flag => error l (js "未知のフラグ[" ++ flag ++ js "]があります"))
             (filter (includes known_flags) (split_on 44 v)))).
Proof.
  intros Hl Hv. rewrite (parse_property_flag B l v properties Hl Hv).
  unfold parse_flag. rewrite split_comma. apply parse_flag_items.
Qed.

Lemma X19_two_flags :
  parse_property Elements (Line (new_DV6Line 1 1 (js "flag:X,DQN"))) []
    new_DV6Parser
  = (Ok [Element (js "flag") [] [Text (js "X")];
         Element (js "flag") [] [Text (js "DQN")]],
     mkParser [] [new_Error (js "行1: 未知のフラグ[DQN]があります")]).
Proof.
  rewrite (X19_flag_items_between_commas Elements
             (new_DV6Line 1 1 (js "flag:X,DQN")) (js "X,DQN") [] new_DV6Parser
             ltac:(vm_compute; reflexivity) ltac:(vm_compute; reflexivity)).
  vm_compute. reflexivity.
Defined.

(** X20.  An author line is refused with one error, no node and no
    exception in two cases: its value has more than four fields between
    commas, or it has at most four and the first is not A, R or I; in the
    second case the later fields are not looked at. *)
Theorem X20_author_refused (B : Builder) (l : DV6Line) (v : jsstring)
    (properties : list (node B)) (this : DV6Parser) :
  content l = js "author:" ++ v -> forallb dot v = true ->
  (4 < length (split_on 44 v) ->
   parse_property B (Line l) properties this
   = (Ok properties,
      mkParser
        (errors this ++ [error l (js "authorプロパティの書式が正しくありません")])
        (warnings this)))
  /\ (forall operation more,
         split_on 44 v = operation :: more -> length more <= 3 ->
         includes [js "A"; js "R"; js "I"] operation = false ->
         parse_property B (Line l) properties this
         = (Ok properties,
            mkParser (errors this ++ [error l (js "authorの処理内容はA,R,Iのみです")])
              (warnings this))).
Proof.
  intros Hl Hv. rewrite (parse_property_author B l v properties Hl Hv). split.
  - apply parse_author_too_many.
  - intros operation more. apply parse_author_operation.
Qed.

Lemma X20_author_with_an_unknown_operation :
  parse_property Elements (Line (new_DV6Line 1 1 (js "author:X"))) [] new_DV6Parser
  = (Ok [], mkParser [new_Error (js "行1: authorの処理内容はA,R,Iのみです")] []).
Proof.
  rewrite (proj2 (X20_author_refused Elements (new_DV6Line 1 1 (js "author:X"))
                    (js "X") [] new_DV6Parser
                    ltac:(vm_compute; reflexivity) ltac:(vm_compute; reflexivity))
             (js "X") [] ltac:(vm_compute; reflexivity) ltac:(vm_compute; lia)
             ltac:(vm_compute; reflexivity)).
  vm_compute. reflexivity.
Defined.

(** X21.  An author line with a known operation and fewer than three
    fields throws a TypeError, for the dates when only the operation is
    there and for the names when the dates are; the dates are not checked
    before, and nothing is recorded. *)
Theorem X21_author_with_missing_fields (B : Builder) (l : DV6Line)
    (v operation : jsstring) (more : list jsstring)
    (properties : list (node B)) (this : DV6Parser) :
  content l = js "author:" ++ v -> forallb dot v = true ->
  split_on 44 v = operation :: more -> length more <= 1 ->
  includes [js "A"; js "R"; js "I"] operation = true ->
  parse_property B (Line l) properties this
  = (Throw (TypeError
              (match more with
               | [] => js "dates_str.split"
               | _ => js "names_str.split"
               end)), this).
Proof.
  intros Hl Hv. rewrite (parse_property_author B l v properties Hl Hv).
  apply parse_author_missing.
Qed.

Lemma X21_author_without_names :
  parse_property Elements (Line (new_DV6Line 1 1 (js "author:A,bad date"))) []
    new_DV6Parser
  = (Throw (TypeError (js "names_str.split")), new_DV6Parser).
Proof.
  rewrite (X21_author_with_missing_fields Elements
             (new_DV6Line 1 1 (js "author:A,bad date")) (js "A,bad date")
             (js "A") [js "bad date"] [] new_DV6Parser
             ltac:(vm_compute; reflexivity) ltac:(vm_compute; reflexivity)
             ltac:(vm_compute; reflexivity) ltac:(vm_compute; lia)
             ltac:(vm_compute; reflexivity)).
  reflexivity.
Defined.

(** X22.  An author line with a known operation and three or four fields:
    the dates, the names and the sources are the pieces of the second,
    third and fourth field between semicolons, an absent or empty fourth
    field giving no source.  If every date has the date format, one author
    node is appended, with the operation as attribute and the date, name
    and source children in this order.  If not, the first malformed date
    is recorded as an error, the number 1 is thrown and no node is
    appended. *)
Theorem X22_author_with_its_fields (B : Builder) (l : DV6Line)
    (v operation dates_str names_str : jsstring) (more : list jsstring)
    (properties : list (node B)) (this : DV6Parser) :
  content l = js "author:" ++ v -> forallb dot v = true ->
  split_on 44 v = operation :: dates_str :: names_str :: more ->
  length more <= 1 ->
  includes [js "A"; js "R"; js "I"] operation = true ->
  parse_property B (Line l) properties this
  = match find (fun date => negb (test author_date_re date))
            (split_on 59 dates_str) with
    | None =>
      (Ok (properties
           ++ [author_node B operation (split_on 59 dates_str)
                 (split_on 59 names_str) (author_sources more)]),
       this)
    | Some date =>
      (Throw (ThrownNumber 1),
       mkParser
         (errors this
          ++ [error l (js "日付書式が間違っています[" ++ date ++ js "]")])
         (warnings this))
    end.
Proof.
  intros Hl Hv. rewrite (parse_property_author B l v properties Hl Hv).
  apply parse_author_fields.
Qed.

Lemma X22_author_in_both_encodings :
  parse_property Elements
    (Line (new_DV6Line 1 1 (js "author:A,2020/01/02;2020/03/04 05:06,me;you,src")))
    [] new_DV6Parser
  = (Ok [Element (js "author") [(js "operation", js "A")]
           [Element (js "date") [] [Text (js "2020/01/02")];
            Element (js "date") [] [Text (js "2020/03/04 05:06")];
            Element (js "name") [] [Text (js "me")];
            Element (js "name") [] [Text (js "you")];
            Element (js "source") [] [Text (js "src")]]],
     new_DV6Parser)
  /\ parse_property Literals
       (Line (new_DV6Line 1 1 (js "author:A,2020/01/02,me")))
       [] new_DV6Parser
     = (Ok [XObject
              [(js "author",
                XArray
                  [XObject [(js "_attr", XObject [(js "operation", XString (js "A"))])];
                   XObject [(js "date", XString (js "2020/01/02"))];
                   XObject [(js "name", XString (js "me"))]])]],
        new_DV6Parser).
Proof.
  split.
  - rewrite (X22_author_with_its_fields Elements
               (new_DV6Line 1 1
                  (js "author:A,2020/01/02;2020/03/04 05:06,me;you,src"))
               (js "A,2020/01/02;2020/03/04 05:06,me;you,src")
               (js "A") (js "2020/01/02;2020/03/04 05:06") (js "me;you") [js "src"]
               [] new_DV6Parser
               ltac:(vm_compute; reflexivity) ltac:(vm_compute; reflexivity)
               ltac:(vm_compute; reflexivity) ltac:(vm_compute; lia)
               ltac:(vm_compute; reflexivity)).
    vm_compute. reflexivity.
  - rewrite (X22_author_with_its_fields Literals
               (new_DV6Line 1 1 (js "author:A,2020/01/02,me"))
               (js "A,2020/01/02,me") (js "A") (js "2020/01/02") (js "me") []
               [] new_DV6Parser
               ltac:(vm_compute; reflexivity) ltac:(vm_compute; reflexivity)
               ltac:(vm_compute; reflexivity) ltac:(vm_compute; lia)
               ltac:(vm_compute; reflexivity)).
    vm_compute. reflexivity.
Defined.

(** *** DV6Element.to_xml_object *)

(** X23.  to_xml_object loses nothing: two elements with the same
    conversion have the same name, the same properties and the same
    children, all the way down. *)
Theorem X23_to_xml_object_is_injective (e1 e2 : DV6Element) :
  to_xml_object e1 = to_xml_object e2 -> e1 = e2.
Proof. apply to_xml_object_inj. Qed.

Lemma X23_same_conversion_same_element :
  new_DV6Element "yomi" (Children [Text (js "x")])
  = Element (js "yomi") [] [Text (js "x")].
Proof.
  apply (X23_to_xml_object_is_injective
           (new_DV6Element "yomi" (Children [Text (js "x")]))
           (Element (js "yomi") [] [Text (js "x")])).
  reflexivity.
Defined.

(** *** class DV6Line *)

(** X24.  For a line that dv6_to_lines returned, DV6Line.error builds the
    message from the zero-based position of the line in the text alone:
    the form with a first and a last line number is never used. *)
Theorem X24_messages_name_one_line (dv6 : jsstring) (ls : list DV6Line)
    (k : nat) (l : DV6Line) (text : jsstring) :
  dv6_to_lines dv6 = Ok ls -> nth_error ls k = Some l ->
  error l text = new_Error (js "行" ++ number_to_string k ++ js ": " ++ text).
Proof.
  rewrite dv6_to_lines_outcome.
  destruct (no_jump _); [|discriminate]. intro H. inversion H; subst ls.
  intro Hk. apply physical_lines_nth in Hk as (Hi & Hl & _).
  unfold error. rewrite Hl, Hi. reflexivity.
Qed.

Lemma X24_message_for_the_second_line :
  error (new_DV6Line 1 1 (js "yomi:x")) (js "message")
  = new_Error (js "行" ++ number_to_string 1 ++ js ": " ++ js "message").
Proof.
  apply (X24_messages_name_one_line (js ("#w" ++ LF ++ TAB ++ "yomi:x"))
           [new_DV6Line 0 0 (js "#w"); new_DV6Line 1 1 (js "yomi:x")] 1
           (new_DV6Line 1 1 (js "yomi:x")) (js "message"));
    vm_compute; reflexivity.
Defined.

(** X25.  The getters is_word, is_property and is_extended exclude each
    other: no line is two of a word header, a property line and an
    extended line. *)
Theorem X25_getters_exclude_each_other (l : DV6Line) :
  is_word l && is_property l = false
  /\ is_word l && is_extended l = false
  /\ is_property l && is_extended l = false.
Proof.
  assert (P : is_property l = true ->
              exists x t, content l = x :: t /\ alnum x = true)
    by apply is_property_re_first.
  rewrite is_extended_startsWith. unfold is_word.
  change (js "#") with [35%N]. change (js "//") with [47; 47]%N.
  destruct (is_property l).
  - destruct (P eq_refl) as (x & t & -> & Hx). cbn [startsWith].
    destruct (x =? 35)%N eqn:E1;
      [apply N.eqb_eq in E1; subst x; discriminate Hx|].
    destruct (x =? 47)%N eqn:E2;
      [apply N.eqb_eq in E2; subst x; discriminate Hx|].
    repeat split; reflexivity.
  - rewrite andb_false_r. split; [reflexivity|]. split; [|reflexivity].
    destruct (content l) as [|x t]; [reflexivity|]. cbn [startsWith].
    destruct (x =? 35)%N eqn:E1; [|reflexivity].
    apply N.eqb_eq in E1. subst x. reflexivity.
Qed.

(** *** The three stages together *)

(** X26.  A text none of whose lines begins, after its tabs, with # has
    no words: if its lines form a tree, parse returns the empty array and
    records nothing, whatever else the lines hold. *)
Theorem X26_no_header_no_word (B : Builder) (dv6 : jsstring)
    (ls : list DV6Line) (r : option root) (this : DV6Parser) :
  dv6_to_lines dv6 = Ok ls ->
  flat_to_structured_lines ls = Ok r ->
  forallb (fun l => negb (is_word l)) ls = true ->
  parse B dv6 this = (Ok [], this).
Proof.
  intros H1 H2 Hw. unfold parse, bind, lift. rewrite H1, H2.
  destruct (tree_holds_lines ls r H2) as (structure & -> & F).
  destruct structure as [children]. cbn [root_children] in F.
  assert (W : forall c, In c children -> is_word (line_of c) = false).
  { intros c Hc.
    assert (I : In (super (line_of c)) (map super ls)).
    { rewrite <- F. apply in_map. apply in_flat_map. exists c.
      split; [exact Hc|]. destruct c; left; reflexivity. }
    apply in_map_iff in I as (l' & E & Hl').
    rewrite forallb_forall in Hw. specialize (Hw l' Hl').
    apply negb_true_iff in Hw. unfold is_word in *.
    replace (content (line_of c)) with (content l'); [exact Hw|].
    change (content (super l') = content (super (line_of c))).
    rewrite E. reflexivity. }
  destruct (word_heads_none children W) as [H Hf].
  unfold parse_toplevel. unfold bind at 1. cbn [lift access root_children].
  unfold bind at 1. rewrite (map_toplevel_no_heads B children H).
  cbn [ret]. rewrite filter_defined_none, Hf.
  cbn [map]. rewrite app_nil_r. destruct this. reflexivity.
Qed.

Lemma X26_two_lines_of_notes :
  parse Elements (js ("memo" ++ LF ++ TAB ++ "yomi:x")) new_DV6Parser
  = (Ok [], new_DV6Parser).
Proof.
  apply (X26_no_header_no_word Elements (js ("memo" ++ LF ++ TAB ++ "yomi:x"))
           [new_DV6Line 0 0 (js "memo"); new_DV6Line 1 1 (js "yomi:x")]
           (Some (Root [HeadLine (new_DV6Line 0 0 (js "memo"))
                          [Line (new_DV6Line 1 1 (js "yomi:x"))]]))
           new_DV6Parser);
    vm_compute; reflexivity.
Defined.
